(** * Tutorials: AlexNet and RNN/LSTM graph-construction notebooks

    A shallow embedding of the two notebooks of the repository,

      - [Neural_Network_Basics/RNN/Recurrent Neural Network on Tensorflow.ipynb]
      - [Computer_Vision/alexnet/Building AlexNet on Tensorflow.ipynb]

    Each code cell of a notebook builds a piece of a dataflow graph; the
    tensor a cell binds to a Python name is embedded here as a function of the
    tensors it is built from, under the same name.  Scalars of dtype
    [tf.float32] are read as real numbers ([R]); integer tensors as [Z] or
    [nat].  A tensor of rank one is a list, of rank two a list of rows, and so
    on, in the row-major order of the framework. *)

From Stdlib Require Import String Reals List ZArith Lia Lra Arith Bool.
Import ListNotations.


(* ================================================================== *)
(** * Tensors *)
(* ================================================================== *)

Module Tensor.

Local Open Scope R_scope.

Definition vec := list R.
Definition mat := list vec.
Definition tensor3 := list mat.

(** Elementwise combination of two tensors of the same shape.  The framework
    refuses operands whose static shapes disagree when the graph is built, so
    on every graph the notebooks build the two lists have the same length. *)
Definition zipWith {A B C : Type} (f : A -> B -> C) (u : list A) (v : list B) : list C :=
  map (fun q => f (fst q) (snd q)) (combine u v).

Definition vsum (v : vec) : R := fold_right Rplus 0 v.
Definition vadd (u v : vec) : vec := zipWith Rplus u v.
Definition vmul (u v : vec) : vec := zipWith Rmult u v.
Definition dot (u v : vec) : R := vsum (vmul u v).

Definition ncols (W : mat) : nat := length (hd [] W).
Definition col (j : nat) (W : mat) : vec := map (fun r => nth j r 0) W.
Definition transpose (W : mat) : mat := map (fun j => col j W) (seq 0 (ncols W)).

(** Row vector times matrix, and matrix times column vector. *)
Definition vecmat (x : vec) (W : mat) : vec := map (fun c => dot x c) (transpose W).
Definition matvec (M : mat) (x : vec) : vec := map (fun r => dot r x) M.

(** [tf.matmul] *)
Definition matmul (X W : mat) : mat := map (fun x => vecmat x W) X.

(** [tf.nn.xw_plus_b]: [matmul(x, weights) + biases], the bias added to
    every row. *)
Definition xw_plus_b (X W : mat) (b : vec) : mat := map (fun r => vadd r b) (matmul X W).

Definition mmap (f : R -> R) (X : mat) : mat := map (map f) X.
Definition madd (X Y : mat) : mat := zipWith vadd X Y.
Definition mmul (X Y : mat) : mat := zipWith vmul X Y.

(** [tf.zeros(shape=[n, d])] *)
Definition zeros (n d : nat) : mat := repeat (repeat 0 d) n.

(** [tf.sigmoid] and [tf.tanh] *)
Definition sigmoid (x : R) : R := 1 / (1 + exp (- x)).
Definition tanh (x : R) : R := Rtrigo_def.tanh x.

(** [t[:, j, :]] on a tensor of rank three whose axis 1 has the static size
    [dim]: a negative index counts from the end of that axis. *)
Definition index (dim : nat) (j : Z) : nat :=
  if (j <? 0)%Z then dim - Z.to_nat (- j) else Z.to_nat j.
Definition slice_axis1 (dim : nat) (j : Z) (t : tensor3) : mat :=
  map (fun s => nth (index dim j) s []) t.

(** [tf.stack(ts, axis=1)] of a list of matrices of one shape [n, d]: the
    tensor of shape [n, len(ts), d] whose entry [b][k] is row [b] of [ts[k]]. *)
Definition stack_axis1 (ts : list mat) : tensor3 :=
  map (fun b => map (fun T => nth b T []) ts) (seq 0 (length (hd [] ts))).

(** [tf.reshape]: the elements in row-major order, cut anew. *)
Fixpoint chunk_fuel {A : Type} (fuel k : nat) (l : list A) : list (list A) :=
  match fuel, l with
  | O, _ => []
  | _, [] => []
  | S fuel', _ => firstn k l :: chunk_fuel fuel' k (skipn k l)
  end.
Definition chunk {A : Type} (k : nat) (l : list A) : list (list A) :=
  chunk_fuel (length l) k l.

Definition flatten3 (t : tensor3) : vec := concat (concat t).
Definition flatten2 (X : mat) : vec := concat X.

(** [tf.reshape(t, [-1, d])] *)
Definition reshape_to_2 (d : nat) (flat : vec) : mat := chunk d flat.
(** [tf.reshape(t, [-1, k, d])] *)
Definition reshape_to_3 (k d : nat) (flat : vec) : tensor3 := chunk k (chunk d flat).

(** The dimensions of a tensor: [has_shape2 r c M] when [M] has [r] rows of
    [c] entries each, and so on. *)
Definition has_shape2 (r c : nat) (M : mat) : bool :=
  (length M =? r)%nat && forallb (fun row => (length row =? c)%nat) M.
Definition has_shape3 (a r c : nat) (T : tensor3) : bool :=
  (length T =? a)%nat && forallb (has_shape2 r c) T.
Definition has_shape4 (n a r c : nat) (B : list tensor3) : bool :=
  (length B =? n)%nat && forallb (has_shape3 a r c) B.

(** [tf.reduce_mean] over every element of a vector. *)
Definition reduce_mean (v : vec) : R := vsum v / INR (length v).

End Tensor.

(* ================================================================== *)
(** * What the notebooks take from numpy and from the framework *)
(* ================================================================== *)

Module Framework.

Import Tensor.

(** The values of the trainable variables of a graph, in the order of their
    creation, each as its elements in row-major order. *)
Definition variables := list vec.

(** The library functions the notebooks call and whose code is not theirs:
    pseudo-random generators, which are functions of their seed or state,
    symbolic differentiation, and the update rules of the optimizers. *)
Record framework : Type := Framework {
  (** the state of numpy's global generator *)
  gen : Type;
  (** the state [np.random.seed(s)] installs *)
  np_seed_state : Z -> gen;
  (** [k] draws of [np.random.normal], and the state they leave *)
  np_normal : gen -> nat -> vec * gen;
  (** the random op of the default initializer of [tf.get_variable], run
      under the two seeds of the op, for a variable of a given shape *)
  glorot_uniform : Z * Z -> list nat -> vec;
  (** [tf.gradients(loss, variables)] *)
  gradients : (variables -> R) -> variables -> variables;
  (** the slots of an optimizer, their initial value, and
      [apply_gradients] of [tf.train.AdamOptimizer(learning_rate)] and of
      [tf.train.MomentumOptimizer(learning_rate, momentum)] on a list of
      pairs (gradient, variable) *)
  slots : Type;
  slots_init : variables -> slots;
  adam_apply_gradients : R -> slots -> list (vec * vec) -> slots * variables;
  momentum_apply_gradients : R -> R -> slots -> list (vec * vec) -> slots * variables
}.

(** [optimizer.compute_gradients(loss)]: the list of pairs (gradient,
    variable) over the trainable variables. *)
Definition compute_gradients (fw : framework) (loss : variables -> R) (vars : variables)
  : list (vec * vec) :=
  combine (gradients fw loss vars) vars.

(** What an execution of a notebook can read and change besides its own
    names: numpy's global generator, the seed of the default graph, the
    number of random ops the graph holds, and how much of the entropy of the
    environment has been consumed. *)
Record world (fw : framework) : Type := World {
  np_state : gen fw;
  graph_seed : option Z;
  graph_random_ops : nat;
  entropy_used : nat
}.

Arguments np_state {fw} _.
Arguments graph_seed {fw} _.
Arguments graph_random_ops {fw} _.
Arguments entropy_used {fw} _.

(** The entropy of the environment: the values the operating system yields,
    one after the other, to whoever asks for a seed. *)
Definition entropy := nat -> Z.

Section Execution.

Variable fw : framework.
Variable env : entropy.

Definition M (A : Type) : Type := world fw -> A * world fw.
Definition ret {A : Type} (a : A) : M A := fun s => (a, s).
Definition bind {A B : Type} (m : M A) (k : A -> M B) : M B :=
  fun s => let (a, s') := m s in k a s'.

(** The world after [import numpy as np] and [import tensorflow as tf]: the
    global generator seeded from the entropy of the environment, the default
    graph with no seed. *)
Definition after_imports : world fw :=
  World fw (np_seed_state fw (env 0)) None 0 1.

Definition draw_entropy : M Z :=
  fun s => (env (entropy_used s),
            World fw (np_state s) (graph_seed s) (graph_random_ops s) (S (entropy_used s))).

(** [np.random.seed(seed)] *)
Definition np_random_seed (seed : Z) : M unit :=
  fun s => (tt, World fw (np_seed_state fw seed) (graph_seed s) (graph_random_ops s)
                      (entropy_used s)).

(** [np.random.normal(size=[rows, cols])] *)
Definition np_random_normal (rows cols : nat) : M mat :=
  fun s => let (draws, g) := np_normal fw (np_state s) (rows * cols) in
           (reshape_to_2 cols draws,
            World fw g (graph_seed s) (graph_random_ops s) (entropy_used s)).

(** [tf.reset_default_graph()] and [tf.set_random_seed(seed)] *)
Definition tf_reset_default_graph : M unit :=
  fun s => (tt, World fw (np_state s) None 0 (entropy_used s)).
Definition tf_set_random_seed (seed : Z) : M unit :=
  fun s => (tt, World fw (np_state s) (Some seed) (graph_random_ops s) (entropy_used s)).

(** The seeds a random op gets when it is created with no seed of its own:
    with a graph seed, that seed and a number fixed by the position of the op
    in the graph (the random ops are numbered here in creation order);
    without one, none. *)
Definition get_seed : M (option (Z * Z)) :=
  fun s => (match graph_seed s with
            | Some g => Some (g, Z.of_nat (graph_random_ops s))
            | None => None
            end,
            World fw (np_state s) (graph_seed s) (S (graph_random_ops s)) (entropy_used s)).

(** [tf.get_variable(name, shape, dtype)]: the variable is created with the
    default initializer; what is kept of it is the seeds of the random op of
    the initializer, and the shape. *)
Definition tf_get_variable (shape : list nat) : M (option (Z * Z) * list nat) :=
  bind get_seed (fun seeds => ret (seeds, shape)).

(** Running the initializer of one variable: a random op without seeds
    takes them from the entropy of the environment. *)
Definition run_initializer (init : option (Z * Z) * list nat) : M vec :=
  match fst init with
  | Some seeds => ret (glorot_uniform fw seeds (snd init))
  | None =>
      bind draw_entropy (fun e1 =>
      bind draw_entropy (fun e2 =>
      ret (glorot_uniform fw (e1, e2) (snd init))))
  end.

(** [sess.run(tf.global_variables_initializer())] *)
Fixpoint global_variables_initializer (inits : list (option (Z * Z) * list nat)) : M variables :=
  match inits with
  | [] => ret []
  | init :: inits' =>
      bind (run_initializer init) (fun v =>
      bind (global_variables_initializer inits') (fun vs =>
      ret (v :: vs)))
  end.

(** The training cell of the RNN notebook,
<<
    for step in range(1,101):
        _ = sess.run(train_step, {seq_input: train_seq})
        curr_loss = sess.run(loss, {seq_input: train_seq})
        print 'step:', step, 'loss:', curr_loss
>>
    over the values [steps] of [step] still to come: [train_step] maps the
    slots and variables before a run to those after it, [loss] is the loss
    on [train_seq] as a function of the variables, and [printed] the lines
    printed so far, each a step and a loss. *)
Fixpoint training (train_step : slots fw * variables -> slots fw * variables)
                  (loss : variables -> R) (steps : list nat)
                  (state : slots fw * variables) (printed : list (nat * R))
  : (slots fw * variables) * list (nat * R) :=
  match steps with
  | [] => (state, printed)
  | step :: steps' =>
      let state := train_step state in
      let curr_loss := loss (snd state) in
      training train_step loss steps' state (printed ++ [(step, curr_loss)])
  end.

End Execution.

Arguments ret {fw A} a.
Arguments bind {fw A B} m k.

End Framework.

(* ================================================================== *)
(** * Recurrent Neural Network on Tensorflow: the vanilla RNN *)
(* ================================================================== *)

Module RNN.

Import Tensor.
Local Open Scope R_scope.

Definition SEQ_LENGTH : nat := 10.
Definition HIDDEN_DIM : nat := 4.
Definition LEARNING_RATE : R := 0.1.

(** The variables of scope ['weights'], by their Python names.  [W_hx] has
    shape [[1, HIDDEN_DIM]], [W_hh] [[HIDDEN_DIM, HIDDEN_DIM]], [b_h]
    [[HIDDEN_DIM]], [W_yh] [[HIDDEN_DIM, 1]] and [b_y] [[1]]. *)
Record weights : Type := Weights {
  W_hx : mat;
  W_hh : mat;
  b_h : vec;
  W_yh : mat;
  b_y : vec
}.

(** The weights have the shapes they are declared with. *)
Definition well_shaped (w : weights) : bool :=
  has_shape2 1 HIDDEN_DIM (W_hx w) && has_shape2 HIDDEN_DIM HIDDEN_DIM (W_hh w)
  && (length (b_h w) =? HIDDEN_DIM)%nat
  && has_shape2 HIDDEN_DIM 1 (W_yh w) && (length (b_y w) =? 1)%nat.

(** [hidden_0 = tf.zeros(shape=[tf.shape(seq_input)[0], HIDDEN_DIM])] *)
Definition hidden_0 (seq_input : tensor3) : mat := zeros (length seq_input) HIDDEN_DIM.

(** The body of [for j in range(SEQ_LENGTH-1)]: the new value of [hidden]. *)
Definition rnn_body (w : weights) (seq_input : tensor3) (hidden : mat) (j : nat) : mat :=
  let hidden := madd (matmul (slice_axis1 SEQ_LENGTH (Z.of_nat j) seq_input) (W_hx w))
                     (xw_plus_b hidden (W_hh w) (b_h w)) in
  let hidden := mmap sigmoid hidden in
  hidden.

(** The loop itself, over the values [js] of [j] still to come: [hidden] is
    the loop-carried tensor and [hiddens] the Python list appended to. *)
Fixpoint rnn_loop (w : weights) (seq_input : tensor3) (js : list nat)
                  (hidden : mat) (hiddens : list mat) : mat * list mat :=
  match js with
  | [] => (hidden, hiddens)
  | j :: js' =>
      let hidden := rnn_body w seq_input hidden j in
      rnn_loop w seq_input js' hidden (hiddens ++ [hidden])
  end.

(** The Python list [hiddens] when the loop ends. *)
Definition hiddens_list (w : weights) (seq_input : tensor3) : list mat :=
  snd (rnn_loop w seq_input (seq 0 (SEQ_LENGTH - 1)) (hidden_0 seq_input) []).

(** [hiddens = tf.stack(hiddens, axis=1, name='hiddens')] *)
Definition hiddens (w : weights) (seq_input : tensor3) : tensor3 :=
  stack_axis1 (hiddens_list w seq_input).

(** Scope ['output']. *)
Definition outputs_of (w : weights) (hiddens : tensor3) : tensor3 :=
  let outputs := reshape_to_2 HIDDEN_DIM (flatten3 hiddens) in
  let outputs := xw_plus_b outputs (W_yh w) (b_y w) in
  let outputs := reshape_to_3 (SEQ_LENGTH - 1) 1 (flatten2 outputs) in
  outputs.

Definition outputs (w : weights) (seq_input : tensor3) : tensor3 :=
  outputs_of w (hiddens w seq_input).

(** The output layer on one hidden state [h]: [h W_yh + b_y]. *)
Definition readout (w : weights) (h : vec) : vec := vadd (vecmat h (W_yh w)) (b_y w).

(** [tf.losses.mean_squared_error(labels, predictions)]: the mean over every
    element of the squared difference. *)
Definition mean_squared_error (labels predictions : mat) : R :=
  reduce_mean (map (fun d => d * d) (flatten2 (zipWith (zipWith Rminus) predictions labels))).

(** Scope ['learning']: [predict] and [loss].  [outputs] has the static shape
    [[None, SEQ_LENGTH-1, 1]] and [seq_input] [[None, SEQ_LENGTH, 1]]. *)
Definition predict_of (outputs : tensor3) : mat :=
  slice_axis1 (SEQ_LENGTH - 1) (-1) outputs.

Definition loss_of (seq_input : tensor3) (predict : mat) : R :=
  mean_squared_error (slice_axis1 SEQ_LENGTH (-1) seq_input) predict.

Definition predict (w : weights) (seq_input : tensor3) : mat :=
  predict_of (outputs w seq_input).

Definition loss (w : weights) (seq_input : tensor3) : R :=
  loss_of seq_input (predict w seq_input).

(** The recurrence of the notebook's text, for one sequence [s] of inputs
    [x(1), x(2), ...] (each of one feature):
    [h(t) = sigma(W^hx x(t) + W^hh h(t-1) + b_h)], [h(0) = 0].  The variable
    [W_hx] holds the transpose of [W^hx], and [W_hh] that of [W^hh]. *)
Fixpoint h_textbook (w : weights) (s : list vec) (t : nat) : vec :=
  match t with
  | O => repeat 0 HIDDEN_DIM
  | S t' =>
      map sigmoid
        (vadd (vadd (matvec (transpose (W_hx w)) (nth t' s []))
                    (matvec (transpose (W_hh w)) (h_textbook w s t')))
              (b_h w))
  end.

(** The weights as read from the values of the five trainable variables
    [W_hx], [W_hh], [b_h], [W_yh] and [b_y], each in its declared shape. *)
Definition weights_of (vars : Framework.variables) : weights :=
  Weights (reshape_to_2 HIDDEN_DIM (nth 0 vars []))
          (reshape_to_2 HIDDEN_DIM (nth 1 vars []))
          (nth 2 vars [])
          (reshape_to_2 1 (nth 3 vars []))
          (nth 4 vars []).

(** [train_step = tf.train.AdamOptimizer(LEARNING_RATE).minimize(loss)], run
    with [seq_input] fed: [minimize] is [compute_gradients] followed by
    [apply_gradients]. *)
Definition train_step (fw : Framework.framework) (seq_input : tensor3)
                      (state : Framework.slots fw * Framework.variables)
  : Framework.slots fw * Framework.variables :=
  let loss := fun vars => loss (weights_of vars) seq_input in
  let grads_and_vars := Framework.compute_gradients fw loss (snd state) in
  Framework.adam_apply_gradients fw LEARNING_RATE (fst state) grads_and_vars.

End RNN.

(* ================================================================== *)
(** * Recurrent Neural Network on Tensorflow: the LSTM *)
(* ================================================================== *)

Module LSTM.

Import Tensor.
Local Open Scope R_scope.

Definition SEQ_LENGTH : nat := RNN.SEQ_LENGTH.
Definition HIDDEN_DIM : nat := 4.
Definition LEARNING_RATE : R := 0.1.

Record weights : Type := Weights {
  W_gx : mat; W_gh : mat;
  W_ix : mat; W_ih : mat;
  W_fx : mat; W_fh : mat;
  W_ox : mat; W_oh : mat;
  b_g : vec; b_i : vec; b_f : vec; b_o : vec;
  W_yh : mat; b_y : vec
}.

(** The weights have the shapes they are declared with. *)
Definition well_shaped (w : weights) : bool :=
  has_shape2 1 HIDDEN_DIM (W_gx w) && has_shape2 HIDDEN_DIM HIDDEN_DIM (W_gh w)
  && has_shape2 1 HIDDEN_DIM (W_ix w) && has_shape2 HIDDEN_DIM HIDDEN_DIM (W_ih w)
  && has_shape2 1 HIDDEN_DIM (W_fx w) && has_shape2 HIDDEN_DIM HIDDEN_DIM (W_fh w)
  && has_shape2 1 HIDDEN_DIM (W_ox w) && has_shape2 HIDDEN_DIM HIDDEN_DIM (W_oh w)
  && (length (b_g w) =? HIDDEN_DIM)%nat && (length (b_i w) =? HIDDEN_DIM)%nat
  && (length (b_f w) =? HIDDEN_DIM)%nat && (length (b_o w) =? HIDDEN_DIM)%nat
  && has_shape2 HIDDEN_DIM 1 (W_yh w) && (length (b_y w) =? 1)%nat.

(** The weights [w] with those of the forget gate replaced. *)
Definition with_forget_gate (w : weights) (Wfx Wfh : mat) (bf : vec) : weights :=
  Weights (W_gx w) (W_gh w) (W_ix w) (W_ih w) Wfx Wfh (W_ox w) (W_oh w)
          (b_g w) (b_i w) bf (b_o w) (W_yh w) (b_y w).

Definition state_0 (seq_input : tensor3) : mat := zeros (length seq_input) HIDDEN_DIM.
Definition hidden_0 (seq_input : tensor3) : mat := zeros (length seq_input) HIDDEN_DIM.

(** The tensors one pass of the loop body binds: the four tensors named
    ['g'], ['i'], ['f'] and ['o'], and the new [state] and [hidden]. *)
Record cell : Type := Cell {
  g : mat; i : mat; f : mat; o : mat;
  state : mat; hidden : mat
}.

(** The body of [for j in range(SEQ_LENGTH-1)], line by line. *)
Definition lstm_body (w : weights) (seq_input : tensor3) (state hidden : mat) (j : nat) : cell :=
  let x_j := slice_axis1 SEQ_LENGTH (Z.of_nat j) seq_input in
  let g := madd (matmul x_j (W_gx w)) (xw_plus_b hidden (W_gh w) (b_g w)) in
  let g := mmap tanh g in
  let i := madd (matmul x_j (W_ix w)) (xw_plus_b hidden (W_ih w) (b_i w)) in
  let i := mmap sigmoid i in
  let f := madd (matmul x_j (W_fx w)) (xw_plus_b hidden (W_fh w) (b_f w)) in
  let f := mmap sigmoid g in
  let o := madd (matmul x_j (W_ox w)) (xw_plus_b hidden (W_oh w) (b_o w)) in
  let o := mmap sigmoid o in
  let state := madd (mmul g i) (mmul f state) in
  let hidden := mmul o (mmap tanh state) in
  Cell g i f o state hidden.

(** The loop: [cells] collects what each pass bound, so that [states] and
    [hiddens] are its projections. *)
Fixpoint lstm_loop (w : weights) (seq_input : tensor3) (js : list nat)
                   (state hidden : mat) (cells : list cell) : list cell :=
  match js with
  | [] => cells
  | j :: js' =>
      let c := lstm_body w seq_input state hidden j in
      lstm_loop w seq_input js' (LSTM.state c) (LSTM.hidden c) (cells ++ [c])
  end.

Definition cells (w : weights) (seq_input : tensor3) : list cell :=
  lstm_loop w seq_input (seq 0 (SEQ_LENGTH - 1)) (state_0 seq_input) (hidden_0 seq_input) [].

Definition states_list (w : weights) (seq_input : tensor3) : list mat :=
  map state (cells w seq_input).
Definition hiddens_list (w : weights) (seq_input : tensor3) : list mat :=
  map hidden (cells w seq_input).

Definition states (w : weights) (seq_input : tensor3) : tensor3 :=
  stack_axis1 (states_list w seq_input).
Definition hiddens (w : weights) (seq_input : tensor3) : tensor3 :=
  stack_axis1 (hiddens_list w seq_input).

Definition outputs_of (w : weights) (hiddens : tensor3) : tensor3 :=
  let outputs := reshape_to_2 HIDDEN_DIM (flatten3 hiddens) in
  let outputs := xw_plus_b outputs (W_yh w) (b_y w) in
  let outputs := reshape_to_3 (SEQ_LENGTH - 1) 1 (flatten2 outputs) in
  outputs.

Definition outputs (w : weights) (seq_input : tensor3) : tensor3 :=
  outputs_of w (hiddens w seq_input).

(** The output layer on one hidden state [h]: [h W_yh + b_y]. *)
Definition readout (w : weights) (h : vec) : vec := vadd (vecmat h (W_yh w)) (b_y w).

Definition predict_of (outputs : tensor3) : mat :=
  slice_axis1 (SEQ_LENGTH - 1) (-1) outputs.

Definition loss_of (seq_input : tensor3) (predict : mat) : R :=
  RNN.mean_squared_error (slice_axis1 SEQ_LENGTH (-1) seq_input) predict.

Definition predict (w : weights) (seq_input : tensor3) : mat :=
  predict_of (outputs w seq_input).

Definition loss (w : weights) (seq_input : tensor3) : R :=
  loss_of seq_input (predict w seq_input).

(** The gate equations of the notebook's text at one time step, for the
    whole batch: each gate from its own weights, the input [x_j] and the
    previous hidden state. *)
Definition gate (act : R -> R) (Wx Wh : mat) (b : vec) (x_j hidden : mat) : mat :=
  mmap act (madd (matmul x_j Wx) (xw_plus_b hidden Wh b)).

Definition i_textbook (w : weights) (x_j hidden : mat) : mat :=
  gate sigmoid (W_ix w) (W_ih w) (b_i w) x_j hidden.
Definition f_textbook (w : weights) (x_j hidden : mat) : mat :=
  gate sigmoid (W_fx w) (W_fh w) (b_f w) x_j hidden.
Definition o_textbook (w : weights) (x_j hidden : mat) : mat :=
  gate sigmoid (W_ox w) (W_oh w) (b_o w) x_j hidden.
Definition g_textbook (w : weights) (x_j hidden : mat) : mat :=
  gate tanh (W_gx w) (W_gh w) (b_g w) x_j hidden.

Definition weights_of (vars : Framework.variables) : weights :=
  Weights (reshape_to_2 HIDDEN_DIM (nth 0 vars [])) (reshape_to_2 HIDDEN_DIM (nth 1 vars []))
          (reshape_to_2 HIDDEN_DIM (nth 2 vars [])) (reshape_to_2 HIDDEN_DIM (nth 3 vars []))
          (reshape_to_2 HIDDEN_DIM (nth 4 vars [])) (reshape_to_2 HIDDEN_DIM (nth 5 vars []))
          (reshape_to_2 HIDDEN_DIM (nth 6 vars [])) (reshape_to_2 HIDDEN_DIM (nth 7 vars []))
          (nth 8 vars []) (nth 9 vars []) (nth 10 vars []) (nth 11 vars [])
          (reshape_to_2 1 (nth 12 vars [])) (nth 13 vars []).

Definition train_step (fw : Framework.framework) (seq_input : tensor3)
                      (state : Framework.slots fw * Framework.variables)
  : Framework.slots fw * Framework.variables :=
  let loss := fun vars => loss (weights_of vars) seq_input in
  let grads_and_vars := Framework.compute_gradients fw loss (snd state) in
  Framework.adam_apply_gradients fw LEARNING_RATE (fst state) grads_and_vars.

End LSTM.

(* ================================================================== *)
(** * Static shapes *)
(* ================================================================== *)

Module Static.

Inductive dtype : Type := float32 | int32.

(** A dimension of a static shape: known, or [None] (printed [?]). *)
Definition dim := option nat.
Definition shape := list dim.

(** A tensor of the graph as [print] shows it: name, static shape, dtype. *)
Record tensor : Type := Tensor {
  name : string;
  shape_of : shape;
  dtype_of : dtype
}.

(** [tf.placeholder(dtype, shape, name)] inside [tf.variable_scope(scope)] *)
Definition placeholder (scope : string) (d : dtype) (s : shape) (n : string) : tensor :=
  Tensor (scope ++ "/" ++ n ++ ":0") s d.

(** A value of dimensions [dims] may be fed to a placeholder of static shape
    [s] when the ranks agree and every known dimension is met. *)
Fixpoint feedable (s : shape) (dims : list nat) : bool :=
  match s, dims with
  | [], [] => true
  | d :: s', n :: dims' =>
      match d with
      | Some k => Nat.eqb k n
      | None => true
      end && feedable s' dims'
  | _, _ => false
  end.

Inductive padding : Type := SAME | VALID.

(** Spatial size of the result of a convolution or a pooling over an axis of
    size [n], with window [k] and stride [s]: [ceil(n / s)] under ['SAME'],
    [ceil((n - k + 1) / s)] under ['VALID']. *)
Definition out_size (p : padding) (n k s : nat) : nat :=
  match p with
  | SAME => (n + s - 1) / s
  | VALID => (n - k + 1 + s - 1) / s
  end.

Definition conv2d_shape (filters kh kw sh sw : nat) (p : padding) (s : shape) : option shape :=
  match s with
  | [b; h; w; _] =>
      Some [b; option_map (fun n => out_size p n kh sh) h;
               option_map (fun n => out_size p n kw sw) w; Some filters]
  | _ => None
  end.

(** Shape of the kernel variable a convolution creates for an input of
    shape [s], and of the one a dense layer creates. *)
Definition conv2d_kernel_shape (filters kh kw : nat) (s : shape) : option (list nat) :=
  match s with
  | [_; _; _; Some c] => Some [kh; kw; c; filters]
  | _ => None
  end.
Definition dense_kernel_shape (units : nat) (s : shape) : option (list nat) :=
  match s with
  | [_; Some d] => Some [d; units]
  | _ => None
  end.

Definition max_pooling2d_shape (ph pw sh sw : nat) (s : shape) : option shape :=
  match s with
  | [b; h; w; c] =>
      Some [b; option_map (fun n => out_size VALID n ph sh) h;
               option_map (fun n => out_size VALID n pw sw) w; c]
  | _ => None
  end.

Definition dense_shape (units : nat) (s : shape) : option shape :=
  match s with
  | [b; Some _] => Some [b; Some units]
  | _ => None
  end.

(** Number of elements of a shape, when every dimension is known. *)
Fixpoint num_elements (s : shape) : option nat :=
  match s with
  | [] => Some 1
  | Some n :: s' => option_map (Nat.mul n) (num_elements s')
  | None :: _ => None
  end.

(** [tf.reshape(t, [-1, d1, ..., dk])]: the leading dimension is what the
    number of elements leaves, and unknown when that number is; a known
    number of elements that is no multiple of [d1 * ... * dk] is refused. *)
Definition reshape_shape (ds : list nat) (s : shape) : option shape :=
  let per := fold_right Nat.mul 1 ds in
  match num_elements s with
  | Some total =>
      if (total mod per =? 0) then Some (Some (total / per) :: map Some ds) else None
  | None => Some (None :: map Some ds)
  end.

(** Sequencing of calls that may refuse their input. *)
Definition option_bind {A B : Type} (o : option A) (f : A -> option B) : option B :=
  match o with
  | Some a => f a
  | None => None
  end.

End Static.

(* ================================================================== *)
(** * Building AlexNet on Tensorflow *)
(* ================================================================== *)

Module AlexNet.

Import Tensor Static.
Local Open Scope R_scope.

(** An image is a tensor of rank three, [height][width][channel]; a batch
    of images a list of them.  A convolution kernel has the layout
    [kernel_height][kernel_width][in_channel][out_channel]. *)
Definition image := tensor3.
Definition batch := list image.
Definition kernel := list (list mat).

(** Zero padding put before the axis under ['SAME']: half, rounded down, of
    what the windows need beyond the axis. *)
Definition pad_before (p : padding) (n k s : nat) : nat :=
  match p with
  | SAME => ((out_size SAME n k s - 1) * s + k - n) / 2
  | VALID => 0
  end.

(** The pixel of [img] at row [y - py], column [x - px] and channel [c],
    zero outside the image. *)
Definition pixel (img : image) (py px : nat) (y x c : nat) : R :=
  if (py <=? y)%nat && (px <=? x)%nat
  then nth c (nth (x - px) (nth (y - py) img []) []) 0
  else 0.

Definition height (img : image) : nat := length img.
Definition width (img : image) : nat := length (hd [] img).
Definition channels (img : image) : nat := length (hd [] (hd [] img)).

Definition relu (x : R) : R := Rmax x 0.

(** [tf.layers.conv2d(inputs, filters, kernel_size=[kh,kw], strides=(sh,sw),
    padding, activation)] on one image, with the layer's kernel [K] and bias
    [b]. *)
Definition conv2d_image (filters kh kw sh sw : nat) (p : padding) (act : R -> R)
                        (K : kernel) (b : vec) (img : image) : image :=
  let py := pad_before p (height img) kh sh in
  let px := pad_before p (width img) kw sw in
  map (fun y =>
    map (fun x =>
      map (fun o =>
        act (vsum (map (fun dy =>
               vsum (map (fun dx =>
                 vsum (map (fun c =>
                   pixel img py px (y * sh + dy) (x * sw + dx) c
                   * nth o (nth c (nth dx (nth dy K []) []) []) 0)
                   (seq 0 (channels img))))
                 (seq 0 kw)))
               (seq 0 kh))
             + nth o b 0))
        (seq 0 filters))
      (seq 0 (out_size p (width img) kw sw)))
    (seq 0 (out_size p (height img) kh sh)).

Definition conv2d (filters kh kw sh sw : nat) (p : padding) (act : R -> R)
                  (K : kernel) (b : vec) (inputs : batch) : batch :=
  map (conv2d_image filters kh kw sh sw p act K b) inputs.

(** [tf.nn.lrn(input, depth_radius, bias, alpha, beta)]: every channel [d] of
    every pixel is divided by
    [(bias + alpha * sum(input[d - depth_radius : d + depth_radius + 1] ** 2)) ** beta],
    the slice cut at the ends of the channel axis. *)
Definition lrn_window (depth_radius d : nat) (v : vec) : vec :=
  firstn (d + depth_radius + 1 - (d - depth_radius)) (skipn (d - depth_radius) v).

Definition lrn_pixel (depth_radius : nat) (bias alpha beta : R) (v : vec) : vec :=
  map (fun d =>
         nth d v 0
         / Rpower (bias + alpha * vsum (map (fun a => a * a) (lrn_window depth_radius d v))) beta)
      (seq 0 (length v)).

Definition lrn (depth_radius : nat) (bias alpha beta : R) (input : batch) : batch :=
  map (map (map (lrn_pixel depth_radius bias alpha beta))) input.

(** [tf.layers.max_pooling2d(inputs, pool_size=[ph,pw], strides=(sh,sw))],
    with its default padding ['valid']. *)
Definition vmax (l : vec) : R :=
  match l with
  | [] => 0
  | a :: l' => fold_left Rmax l' a
  end.

Definition max_pooling2d_image (ph pw sh sw : nat) (img : image) : image :=
  map (fun y =>
    map (fun x =>
      map (fun c =>
        vmax (flat_map (fun dy =>
                map (fun dx => nth c (nth (x * sw + dx) (nth (y * sh + dy) img []) []) 0)
                    (seq 0 pw))
              (seq 0 ph)))
        (seq 0 (channels img)))
      (seq 0 (out_size VALID (width img) pw sw)))
    (seq 0 (out_size VALID (height img) ph sh)).

Definition max_pooling2d (ph pw sh sw : nat) (inputs : batch) : batch :=
  map (max_pooling2d_image ph pw sh sw) inputs.

(** [tf.layers.dense(inputs, units, activation)] with the layer's kernel
    (of shape [[in, units]]) and bias. *)
Definition dense (act : R -> R) (K : mat) (b : vec) (inputs : mat) : mat :=
  mmap act (xw_plus_b inputs K b).

(** [tf.layers.dropout(inputs, rate, training=True)]: with [noise] the
    uniform draws in [[0, 1)] of the layer's random op, an entry is kept and
    scaled by [1 / (1 - rate)] where [floor(1 - rate + noise)] is [1], and
    zeroed where it is [0]. *)
Definition floor (x : R) : R := IZR (Int_part x).
Definition dropout (rate : R) (noise inputs : mat) : mat :=
  zipWith (zipWith (fun x u => x / (1 - rate) * floor (1 - rate + u))) inputs noise.

(** The sixteen trainable variables, in the order of their creation. *)
Record variables : Type := Variables {
  conv1_kernel : kernel; conv1_bias : vec;
  conv2_kernel : kernel; conv2_bias : vec;
  conv3_kernel : kernel; conv3_bias : vec;
  conv4_kernel : kernel; conv4_bias : vec;
  conv5_kernel : kernel; conv5_bias : vec;
  dense1_kernel : mat; dense1_bias : vec;
  dense2_kernel : mat; dense2_bias : vec;
  softmax_kernel : mat; softmax_bias : vec
}.

(** Scope ['conv_layer_1']. *)
Definition conv1 (v : variables) (image_batch : batch) : batch :=
  conv2d 96 11 11 4 4 SAME relu (conv1_kernel v) (conv1_bias v) image_batch.
Definition lrn1 (v : variables) (image_batch : batch) : batch :=
  lrn 5 2 1e-4 0.75 (conv1 v image_batch).
Definition maxpool1 (v : variables) (image_batch : batch) : batch :=
  max_pooling2d 2 2 1 1 (lrn1 v image_batch).

(** Scope ['conv_layer_2']. *)
Definition conv2 (v : variables) (image_batch : batch) : batch :=
  conv2d 256 5 5 2 2 SAME relu (conv2_kernel v) (conv2_bias v) (maxpool1 v image_batch).
Definition lrn2 (v : variables) (image_batch : batch) : batch :=
  lrn 5 2 1e-4 0.75 (conv2 v image_batch).
Definition maxpool2 (v : variables) (image_batch : batch) : batch :=
  max_pooling2d 2 2 1 1 (lrn2 v image_batch).

(** Scopes ['conv_layer_3'], ['conv_layer_4'] and ['conv_layer_5']. *)
Definition conv3 (v : variables) (image_batch : batch) : batch :=
  conv2d 384 3 3 2 2 VALID relu (conv3_kernel v) (conv3_bias v) (maxpool2 v image_batch).
Definition conv4 (v : variables) (image_batch : batch) : batch :=
  conv2d 384 3 3 1 1 SAME relu (conv4_kernel v) (conv4_bias v) (conv3 v image_batch).
Definition conv5 (v : variables) (image_batch : batch) : batch :=
  conv2d 256 3 3 1 1 SAME relu (conv5_kernel v) (conv5_bias v) (conv4 v image_batch).

(** Scope ['fc_layer_1']: [conv5 = tf.reshape(conv5, [-1, 13*13*256])], then
    the dense layer and its dropout. *)
Definition flatten4 (t : batch) : vec := concat (map flatten3 t).
Definition conv5_reshaped (v : variables) (image_batch : batch) : mat :=
  reshape_to_2 (13 * 13 * 256) (flatten4 (conv5 v image_batch)).
Definition dense1 (v : variables) (noise1 : mat) (image_batch : batch) : mat :=
  let dense1 := dense relu (dense1_kernel v) (dense1_bias v) (conv5_reshaped v image_batch) in
  let dense1 := dropout 0.5 noise1 dense1 in
  dense1.

(** Scope ['fc_layer_2']. *)
Definition dense2 (v : variables) (noise1 noise2 : mat) (image_batch : batch) : mat :=
  let dense2 := dense relu (dense2_kernel v) (dense2_bias v) (dense1 v noise1 image_batch) in
  let dense2 := dropout 0.5 noise2 dense2 in
  dense2.

(** Scope ['softmax_layer']: the tensor named ['softmax'], as a function of
    [dense2] and then of the inputs of the graph. *)
Definition softmax_of (v : variables) (dense2 : mat) : mat :=
  dense relu (softmax_kernel v) (softmax_bias v) dense2.
Definition softmax (v : variables) (noise1 noise2 : mat) (image_batch : batch) : mat :=
  softmax_of v (dense2 v noise1 noise2 image_batch).

(** [tf.losses.sparse_softmax_cross_entropy(labels, logits)]: the mean over
    the batch of [-log(softmax(logits[b])[labels[b]])], where the softmax of a
    row divides the exponential of each entry by the sum of the exponentials
    of the row. *)
Definition softmax_normalize (row : vec) : vec :=
  map (fun a => exp a / vsum (map exp row)) row.
Definition sparse_softmax_cross_entropy (labels : list Z) (logits : mat) : R :=
  reduce_mean
    (zipWith (fun y row => - ln (nth (Z.to_nat y) (softmax_normalize row) 0)) labels logits).

(** Scope ['loss']. *)
Definition loss_of (label_batch : list Z) (softmax : mat) : R :=
  sparse_softmax_cross_entropy label_batch softmax.
Definition loss (v : variables) (noise1 noise2 : mat) (image_batch : batch)
                (label_batch : list Z) : R :=
  loss_of label_batch (softmax v noise1 noise2 image_batch).

(** [tf.argmax(input, axis=0)] of a matrix whose rows have [units] entries:
    for every column the index of its first greatest entry. *)
Fixpoint argmax_from (best_at : nat) (best : R) (at_ : nat) (l : vec) : nat :=
  match l with
  | [] => best_at
  | a :: l' =>
      if Rlt_dec best a then argmax_from at_ a (S at_) l'
      else argmax_from best_at best (S at_) l'
  end.
Definition argmax (l : vec) : nat :=
  match l with
  | [] => 0%nat
  | a :: l' => argmax_from 0 a 1 l'
  end.
Definition argmax_axis0 (units : nat) (input : mat) : list Z :=
  map (fun c => Z.of_nat (argmax (col c input))) (seq 0 units).

(** [tf.equal(x, y)] on two vectors: elementwise when the lengths agree, one
    operand of length one broadcast over the other, and an error otherwise. *)
Definition equal (x y : list Z) : option (list bool) :=
  if (length x =? length y)%nat then Some (zipWith Z.eqb x y)
  else if (length y =? 1)%nat then Some (map (fun a => Z.eqb a (hd 0%Z y)) x)
  else if (length x =? 1)%nat then Some (map (fun b => Z.eqb (hd 0%Z x) b) y)
  else None.

Definition to_float (bs : list bool) : vec := map (fun b : bool => if b then 1 else 0) bs.

(** Scope ['predict']. *)
Definition prediction_of (softmax : mat) : list Z := argmax_axis0 1000 softmax.
Definition accuracy_of (prediction label_batch : list Z) : option R :=
  option_map (fun e => reduce_mean (to_float e)) (equal prediction label_batch).

Definition prediction (v : variables) (noise1 noise2 : mat) (image_batch : batch) : list Z :=
  prediction_of (softmax v noise1 noise2 image_batch).
Definition accuracy (v : variables) (noise1 noise2 : mat) (image_batch : batch)
                    (label_batch : list Z) : option R :=
  accuracy_of (prediction v noise1 noise2 image_batch) label_batch.

(** The variables as read from the values of the sixteen trainable
    variables, each in the shape it was created with. *)
Definition kernel_of (kw cin cout : nat) (flat : vec) : kernel :=
  chunk kw (chunk cin (chunk cout flat)).
Definition variables_of (vars : Framework.variables) : variables :=
  Variables (kernel_of 11 3 96 (nth 0 vars [])) (nth 1 vars [])
            (kernel_of 5 96 256 (nth 2 vars [])) (nth 3 vars [])
            (kernel_of 3 256 384 (nth 4 vars [])) (nth 5 vars [])
            (kernel_of 3 384 384 (nth 6 vars [])) (nth 7 vars [])
            (kernel_of 3 384 256 (nth 8 vars [])) (nth 9 vars [])
            (reshape_to_2 4096 (nth 10 vars [])) (nth 11 vars [])
            (reshape_to_2 4096 (nth 12 vars [])) (nth 13 vars [])
            (reshape_to_2 1000 (nth 14 vars [])) (nth 15 vars []).

(** Scope ['train']:
<<
    grads_vars = optimizer.compute_gradients(loss)
    grads_vars = [(grad + 0.0005*0.01*var, var) for grad, var in grads_vars]
>>
    as a function of the loss (of the variables) and of the variables. *)
Definition grads_vars (fw : Framework.framework) (loss : Framework.variables -> R)
                      (vars : Framework.variables) : list (vec * vec) :=
  let grads_vars := Framework.compute_gradients fw loss vars in
  let grads_vars :=
    map (fun gv => (vadd (fst gv) (map (fun x => 0.0005 * 0.01 * x) (snd gv)), snd gv))
        grads_vars in
  grads_vars.

(** [train_op = optimizer.apply_gradients(grads_vars)] with
    [optimizer = tf.train.MomentumOptimizer(learning_rate=0.01, momentum=0.9)],
    run with the placeholders fed and the draws of the two dropouts. *)
Definition train_op (fw : Framework.framework) (noise1 noise2 : mat)
                    (image_batch : batch) (label_batch : list Z)
                    (state : Framework.slots fw * Framework.variables)
  : Framework.slots fw * Framework.variables :=
  let loss := fun vars => loss (variables_of vars) noise1 noise2 image_batch label_batch in
  Framework.momentum_apply_gradients fw 0.01 0.9 (fst state) (grads_vars fw loss (snd state)).

(** Local Response Normalization with radius 5, bias 2, alpha 1e-4 and beta
    0.75 written out for the channels [a_0, ..., a_(N-1)] of one pixel:
    [b_d = a_d / (2 + 1e-4 * sum_{j = max(0, d-5)}^{min(N-1, d+5)} a_j^2)^0.75]. *)
Definition lrn_5_2_1e4_075 (a : vec) : vec :=
  map (fun d =>
         nth d a 0
         / Rpower (2 + 1e-4 * vsum (map (fun j => nth j a 0 * nth j a 0)
                                        (seq (d - 5) (Nat.min (d + 6) (length a) - (d - 5)))))
                  0.75)
      (seq 0 (length a)).

(** Max pooling with a 2 x 2 window and stride 1 x 1 written out: the
    greatest of the four entries of a channel at rows [y], [y+1] and columns
    [x], [x+1]. *)
Definition max_pool_2x2_stride_1 (img : image) : image :=
  map (fun y =>
    map (fun x =>
      map (fun c =>
        Rmax (Rmax (Rmax (nth c (nth x (nth y img []) []) 0)
                         (nth c (nth (x + 1) (nth y img []) []) 0))
                   (nth c (nth x (nth (y + 1) img []) []) 0))
             (nth c (nth (x + 1) (nth (y + 1) img []) []) 0))
        (seq 0 (channels img)))
      (seq 0 (out_size VALID (width img) 2 1)))
    (seq 0 (out_size VALID (height img) 2 1)).

End AlexNet.

(* ================================================================== *)
(** * The tensors of the AlexNet graph as the notebook prints them *)
(* ================================================================== *)

Module AlexNetGraph.

Import Static.

(** Scope ['input_layer']. *)
Definition image_batch : tensor :=
  placeholder "input_layer" float32 [None; Some 224; Some 224; Some 3] "image_batch".
Definition label_batch : tensor :=
  placeholder "input_layer" int32 [None] "label_batch".

(** The static shapes of the layers, each inferred from that of its input by
    the call that builds it; [None] where a call refuses its input. *)
Definition conv1 : option shape := conv2d_shape 96 11 11 4 4 SAME (shape_of image_batch).
Definition lrn1 : option shape := conv1.
Definition maxpool1 : option shape := option_bind lrn1 (max_pooling2d_shape 2 2 1 1).
Definition conv2 : option shape := option_bind maxpool1 (conv2d_shape 256 5 5 2 2 SAME).
Definition lrn2 : option shape := conv2.
Definition maxpool2 : option shape := option_bind lrn2 (max_pooling2d_shape 2 2 1 1).
Definition conv3 : option shape := option_bind maxpool2 (conv2d_shape 384 3 3 2 2 VALID).
Definition conv4 : option shape := option_bind conv3 (conv2d_shape 384 3 3 1 1 SAME).
Definition conv5 : option shape := option_bind conv4 (conv2d_shape 256 3 3 1 1 SAME).
Definition conv5_reshaped : option shape := option_bind conv5 (reshape_shape [13 * 13 * 256]).
Definition dense1 : option shape := option_bind conv5_reshaped (dense_shape 4096).
Definition dense2 : option shape := option_bind dense1 (dense_shape 4096).
Definition softmax : option shape := option_bind dense2 (dense_shape 1000).

(** The shapes of the kernels the layers create. *)
Definition kernel_shapes : list (option (list nat)) :=
  [ conv2d_kernel_shape 96 11 11 (shape_of image_batch);
    option_bind maxpool1 (conv2d_kernel_shape 256 5 5);
    option_bind maxpool2 (conv2d_kernel_shape 384 3 3);
    option_bind conv3 (conv2d_kernel_shape 384 3 3);
    option_bind conv4 (conv2d_kernel_shape 256 3 3);
    option_bind conv5_reshaped (dense_kernel_shape 4096);
    option_bind dense1 (dense_kernel_shape 4096);
    option_bind dense2 (dense_kernel_shape 1000) ].

End AlexNetGraph.

(* ================================================================== *)
(** * The RNN notebook, run cell by cell *)
(* ================================================================== *)

Module Notebook.

Import Tensor Framework.
Local Open Scope R_scope.

(** [row[i] = a] on a row that has an index [i]. *)
Fixpoint set_nth {A : Type} (i : nat) (a : A) (l : list A) : list A :=
  match l, i with
  | [], _ => []
  | _ :: l', O => a :: l'
  | b :: l', S i' => b :: set_nth i' a l'
  end.

(** What the cells print: the lines [step: ... loss: ...] of a training
    cell, and the line [test loss: ...] of the cell after it. *)
Record printed : Type := Printed {
  training_lines : list (nat * R);
  test_loss : R
}.

Section Run.

Variable fw : framework.
Variable env : entropy.

Notation "x <- m ;; k" := (bind m (fun x => k))
  (at level 61, m at next level, right associativity).
Notation "m ;;; k" := (bind m (fun _ => k))
  (at level 61, right associativity).

(** Cell "Preparing the Data":
<<
    np.random.seed(1)
    SEQ_LENGTH = 10
    random_seq = np.random.normal(size=[1000, SEQ_LENGTH])
    for i in range(1, SEQ_LENGTH):
        random_seq[:, i] = random_seq[:, i-1]*1.1 + 0.3
    random_seq = random_seq.reshape(-1, SEQ_LENGTH, 1)
    train_seq = random_seq[:800,:,:]
    test_seq = random_seq[800:,:,:]
>> *)
Definition next_element (row : vec) (i : nat) : vec :=
  set_nth i (nth (i - 1) row 0 * 1.1 + 0.3) row.
Definition next_column (random_seq : mat) (i : nat) : mat :=
  map (fun row => next_element row i) random_seq.

Definition prepare_data : M fw (tensor3 * tensor3) :=
  np_random_seed fw 1 ;;;
  random_seq <- np_random_normal fw 1000 RNN.SEQ_LENGTH ;;
  let random_seq := fold_left next_column (seq 1 (RNN.SEQ_LENGTH - 1)) random_seq in
  let random_seq := reshape_to_3 RNN.SEQ_LENGTH 1 (flatten2 random_seq) in
  let train_seq := firstn 800 random_seq in
  let test_seq := skipn 800 random_seq in
  ret (train_seq, test_seq).

(** The cells of section "Basic RNN", from [tf.reset_default_graph()] to
    the test loss. *)
Definition basic_rnn (train_seq test_seq : tensor3) : M fw printed :=
  tf_reset_default_graph fw ;;;
  tf_set_random_seed fw 1 ;;;
  W_hx <- tf_get_variable fw [1; RNN.HIDDEN_DIM]%nat ;;
  W_hh <- tf_get_variable fw [RNN.HIDDEN_DIM; RNN.HIDDEN_DIM] ;;
  b_h <- tf_get_variable fw [RNN.HIDDEN_DIM] ;;
  W_yh <- tf_get_variable fw [RNN.HIDDEN_DIM; 1]%nat ;;
  b_y <- tf_get_variable fw [1]%nat ;;
  vars <- global_variables_initializer fw env [W_hx; W_hh; b_h; W_yh; b_y] ;;
  let loss := fun seq_input vars => RNN.loss (RNN.weights_of vars) seq_input in
  let trained :=
    training fw (RNN.train_step fw train_seq) (loss train_seq) (seq 1 100)
             (slots_init fw vars, vars) [] in
  let test_loss := loss test_seq (snd (fst trained)) in
  ret (Printed (snd trained) test_loss).

(** The cells of section "Long Short Term Memory", likewise. *)
Definition long_short_term_memory (train_seq test_seq : tensor3) : M fw printed :=
  tf_reset_default_graph fw ;;;
  tf_set_random_seed fw 1 ;;;
  W_gx <- tf_get_variable fw [1; LSTM.HIDDEN_DIM]%nat ;;
  W_gh <- tf_get_variable fw [LSTM.HIDDEN_DIM; LSTM.HIDDEN_DIM] ;;
  W_ix <- tf_get_variable fw [1; LSTM.HIDDEN_DIM]%nat ;;
  W_ih <- tf_get_variable fw [LSTM.HIDDEN_DIM; LSTM.HIDDEN_DIM] ;;
  W_fx <- tf_get_variable fw [1; LSTM.HIDDEN_DIM]%nat ;;
  W_fh <- tf_get_variable fw [LSTM.HIDDEN_DIM; LSTM.HIDDEN_DIM] ;;
  W_ox <- tf_get_variable fw [1; LSTM.HIDDEN_DIM]%nat ;;
  W_oh <- tf_get_variable fw [LSTM.HIDDEN_DIM; LSTM.HIDDEN_DIM] ;;
  b_g <- tf_get_variable fw [LSTM.HIDDEN_DIM] ;;
  b_i <- tf_get_variable fw [LSTM.HIDDEN_DIM] ;;
  b_f <- tf_get_variable fw [LSTM.HIDDEN_DIM] ;;
  b_o <- tf_get_variable fw [LSTM.HIDDEN_DIM] ;;
  W_yh <- tf_get_variable fw [LSTM.HIDDEN_DIM; 1]%nat ;;
  b_y <- tf_get_variable fw [1]%nat ;;
  vars <- global_variables_initializer fw env
            [W_gx; W_gh; W_ix; W_ih; W_fx; W_fh; W_ox; W_oh; b_g; b_i; b_f; b_o; W_yh; b_y] ;;
  let loss := fun seq_input vars => LSTM.loss (LSTM.weights_of vars) seq_input in
  let trained :=
    training fw (LSTM.train_step fw train_seq) (loss train_seq) (seq 1 100)
             (slots_init fw vars, vars) [] in
  let test_loss := loss test_seq (snd (fst trained)) in
  ret (Printed (snd trained) test_loss).

(** The notebook from its first cell to its last, and what it prints in a
    world whose entropy is [env]. *)
Definition notebook : M fw (printed * printed) :=
  data <- prepare_data ;;
  rnn <- basic_rnn (fst data) (snd data) ;;
  lstm <- long_short_term_memory (fst data) (snd data) ;;
  ret (rnn, lstm).

Definition run : printed * printed := fst (notebook (after_imports fw env)).

End Run.

End Notebook.

(* ================================================================== *)
(** * Concrete inputs *)
(* ================================================================== *)

Module Examples.

Import Tensor.
Local Open Scope R_scope.

(** A batch of one sequence of ten zeros. *)
Definition zero_sequence : tensor3 := [repeat [0] 10].

(** RNN weights of the declared shapes, all zero. *)
Definition rnn_zero_weights : RNN.weights :=
  RNN.Weights [[0; 0; 0; 0]] (zeros 4 4) [0; 0; 0; 0] [[0]; [0]; [0]; [0]] [0].

(** LSTM weights of the declared shapes, all zero but for the bias [b_f]
    of the forget gate, which is one. *)
Definition lstm_weights_b_f_one : LSTM.weights :=
  LSTM.Weights [[0; 0; 0; 0]] (zeros 4 4) [[0; 0; 0; 0]] (zeros 4 4)
               [[0; 0; 0; 0]] (zeros 4 4) [[0; 0; 0; 0]] (zeros 4 4)
               [0; 0; 0; 0] [0; 0; 0; 0] [1; 1; 1; 1] [0; 0; 0; 0]
               [[0]; [0]; [0]; [0]] [0].

Definition lstm_zero_weights : LSTM.weights :=
  LSTM.with_forget_gate lstm_weights_b_f_one [[0; 0; 0; 0]] (zeros 4 4) [0; 0; 0; 0].

(** Two batches of one sequence each, [0, 1, ..., 8] followed by [9] in
    the one and by [100] in the other. *)
Definition counting_sequence (last : R) : tensor3 :=
  [[[0]; [1]; [2]; [3]; [4]; [5]; [6]; [7]; [8]; [last]]].

(** A batch of one black image of 224 x 224 pixels of three channels. *)
Definition black_image : AlexNet.batch := [repeat (repeat [0; 0; 0] 224) 224].

(** The scores of a batch of two images over the 1000 classes: all zero
    for the first image, all one for the second. *)
Definition two_image_scores : mat := [repeat 0 1000; repeat 1 1000].

(** Variables of the last layer of AlexNet in their declared shapes, all
    zero, as far as the layer named ['softmax'] reads them. *)
Definition zero_softmax_layer : AlexNet.variables :=
  AlexNet.Variables [] [] [] [] [] [] [] [] [] [] [] [] [] []
                    (zeros 4096 1000) (repeat 0 1000).

(** A stand-in for the libraries, for closed examples: its generators count
    up from their seed, its gradient is that of a constant loss, and both of
    its optimizers do plain gradient descent. *)
Definition counting_framework : Framework.framework :=
  Framework.Framework
    Z
    (fun seed => seed)
    (fun g k => (map (fun d => IZR (g + Z.of_nat d)) (seq 0 k), (g + Z.of_nat k)%Z))
    (fun seeds shape => repeat (IZR (fst seeds + snd seeds)) (fold_right Nat.mul 1%nat shape))
    (fun _ vars => map (map (fun _ => 0)) vars)
    unit
    (fun _ => tt)
    (fun lr _ gvs => (tt, map (fun gv => zipWith (fun g x => x - lr * g) (fst gv) (snd gv)) gvs))
    (fun lr _ _ gvs => (tt, map (fun gv => zipWith (fun g x => x - lr * g) (fst gv) (snd gv)) gvs)).

(** The values of the sixteen trainable variables of AlexNet when the
    biases have just been initialized, to zero or to one as the layers ask,
    the kernels being left at zero. *)
Definition alexnet_initial_biases : Framework.variables :=
  [repeat 0 (11 * 11 * 3 * 96)%nat; repeat 0 96;
   repeat 0 (5 * 5 * 96 * 256)%nat; repeat 1 256;
   repeat 0 (3 * 3 * 256 * 384)%nat; repeat 0 384;
   repeat 0 (3 * 3 * 384 * 384)%nat; repeat 1 384;
   repeat 0 (3 * 3 * 384 * 256)%nat; repeat 1 256;
   repeat 0 (13 * 13 * 256 * 4096)%nat; repeat 0 4096;
   repeat 0 (4096 * 4096)%nat; repeat 0 4096;
   repeat 0 (4096 * 1000)%nat; repeat 0 1000].

End Examples.

(* ================================================================== *)
(** * Facts about tensors *)
(* ================================================================== *)

Section TensorFacts.

Import Tensor.
Local Open Scope R_scope.

Lemma zipWith_length {A B C : Type} (f : A -> B -> C) u v :
  length (zipWith f u v) = Nat.min (length u) (length v).
Proof. unfold zipWith. now rewrite length_map, length_combine. Qed.

Lemma zipWith_map_same {A B C D : Type} (f : B -> C -> D) (p : A -> B) (q : A -> C) l :
  zipWith f (map p l) (map q l) = map (fun a => f (p a) (q a)) l.
Proof.
  unfold zipWith. induction l as [|a l IH]; simpl; [reflexivity|].
  now rewrite IH.
Qed.

Lemma zipWith_comm {A C : Type} (f : A -> A -> C) :
  (forall a b, f a b = f b a) -> forall u v, zipWith f u v = zipWith f v u.
Proof.
  intros Hf. unfold zipWith.
  induction u as [|a u IH]; destruct v as [|b v]; simpl; try reflexivity.
  now rewrite Hf, IH.
Qed.

Lemma vadd_assoc u v t : vadd (vadd u v) t = vadd u (vadd v t).
Proof.
  unfold vadd, zipWith. revert v t.
  induction u as [|a u IH]; intros [|b v] [|c t]; simpl; try reflexivity.
  now rewrite IH, Rplus_assoc.
Qed.

Lemma dot_comm u v : dot u v = dot v u.
Proof. unfold dot, vmul. f_equal. apply zipWith_comm. intros; apply Rmult_comm. Qed.

(** The row-vector product with a matrix is the column-vector product with
    its transpose. *)
Lemma matvec_transpose W x : matvec (transpose W) x = vecmat x W.
Proof. unfold matvec, vecmat. apply map_ext. intros c. apply dot_comm. Qed.

Lemma repeat_as_map {A B : Type} (c : B) (l : list A) :
  repeat c (length l) = map (fun _ => c) l.
Proof. induction l; simpl; congruence. Qed.

Lemma map_nth_seq {A B : Type} (F : A -> B) (d : A) (l : list A) :
  map (fun b => F (nth b l d)) (seq 0 (length l)) = map F l.
Proof.
  rewrite <- (map_map (fun b => nth b l d) F). f_equal.
  induction l as [|a l IH] using rev_ind; [reflexivity|].
  rewrite length_app. cbn [length]. rewrite Nat.add_1_r, seq_S, map_app.
  cbn [map Nat.add]. rewrite app_nth2, Nat.sub_diag by lia. cbn [nth]. f_equal.
  rewrite <- IH at 2. apply map_ext_in. intros b Hb. apply in_seq in Hb.
  apply app_nth1. lia.
Qed.

(** Stacking along axis 1 the matrices [map (F k) x], one per [k], yields for
    every element of [x], in order, the list of its [F k]. *)
Lemma stack_axis1_map {A : Type} (F : nat -> A -> vec) (x : list A) k ks :
  stack_axis1 (map (fun t => map (F t) x) (k :: ks))
  = map (fun s => map (fun t => F t s) (k :: ks)) x.
Proof.
  unfold stack_axis1.
  replace (length (hd [] (map (fun t => map (F t) x) (k :: ks)))) with (length x)
    by (cbn [map hd]; now rewrite length_map).
  destruct x as [|s0 x0]; [reflexivity|]. set (x := s0 :: x0).
  rewrite <- (map_nth_seq (fun s => map (fun t => F t s) (k :: ks)) s0 x).
  apply map_ext_in. intros b Hb. apply in_seq in Hb.
  rewrite map_map. apply map_ext. intros t.
  rewrite (nth_indep _ [] (F t s0)) by (rewrite length_map; lia).
  apply map_nth.
Qed.

End TensorFacts.

(* ================================================================== *)
(** * Reshapes *)
(* ================================================================== *)

Section ReshapeFacts.

Import Tensor.
Local Open Scope R_scope.

Lemma chunk_fuel_concat {A : Type} (k : nat) (ls : list (list A)) :
  (0 < k)%nat -> Forall (fun l => length l = k) ls ->
  forall fuel, (length ls <= fuel)%nat -> chunk_fuel fuel k (concat ls) = ls.
Proof.
  intros Hk Hls. induction Hls as [|l ls Hl _ IH]; intros fuel Hfuel.
  - destruct fuel; reflexivity.
  - destruct fuel as [|fuel]; [cbn in Hfuel; lia|].
    cbn [concat]. destruct l as [|a l]; [cbn in Hl; lia|].
    cbn [chunk_fuel app].
    change (a :: l ++ concat ls) with ((a :: l) ++ concat ls).
    rewrite firstn_app, skipn_app, Hl, Nat.sub_diag.
    rewrite <- Hl at 1 3. rewrite firstn_all, skipn_all.
    cbn [firstn skipn app]. rewrite app_nil_r. f_equal.
    apply IH. cbn in Hfuel. lia.
Qed.

Lemma length_concat_uniform {A : Type} (k : nat) (ls : list (list A)) :
  Forall (fun l => length l = k) ls -> length (concat ls) = (length ls * k)%nat.
Proof.
  induction 1 as [|l ls Hl _ IH]; [reflexivity|].
  cbn [concat length]. rewrite length_app, IH, Hl. lia.
Qed.

(** Cutting the concatenation of lists of one length [k > 0] into pieces of
    length [k] gives the lists back. *)
Lemma chunk_concat {A : Type} (k : nat) (ls : list (list A)) :
  (0 < k)%nat -> Forall (fun l => length l = k) ls -> chunk k (concat ls) = ls.
Proof.
  intros Hk Hls. unfold chunk. apply chunk_fuel_concat; trivial.
  rewrite (length_concat_uniform k ls Hls). nia.
Qed.

Lemma has_shape2_spec r c (M : mat) :
  has_shape2 r c M = true <-> length M = r /\ Forall (fun row => length row = c) M.
Proof.
  unfold has_shape2. rewrite andb_true_iff, Nat.eqb_eq, forallb_forall, Forall_forall.
  split; intros [H1 H2]; split; trivial; intros x Hx; apply Nat.eqb_eq; auto.
Qed.

Lemma has_shape3_spec a r c (T : tensor3) :
  has_shape3 a r c T = true <-> length T = a /\ Forall (fun M => has_shape2 r c M = true) T.
Proof.
  unfold has_shape3. rewrite andb_true_iff, Nat.eqb_eq, forallb_forall, Forall_forall.
  reflexivity.
Qed.

Lemma has_shape2_map {A : Type} (F : A -> vec) c (l : list A) :
  (forall a, In a l -> length (F a) = c) -> has_shape2 (length l) c (map F l) = true.
Proof.
  intros H. apply has_shape2_spec. rewrite length_map. split; [reflexivity|].
  apply Forall_forall. intros row Hrow. apply in_map_iff in Hrow as (a & <- & Ha). auto.
Qed.

Lemma has_shape3_map {A : Type} (F : A -> mat) r c (l : list A) :
  (forall a, In a l -> has_shape2 r c (F a) = true) ->
  has_shape3 (length l) r c (map F l) = true.
Proof.
  intros H. apply has_shape3_spec. rewrite length_map. split; [reflexivity|].
  apply Forall_forall. intros M HM. apply in_map_iff in HM as (a & <- & Ha). auto.
Qed.

Lemma concat_map_map {A B : Type} (F : A -> B) (ls : list (list A)) :
  concat (map (map F) ls) = map F (concat ls).
Proof. now rewrite concat_map. Qed.

(** The number of elements of a tensor of a given shape. *)
Lemma flatten2_length r c (M : mat) :
  has_shape2 r c M = true -> length (flatten2 M) = (r * c)%nat.
Proof.
  intros [<- H]%has_shape2_spec. unfold flatten2. now apply length_concat_uniform.
Qed.

Lemma flatten3_length a r c (T : tensor3) :
  has_shape3 a r c T = true -> length (flatten3 T) = (a * r * c)%nat.
Proof.
  intros [<- H]%has_shape3_spec. unfold flatten3.
  rewrite (length_concat_uniform c).
  - f_equal. apply length_concat_uniform.
    eapply Forall_impl; [|exact H]. intros M [HM _]%has_shape2_spec. exact HM.
  - apply Forall_concat. eapply Forall_impl; [|exact H].
    intros M [_ HM]%has_shape2_spec. exact HM.
Qed.

(** [tf.reshape(T, [-1, c])] of a tensor of shape [[a, r, c]] puts the [a * r]
    vectors of [T] one under the other. *)
Lemma reshape_to_2_flatten3 a r c (T : tensor3) :
  (0 < c)%nat -> has_shape3 a r c T = true ->
  reshape_to_2 c (flatten3 T) = concat T.
Proof.
  intros Hc [_ H]%has_shape3_spec. unfold reshape_to_2, flatten3.
  apply chunk_concat; trivial. apply Forall_concat.
  eapply Forall_impl; [|exact H]. intros M [_ HM]%has_shape2_spec. exact HM.
Qed.

(** [tf.reshape(M, [-1, r, c])] of the rows [map F (concat T)], each of [c]
    entries, for [T] made of lists of [r] elements, is [T] with [F] applied
    to every element. *)
Lemma reshape_to_3_rows {A : Type} (F : A -> vec) r c (T : list (list A)) :
  (0 < r)%nat -> (0 < c)%nat ->
  Forall (fun s => length s = r) T ->
  (forall a, In a (concat T) -> length (F a) = c) ->
  reshape_to_3 r c (flatten2 (map F (concat T))) = map (map F) T.
Proof.
  intros Hr Hc HT HF. unfold reshape_to_3, flatten2.
  rewrite chunk_concat; trivial.
  - rewrite <- concat_map_map. apply chunk_concat; trivial.
    apply Forall_forall. intros s Hs. apply in_map_iff in Hs as (s0 & <- & Hs0).
    rewrite length_map. rewrite Forall_forall in HT. auto.
  - apply Forall_forall. intros row Hrow. apply in_map_iff in Hrow as (a & <- & Ha). auto.
Qed.

End ReshapeFacts.

(* ================================================================== *)
(** * Shapes of the recurrent graphs, and their output layer *)
(* ================================================================== *)

Section RecurrentShapes.

Import Tensor.
Local Open Scope R_scope.

Lemma nth_map_lt {A B : Type} (f : A -> B) (l : list A) i d d' :
  (i < length l)%nat -> nth i (map f l) d = f (nth i l d').
Proof.
  intros Hi. rewrite (nth_indep _ d (f d')) by now rewrite length_map.
  apply map_nth.
Qed.

Lemma ncols_of_shape r c (M : mat) :
  has_shape2 (S r) c M = true -> ncols M = c.
Proof.
  intros [HL HF]%has_shape2_spec. unfold ncols.
  destruct M as [|row M]; [discriminate|]. now inversion HF.
Qed.

Lemma vecmat_length x (W : mat) : length (vecmat x W) = ncols W.
Proof. unfold vecmat, transpose. now rewrite !length_map, length_seq. Qed.

Lemma vadd_length u v : length (vadd u v) = Nat.min (length u) (length v).
Proof. apply zipWith_length. Qed.

Lemma vmul_length u v : length (vmul u v) = Nat.min (length u) (length v).
Proof. apply zipWith_length. Qed.

Lemma has_shape2_zipWith (f : vec -> vec -> vec) n c (X Y : mat) :
  (forall u v, length u = c -> length v = c -> length (f u v) = c) ->
  has_shape2 n c X = true -> has_shape2 n c Y = true ->
  has_shape2 n c (zipWith f X Y) = true.
Proof.
  intros Hf [HX FX]%has_shape2_spec [HY FY]%has_shape2_spec.
  apply has_shape2_spec. split.
  - rewrite zipWith_length. lia.
  - clear HX HY. revert Y FY. unfold zipWith.
    induction FX as [|u X Hu _ IH]; intros Y FY; [constructor|].
    destruct FY as [|v Y Hv FY]; cbn; constructor; auto.
Qed.

Lemma has_shape2_madd n c X Y :
  has_shape2 n c X = true -> has_shape2 n c Y = true -> has_shape2 n c (madd X Y) = true.
Proof.
  apply has_shape2_zipWith. intros u v Hu Hv. rewrite vadd_length. lia.
Qed.

Lemma has_shape2_mmul n c X Y :
  has_shape2 n c X = true -> has_shape2 n c Y = true -> has_shape2 n c (mmul X Y) = true.
Proof.
  apply has_shape2_zipWith. intros u v Hu Hv. rewrite vmul_length. lia.
Qed.

Lemma has_shape2_mmap f n c X :
  has_shape2 n c X = true -> has_shape2 n c (mmap f X) = true.
Proof.
  intros [HX FX]%has_shape2_spec. apply has_shape2_spec. unfold mmap.
  rewrite length_map. split; trivial.
  apply Forall_map. eapply Forall_impl; [|exact FX].
  intros row Hrow. now rewrite length_map.
Qed.

Lemma has_shape2_matmul c (X W : mat) :
  ncols W = c -> has_shape2 (length X) c (matmul X W) = true.
Proof. intros <-. apply has_shape2_map. intros. apply vecmat_length. Qed.

Lemma has_shape2_xw_plus_b c (X W : mat) b :
  ncols W = c -> length b = c -> has_shape2 (length X) c (xw_plus_b X W b) = true.
Proof.
  intros HW Hb. unfold xw_plus_b, matmul. rewrite map_map.
  apply has_shape2_map. intros. rewrite vadd_length, vecmat_length. lia.
Qed.

Lemma has_shape2_zeros n c : has_shape2 n c (zeros n c) = true.
Proof.
  apply has_shape2_spec. unfold zeros. rewrite repeat_length. split; trivial.
  apply Forall_forall. intros row ->%repeat_spec. apply repeat_length.
Qed.

Lemma slice_axis1_length dim j (t : tensor3) : length (slice_axis1 dim j t) = length t.
Proof. apply length_map. Qed.

(** A gate of the recurrent graphs has one row of [c] entries per
    sequence of the batch. *)
Lemma has_shape2_gate act c (Wx Wh : mat) b (x_j hidden : mat) :
  ncols Wx = c -> ncols Wh = c -> length b = c -> length hidden = length x_j ->
  has_shape2 (length x_j) c (LSTM.gate act Wx Wh b x_j hidden) = true.
Proof.
  intros HWx HWh Hb Hh. unfold LSTM.gate.
  apply has_shape2_mmap, has_shape2_madd.
  - now apply has_shape2_matmul.
  - rewrite <- Hh. now apply has_shape2_xw_plus_b.
Qed.

(** Stacking along axis 1 matrices of one shape [[n, c]]. *)
Lemma stack_axis1_rows n c (H : mat) (Hs : list mat) :
  Forall (fun M => has_shape2 n c M = true) (H :: Hs) ->
  stack_axis1 (H :: Hs) = map (fun b => map (fun M => nth b M []) (H :: Hs)) (seq 0 n)
  /\ has_shape3 n (S (length Hs)) c (stack_axis1 (H :: Hs)) = true.
Proof.
  intros HF. assert (Hn : length H = n).
  { inversion HF as [|? ? HH _]. now apply has_shape2_spec in HH. }
  unfold stack_axis1. cbn [hd]. rewrite Hn. split; [reflexivity|].
  replace n with (length (seq 0 n)) at 1 by apply length_seq.
  apply has_shape3_map. intros b Hb%in_seq.
  change (S (length Hs)) with (length (H :: Hs)).
  apply has_shape2_map. intros M HM.
  rewrite Forall_forall in HF. apply HF in HM. apply has_shape2_spec in HM as [HM1 HM2].
  rewrite Forall_forall in HM2. apply HM2, nth_In. unfold mat, vec in *. lia.
Qed.

(** The last time step of every sequence of a stack of nine matrices of one
    shape is the ninth matrix. *)
Lemma stack_axis1_last (F : vec -> vec) n c (Hs : list mat) :
  length Hs = 9%nat -> Forall (fun M => has_shape2 n c M = true) Hs ->
  map (fun s => nth 8 s []) (map (map F) (stack_axis1 Hs)) = map F (nth 8 Hs []).
Proof.
  intros HL HF. destruct Hs as [|H Hs]; [discriminate|].
  destruct (stack_axis1_rows n c H Hs HF) as [-> _].
  rewrite !map_map.
  assert (H8 : has_shape2 n c (nth 8 (H :: Hs) []) = true).
  { rewrite Forall_forall in HF. apply HF, nth_In. unfold mat, vec in *. lia. }
  apply has_shape2_spec in H8 as [H8 _]. rewrite <- H8.
  rewrite <- (map_nth_seq F [] (nth 8 (H :: Hs) [])).
  apply map_ext. intros b. rewrite map_map.
  apply (nth_map_lt (fun M : mat => F (nth b M [])) (H :: Hs) 8 [] []).
  unfold mat, vec in *. lia.
Qed.

(** The output layer of either recurrent graph on a tensor of hidden states
    of shape [[n, 9, 4]]: nothing but [W_yh] and [b_y] applied to every
    hidden state, the two reshapes undoing each other. *)
Lemma outputs_as_readouts (W_yh : mat) (b_y : vec) n (T : tensor3) :
  has_shape2 4 1 W_yh = true -> length b_y = 1%nat -> has_shape3 n 9 4 T = true ->
  reshape_to_3 9 1 (flatten2 (xw_plus_b (reshape_to_2 4 (flatten3 T)) W_yh b_y))
  = map (map (fun h => vadd (vecmat h W_yh) b_y)) T.
Proof.
  intros HW Hb HT.
  rewrite (reshape_to_2_flatten3 n 9 4 T) by (trivial; lia).
  unfold xw_plus_b, matmul. rewrite map_map.
  apply (reshape_to_3_rows (fun h => vadd (vecmat h W_yh) b_y)); try lia.
  - apply has_shape3_spec in HT as [_ HT]. eapply Forall_impl; [|exact HT].
    intros M [HM _]%has_shape2_spec. exact HM.
  - intros h _. rewrite vadd_length, vecmat_length, (ncols_of_shape _ _ _ HW), Hb. reflexivity.
Qed.

(** The shapes at the two reshapes of the output layer, for hidden states
    [T] of shape [[n, 9, 4]] and an output tensor that is the output layer
    [F] applied to every hidden state. *)
Lemma recurrent_output_shapes (F : vec -> vec) (W_yh : mat) (b_y : vec) n
                              (T outputs : tensor3) :
  (forall h, F h = vadd (vecmat h W_yh) b_y) ->
  has_shape2 4 1 W_yh = true -> length b_y = 1%nat ->
  has_shape3 n 9 4 T = true -> outputs = map (map F) T ->
  has_shape3 n 9 4 T = true
  /\ has_shape2 (n * 9) 4 (reshape_to_2 4 (flatten3 T)) = true
  /\ flatten2 (reshape_to_2 4 (flatten3 T)) = flatten3 T
  /\ has_shape3 n 9 1 outputs = true
  /\ flatten3 outputs = flatten2 (xw_plus_b (reshape_to_2 4 (flatten3 T)) W_yh b_y).
Proof.
  intros HF HW Hb HT ->.
  pose proof (reshape_to_2_flatten3 n 9 4 T ltac:(lia) HT) as E2.
  pose proof HT as [HL HM]%has_shape3_spec.
  split; [exact HT|]. rewrite E2. split; [|split; [reflexivity|split]].
  - apply has_shape2_spec. split.
    + rewrite <- HL. apply length_concat_uniform. eapply Forall_impl; [|exact HM].
      intros M [H _]%has_shape2_spec. exact H.
    + apply Forall_concat. eapply Forall_impl; [|exact HM].
      intros M [_ H]%has_shape2_spec. exact H.
  - rewrite <- HL. apply has_shape3_map. intros M HMin.
    rewrite Forall_forall in HM. apply HM, has_shape2_spec in HMin as [<- _].
    apply has_shape2_map. intros h _.
    rewrite HF, vadd_length, vecmat_length, (ncols_of_shape _ _ _ HW), Hb. reflexivity.
  - unfold flatten3, flatten2, xw_plus_b, matmul.
    rewrite concat_map_map, map_map. f_equal. apply map_ext. intros h. apply HF.
Qed.

End RecurrentShapes.

(* ================================================================== *)
(** * The vanilla RNN computes the recurrence of the text *)
(* ================================================================== *)

Section RNNFacts.

Import Tensor RNN.
Local Open Scope R_scope.

Lemma index_of_nat dim j : index dim (Z.of_nat j) = j.
Proof.
  unfold index. destruct (Z.ltb_spec (Z.of_nat j) 0); [lia|]. apply Nat2Z.id.
Qed.

Lemma slice_axis1_nat dim j (t : tensor3) :
  slice_axis1 dim (Z.of_nat j) t = map (fun s => nth j s []) t.
Proof. unfold slice_axis1. now rewrite index_of_nat. Qed.

(** One pass of the loop takes the batch of the [t]-th hidden states of the
    text to the batch of the [t+1]-st ones. *)
Lemma rnn_body_textbook w (x : tensor3) t :
  rnn_body w x (map (fun s => h_textbook w s t) x) t
  = map (fun s => h_textbook w s (S t)) x.
Proof.
  unfold rnn_body, xw_plus_b, matmul, madd, mmap.
  rewrite slice_axis1_nat, !map_map, zipWith_map_same, map_map.
  apply map_ext. intros s. cbn [h_textbook].
  now rewrite !matvec_transpose, vadd_assoc.
Qed.

Lemma rnn_loop_textbook w (x : tensor3) n : forall t0 acc,
  rnn_loop w x (seq t0 n) (map (fun s => h_textbook w s t0) x) acc
  = (map (fun s => h_textbook w s (t0 + n)) x,
     acc ++ map (fun t => map (fun s => h_textbook w s t) x) (seq (S t0) n)).
Proof.
  induction n as [|n IH]; intros t0 acc; cbn [seq rnn_loop map].
  - now rewrite Nat.add_0_r, app_nil_r.
  - rewrite rnn_body_textbook, IH, <- app_assoc. cbn [app].
    now rewrite Nat.add_succ_comm.
Qed.

Lemma hidden_0_textbook w (x : tensor3) :
  hidden_0 x = map (fun s => h_textbook w s 0) x.
Proof. unfold hidden_0, zeros. apply repeat_as_map. Qed.

Lemma hiddens_list_textbook w (x : tensor3) :
  hiddens_list w x
  = map (fun t => map (fun s => h_textbook w s t) x) (seq 1 (SEQ_LENGTH - 1)).
Proof.
  unfold hiddens_list. now rewrite (hidden_0_textbook w), rnn_loop_textbook.
Qed.

(** The stacked tensor [hiddens] holds, for each sequence of the batch in
    order, the hidden states of the recurrence of the text in time order. *)
Lemma hiddens_textbook w (x : tensor3) :
  hiddens w x = map (fun s => map (fun t => h_textbook w s t) (seq 1 9)) x.
Proof.
  unfold hiddens. rewrite hiddens_list_textbook.
  exact (stack_axis1_map (fun t s => h_textbook w s t) x 1 (seq 2 8)).
Qed.

End RNNFacts.

(* ================================================================== *)
(** * The vanilla RNN: shapes, output layer and inputs consumed *)
(* ================================================================== *)

Section RNNShapes.

Import Tensor RNN.
Local Open Scope R_scope.

Lemma rnn_well_shaped w :
  well_shaped w = true ->
  ncols (W_hx w) = 4%nat /\ ncols (W_hh w) = 4%nat /\ length (b_h w) = 4%nat
  /\ has_shape2 4 1 (W_yh w) = true /\ length (b_y w) = 1%nat.
Proof.
  unfold well_shaped, HIDDEN_DIM. rewrite !andb_true_iff, !Nat.eqb_eq.
  intros [[[[H1 H2] H3] H4] H5]. repeat split; trivial.
  - exact (ncols_of_shape _ _ _ H1).
  - exact (ncols_of_shape _ _ _ H2).
Qed.

Lemma matvec_length (M : mat) x : length (matvec M x) = length M.
Proof. apply length_map. Qed.

Lemma transpose_length (W : mat) : length (transpose W) = ncols W.
Proof. unfold transpose. now rewrite length_map, length_seq. Qed.

Lemma h_textbook_length w s t :
  well_shaped w = true -> length (h_textbook w s t) = 4%nat.
Proof.
  intros (H1 & H2 & H3 & _)%rnn_well_shaped.
  destruct t as [|t]; cbn [h_textbook]; [apply repeat_length|].
  rewrite length_map, !vadd_length, !matvec_length, !transpose_length. lia.
Qed.

Lemma rnn_hiddens_shape w (x : tensor3) :
  well_shaped w = true -> has_shape3 (length x) 9 4 (hiddens w x) = true.
Proof.
  intros Hw. rewrite hiddens_textbook.
  apply has_shape3_map. intros s _.
  change 9%nat with (length (seq 1 9)) at 1.
  apply has_shape2_map. intros t _. now apply h_textbook_length.
Qed.

(** The tensor [outputs] is the output layer applied to every hidden state. *)
Lemma rnn_outputs_readout w (x : tensor3) :
  well_shaped w = true -> outputs w x = map (map (readout w)) (hiddens w x).
Proof.
  intros Hw. pose proof (rnn_hiddens_shape w x Hw) as HT.
  apply rnn_well_shaped in Hw as (_ & _ & _ & H4 & H5).
  unfold outputs, outputs_of. cbv zeta.
  exact (outputs_as_readouts (W_yh w) (b_y w) (length x) (hiddens w x) H4 H5 HT).
Qed.

(** The tensor [predict] is the output layer applied to the ninth hidden
    state of every sequence. *)
Lemma rnn_predict_readout w (x : tensor3) :
  well_shaped w = true ->
  predict w x = map (fun s => readout w (h_textbook w s 9)) x.
Proof.
  intros Hw. unfold predict, predict_of. rewrite (rnn_outputs_readout w x Hw).
  rewrite hiddens_textbook.
  unfold slice_axis1. rewrite !map_map. apply map_ext. intros s.
  reflexivity.
Qed.

Lemma nth_firstn_lt {A : Type} (l : list A) j k d :
  (j < k)%nat -> nth j (firstn k l) d = nth j l d.
Proof.
  revert j k. induction l as [|a l IH]; intros j k Hjk.
  - now rewrite firstn_nil.
  - destruct k as [|k]; [lia|]. destruct j as [|j]; cbn; [reflexivity|].
    apply IH. lia.
Qed.

(** Two batches that agree on the first [k] elements of every sequence
    have the same slices [[:, j, :]] for [j < k], and the same size. *)
Lemma slice_agree k dim (x x' : tensor3) j :
  map (firstn k) x = map (firstn k) x' -> (j < k)%nat ->
  slice_axis1 dim (Z.of_nat j) x = slice_axis1 dim (Z.of_nat j) x'.
Proof.
  intros E Hj. rewrite !slice_axis1_nat.
  transitivity (map (fun s => nth j s []) (map (firstn k) x)).
  - rewrite map_map. apply map_ext. intros s. symmetry. now apply nth_firstn_lt.
  - rewrite E, map_map. apply map_ext. intros s. now apply nth_firstn_lt.
Qed.

Lemma length_agree {A : Type} k (x x' : list (list A)) :
  map (firstn k) x = map (firstn k) x' -> length x = length x'.
Proof. intros E. apply (f_equal (@length _)) in E. now rewrite !length_map in E. Qed.

Lemma rnn_loop_agree w (x x' : tensor3) js :
  map (firstn 9) x = map (firstn 9) x' -> Forall (fun j => (j < 9)%nat) js ->
  forall hidden acc, rnn_loop w x js hidden acc = rnn_loop w x' js hidden acc.
Proof.
  intros E Hjs. induction Hjs as [|j js Hj _ IH]; intros hidden acc; [reflexivity|].
  cbn [rnn_loop]. unfold rnn_body. rewrite (slice_agree 9 SEQ_LENGTH x x' j E Hj). apply IH.
Qed.

Lemma below_seq n : Forall (fun j => (j < n)%nat) (seq 0 n).
Proof. apply Forall_forall. intros j Hj%in_seq. lia. Qed.

(** The hidden states, hence the outputs and the prediction, are the same
    for two batches that agree on [x_0 .. x_8]. *)
Lemma rnn_hiddens_agree w (x x' : tensor3) :
  map (firstn 9) x = map (firstn 9) x' -> hiddens w x = hiddens w x'.
Proof.
  intros E. unfold hiddens, hiddens_list, hidden_0.
  assert (EL : length x = length x') by apply (length_agree 9 x x' E).
  rewrite EL. f_equal. f_equal.
  apply rnn_loop_agree; trivial. apply (below_seq 9).
Qed.

End RNNShapes.

(* ================================================================== *)
(** * The LSTM loop and the gate equations of the text *)
(* ================================================================== *)

Section LSTMFacts.

Import Tensor LSTM.
Local Open Scope R_scope.

(** Equality of two tensors written out entry by entry. *)
Ltac entrywise :=
  repeat match goal with
         | |- _ :: _ = _ :: _ => apply (f_equal2 (@cons _))
         | |- [] = [] => reflexivity
         end.

Lemma sigmoid_0 : sigmoid 0 = 1 / 2.
Proof. unfold sigmoid. rewrite Ropp_0, exp_0. lra. Qed.

Lemma tanh_0 : tanh 0 = 0.
Proof. unfold tanh, Rtrigo_def.tanh. rewrite sinh_0. lra. Qed.

Lemma sigmoid_1_above_half : 1 / 2 < sigmoid 1.
Proof.
  unfold sigmoid.
  assert (H0 : 0 < exp (Ropp 1)) by apply exp_pos.
  assert (H1 : exp (Ropp 1) < exp 0) by (apply exp_increasing; lra).
  rewrite exp_0 in H1.
  set (e := exp (Ropp 1)) in *.
  apply Rmult_lt_reg_r with (1 + e); [lra|].
  replace (1 / (1 + e) * (1 + e)) with 1 by (field; lra). lra.
Qed.

Lemma lstm_loop_app w x js : forall s h acc,
  lstm_loop w x js s h acc = acc ++ lstm_loop w x js s h [].
Proof.
  induction js as [|j js IH]; intros s h acc; cbn [lstm_loop].
  - now rewrite app_nil_r.
  - rewrite IH. rewrite (IH _ _ ([] ++ _)). now rewrite app_assoc.
Qed.

(** The first pass of the loop binds the first element of [cells]. *)
Lemma cells_first w x :
  nth 0 (cells w x) (Cell [] [] [] [] [] [])
  = lstm_body w x (state_0 x) (hidden_0 x) 0.
Proof.
  unfold cells. change (seq 0 (SEQ_LENGTH - 1)) with (0%nat :: seq 1 8).
  cbn [lstm_loop]. rewrite lstm_loop_app. reflexivity.
Qed.

(** What one pass binds: [g], [i] and [o] follow the equations of the text,
    the new state and hidden state too, but the tensor named ['f'] is the
    sigmoid of the tensor named ['g'], whatever the weights of the forget
    gate are. *)
Lemma lstm_body_binds w x s h j :
  let x_j := slice_axis1 SEQ_LENGTH (Z.of_nat j) x in
  let c := lstm_body w x s h j in
  g c = g_textbook w x_j h
  /\ i c = i_textbook w x_j h
  /\ o c = o_textbook w x_j h
  /\ f c = mmap sigmoid (g c)
  /\ state c = madd (mmul (g c) (i c)) (mmul (f c) s)
  /\ hidden c = mmul (o c) (mmap tanh (state c)).
Proof. cbv zeta. repeat split. Qed.

(** C1, at the batch of one sequence of zeros and zero weights but for
    [b_f = 1]: at the first time step the text's forget gate is
    [sigmoid(W_fx x + W_fh h + b_f) = sigmoid(1)] in each of the four
    dimensions, and the tensor ['f'] the loop binds is
    [sigmoid(g) = sigmoid(tanh(0)) = 1/2]. *)
Theorem lstm_forget_gate_ignores_its_weights :
  let x := Examples.zero_sequence in
  let w := Examples.lstm_weights_b_f_one in
  let c := nth 0 (cells w x) (Cell [] [] [] [] [] []) in
  f c = [[1 / 2; 1 / 2; 1 / 2; 1 / 2]]
  /\ f_textbook w (slice_axis1 SEQ_LENGTH 0 x) (hidden_0 x)
     = [[sigmoid 1; sigmoid 1; sigmoid 1; sigmoid 1]]
  /\ f c <> f_textbook w (slice_axis1 SEQ_LENGTH 0 x) (hidden_0 x).
Proof.
  cbv zeta. rewrite cells_first.
  assert (Ef : f (lstm_body Examples.lstm_weights_b_f_one Examples.zero_sequence
                     (state_0 Examples.zero_sequence) (hidden_0 Examples.zero_sequence) 0)
               = [[1 / 2; 1 / 2; 1 / 2; 1 / 2]]).
  { cbn. entrywise.
    all: match goal with
         | |- sigmoid (tanh ?e) = _ => replace e with 0 by lra
         end; now rewrite tanh_0, sigmoid_0. }
  assert (Et : f_textbook Examples.lstm_weights_b_f_one
                 (slice_axis1 SEQ_LENGTH 0 Examples.zero_sequence)
                 (hidden_0 Examples.zero_sequence)
               = [[sigmoid 1; sigmoid 1; sigmoid 1; sigmoid 1]]).
  { cbn. entrywise. all: apply f_equal; lra. }
  rewrite Ef, Et. repeat split.
  intros E. injection E as E _. pose proof sigmoid_1_above_half. lra.
Qed.

End LSTMFacts.

(* ================================================================== *)
(** * The LSTM: shapes, output layer and inputs consumed *)
(* ================================================================== *)

Section LSTMShapes.

Import Tensor LSTM.
Local Open Scope R_scope.

Lemma lstm_loop_cons w x j js s h :
  lstm_loop w x (j :: js) s h []
  = lstm_body w x s h j
    :: lstm_loop w x js (state (lstm_body w x s h j)) (hidden (lstm_body w x s h j)) [].
Proof. cbn [lstm_loop]. now rewrite lstm_loop_app. Qed.

Lemma lstm_loop_length w x js : forall s h, length (lstm_loop w x js s h []) = length js.
Proof.
  induction js as [|j js IH]; intros s h; [reflexivity|].
  rewrite lstm_loop_cons. cbn [length]. now rewrite IH.
Qed.

Lemma cells_length w x : length (cells w x) = 9%nat.
Proof. unfold cells. now rewrite lstm_loop_length, length_seq. Qed.

(** The weights of the forget gate reach nothing the loop binds. *)
Lemma lstm_loop_forget_gate_unused w Wfx Wfh bf x js : forall s h acc,
  lstm_loop (with_forget_gate w Wfx Wfh bf) x js s h acc = lstm_loop w x js s h acc.
Proof.
  induction js as [|j js IH]; intros s h acc; [reflexivity|].
  cbn [lstm_loop]. rewrite IH. reflexivity.
Qed.

Lemma cells_forget_gate_unused w Wfx Wfh bf x :
  cells (with_forget_gate w Wfx Wfh bf) x = cells w x.
Proof. apply lstm_loop_forget_gate_unused. Qed.

(** Every pass binds to ['f'] the sigmoid of the tensor it bound to ['g']. *)
Lemma lstm_loop_forget_gate w x js : forall s h,
  Forall (fun c => f c = mmap sigmoid (g c)) (lstm_loop w x js s h []).
Proof.
  induction js as [|j js IH]; intros s h; [constructor|].
  rewrite lstm_loop_cons. constructor; [reflexivity | apply IH].
Qed.

Lemma forget_gate_is_sigmoid_of_candidate w x :
  Forall (fun c => f c = mmap sigmoid (g c)) (cells w x).
Proof. apply lstm_loop_forget_gate. Qed.

(** Pass [j + 1] starts from the state and the hidden state pass [j] bound. *)
Lemma lstm_loop_passes w x n : forall a s h t d,
  (S t < n)%nat ->
  nth (S t) (lstm_loop w x (seq a n) s h []) d
  = lstm_body w x (state (nth t (lstm_loop w x (seq a n) s h []) d))
              (hidden (nth t (lstm_loop w x (seq a n) s h []) d)) (a + S t).
Proof.
  induction n as [|n IH]; intros a s h t d Ht; [lia|].
  cbn [seq]. rewrite lstm_loop_cons. cbn [nth].
  destruct t as [|t].
  - destruct n as [|n]; [lia|]. cbn [seq]. rewrite lstm_loop_cons. cbn [nth].
    now rewrite Nat.add_1_r.
  - rewrite IH by lia. f_equal. lia.
Qed.

Lemma cells_passes w x t d :
  (S t < 9)%nat ->
  nth (S t) (cells w x) d
  = lstm_body w x (state (nth t (cells w x) d)) (hidden (nth t (cells w x) d)) (S t).
Proof. intros Ht. unfold cells. now rewrite (lstm_loop_passes w x 9 0 _ _ t d Ht). Qed.

Lemma lstm_well_shaped w :
  well_shaped w = true ->
  (ncols (W_gx w) = 4 /\ ncols (W_gh w) = 4 /\ length (b_g w) = 4)%nat
  /\ (ncols (W_ix w) = 4 /\ ncols (W_ih w) = 4 /\ length (b_i w) = 4)%nat
  /\ (ncols (W_ox w) = 4 /\ ncols (W_oh w) = 4 /\ length (b_o w) = 4)%nat
  /\ has_shape2 4 1 (W_yh w) = true /\ length (b_y w) = 1%nat.
Proof.
  unfold well_shaped, HIDDEN_DIM. rewrite !andb_true_iff, !Nat.eqb_eq.
  intros H. decompose [and] H. clear H.
  repeat match goal with
         | H : has_shape2 _ 4 _ = true |- _ => apply ncols_of_shape in H
         end.
  repeat split; assumption.
Qed.

(** One pass of the loop keeps the shape [[n, 4]] of [state] and [hidden]. *)
Lemma lstm_body_shape w (x : tensor3) s h j :
  well_shaped w = true ->
  has_shape2 (length x) 4 s = true -> has_shape2 (length x) 4 h = true ->
  has_shape2 (length x) 4 (state (lstm_body w x s h j)) = true
  /\ has_shape2 (length x) 4 (hidden (lstm_body w x s h j)) = true.
Proof.
  intros ((G1 & G2 & G3) & (I1 & I2 & I3) & (O1 & O2 & O3) & _)%lstm_well_shaped Hs Hh.
  assert (Hlen : length h = length (slice_axis1 SEQ_LENGTH (Z.of_nat j) x)).
  { rewrite slice_axis1_length. now apply has_shape2_spec in Hh. }
  pose proof (has_shape2_gate tanh 4 (W_gx w) (W_gh w) (b_g w) _ h G1 G2 G3 Hlen) as Hg.
  pose proof (has_shape2_gate sigmoid 4 (W_ix w) (W_ih w) (b_i w) _ h I1 I2 I3 Hlen) as Hi.
  pose proof (has_shape2_gate sigmoid 4 (W_ox w) (W_oh w) (b_o w) _ h O1 O2 O3 Hlen) as Ho.
  rewrite slice_axis1_length in Hg, Hi, Ho.
  assert (Hstate : has_shape2 (length x) 4 (state (lstm_body w x s h j)) = true).
  { cbn [lstm_body state]. apply has_shape2_madd; apply has_shape2_mmul; trivial.
    now apply has_shape2_mmap. }
  split; [exact Hstate|].
  cbn [lstm_body hidden]. apply has_shape2_mmul; trivial.
  now apply has_shape2_mmap.
Qed.

Lemma lstm_loop_shape w (x : tensor3) js :
  well_shaped w = true -> forall s h,
  has_shape2 (length x) 4 s = true -> has_shape2 (length x) 4 h = true ->
  Forall (fun M => has_shape2 (length x) 4 M = true)
         (map hidden (lstm_loop w x js s h [])).
Proof.
  intros Hw. induction js as [|j js IH]; intros s h Hs Hh; [constructor|].
  rewrite lstm_loop_cons. cbn [map].
  destruct (lstm_body_shape w x s h j Hw Hs Hh) as [Hs' Hh'].
  constructor; [exact Hh'|]. now apply IH.
Qed.

Lemma hiddens_list_shape w (x : tensor3) :
  well_shaped w = true ->
  length (hiddens_list w x) = 9%nat
  /\ Forall (fun M => has_shape2 (length x) 4 M = true) (hiddens_list w x).
Proof.
  intros Hw. unfold hiddens_list. split.
  - now rewrite length_map, cells_length.
  - apply lstm_loop_shape; trivial; apply has_shape2_zeros.
Qed.

Lemma lstm_hiddens_shape w (x : tensor3) :
  well_shaped w = true -> has_shape3 (length x) 9 4 (hiddens w x) = true.
Proof.
  intros Hw. destruct (hiddens_list_shape w x Hw) as [HL HF]. unfold hiddens.
  destruct (hiddens_list w x) as [|H Hs]; [discriminate|].
  destruct (stack_axis1_rows (length x) 4 H Hs HF) as [_ HS].
  cbn [length] in HL. injection HL as HL. now rewrite HL in HS.
Qed.

Lemma lstm_outputs_readout w (x : tensor3) :
  well_shaped w = true -> outputs w x = map (map (readout w)) (hiddens w x).
Proof.
  intros Hw. pose proof (lstm_hiddens_shape w x Hw) as HT.
  apply lstm_well_shaped in Hw as (_ & _ & _ & H4 & H5).
  unfold outputs, outputs_of. cbv zeta.
  exact (outputs_as_readouts (W_yh w) (b_y w) (length x) (hiddens w x) H4 H5 HT).
Qed.

(** The tensor [predict] is the output layer applied to the hidden state
    the ninth and last pass of the loop binds. *)
Lemma lstm_predict_readout w (x : tensor3) :
  well_shaped w = true ->
  predict w x = map (readout w) (hidden (nth 8 (cells w x) (Cell [] [] [] [] [] []))).
Proof.
  intros Hw. unfold predict, predict_of. rewrite (lstm_outputs_readout w x Hw).
  destruct (hiddens_list_shape w x Hw) as [HL HF].
  unfold slice_axis1, hiddens. change (index (SEQ_LENGTH - 1) (-1)) with 8%nat.
  rewrite (stack_axis1_last (readout w) (length x) 4 (hiddens_list w x) HL HF).
  apply f_equal. unfold hiddens_list.
  apply (nth_map_lt hidden (cells w x) 8 [] (Cell [] [] [] [] [] [])).
  rewrite cells_length. lia.
Qed.

Lemma lstm_loop_agree w (x x' : tensor3) js :
  map (firstn 9) x = map (firstn 9) x' -> Forall (fun j => (j < 9)%nat) js ->
  forall s h acc, lstm_loop w x js s h acc = lstm_loop w x' js s h acc.
Proof.
  intros E Hjs. induction Hjs as [|j js Hj _ IH]; intros s h acc; [reflexivity|].
  cbn [lstm_loop]. unfold lstm_body. rewrite (slice_agree 9 SEQ_LENGTH x x' j E Hj). apply IH.
Qed.

(** Everything the loop binds is the same for two batches that agree on
    [x_0 .. x_8]. *)
Lemma cells_agree w (x x' : tensor3) :
  map (firstn 9) x = map (firstn 9) x' -> cells w x = cells w x'.
Proof.
  intros E. unfold cells, state_0, hidden_0.
  assert (EL : length x = length x') by apply (length_agree 9 x x' E).
  rewrite EL. apply lstm_loop_agree; trivial. apply (below_seq 9).
Qed.

End LSTMShapes.

(* ================================================================== *)
(** * AlexNet: shapes of the layers *)
(* ================================================================== *)

Section AlexNetShapes.

Import Tensor Static AlexNet.
Local Open Scope R_scope.

Lemma has_shape3_dims h w c (img : image) :
  has_shape3 (S h) (S w) c img = true ->
  height img = S h /\ width img = S w /\ channels img = c.
Proof.
  intros [HL HF]%has_shape3_spec. unfold height, width, channels.
  destruct img as [|row img]; [discriminate|]. cbn [hd].
  inversion HF as [|? ? Hrow _]. apply has_shape2_spec in Hrow as [Hrow Hpx].
  destruct row as [|px row]; [discriminate|]. cbn [hd].
  inversion Hpx. auto.
Qed.

(** A convolution yields an image whose size is that of [out_size], with
    one channel per filter, whatever it is given. *)
Lemma conv2d_image_shape filters kh kw sh sw p act K b (img : image) :
  has_shape3 (out_size p (height img) kh sh) (out_size p (width img) kw sw) filters
             (conv2d_image filters kh kw sh sw p act K b img) = true.
Proof.
  unfold conv2d_image.
  set (oh := out_size p (height img) kh sh). set (ow := out_size p (width img) kw sw).
  replace oh with (length (seq 0 oh)) at 1 by apply length_seq.
  apply has_shape3_map. intros y _.
  replace ow with (length (seq 0 ow)) at 1 by apply length_seq.
  apply has_shape2_map. intros x _. now rewrite length_map, length_seq.
Qed.

Lemma max_pooling2d_image_shape ph pw sh sw (img : image) :
  has_shape3 (out_size VALID (height img) ph sh) (out_size VALID (width img) pw sw)
             (channels img) (max_pooling2d_image ph pw sh sw img) = true.
Proof.
  unfold max_pooling2d_image.
  set (oh := out_size VALID (height img) ph sh).
  set (ow := out_size VALID (width img) pw sw).
  replace oh with (length (seq 0 oh)) at 1 by apply length_seq.
  apply has_shape3_map. intros y _.
  replace ow with (length (seq 0 ow)) at 1 by apply length_seq.
  apply has_shape2_map. intros x _. now rewrite length_map, length_seq.
Qed.

Lemma lrn_pixel_length r bias alpha beta v :
  length (lrn_pixel r bias alpha beta v) = length v.
Proof. unfold lrn_pixel. now rewrite length_map, length_seq. Qed.

Lemma lrn_image_shape r bias alpha beta h w c (img : image) :
  has_shape3 h w c img = true ->
  has_shape3 h w c (map (map (lrn_pixel r bias alpha beta)) img) = true.
Proof.
  intros [<- HF]%has_shape3_spec. apply has_shape3_map. intros row Hrow.
  rewrite Forall_forall in HF. apply HF, has_shape2_spec in Hrow as [<- Hpx].
  apply has_shape2_map. intros px Hin. rewrite lrn_pixel_length.
  rewrite Forall_forall in Hpx. auto.
Qed.

Lemma conv2d_image_shape_from filters kh kw sh sw p act K b h w c (img : image) oh ow :
  has_shape3 (S h) (S w) c img = true ->
  out_size p (S h) kh sh = oh -> out_size p (S w) kw sw = ow ->
  has_shape3 oh ow filters (conv2d_image filters kh kw sh sw p act K b img) = true.
Proof.
  intros (Eh & Ew & _)%has_shape3_dims <- <-. rewrite <- Eh, <- Ew.
  apply conv2d_image_shape.
Qed.

Lemma max_pooling2d_image_shape_from ph pw sh sw h w c (img : image) oh ow :
  has_shape3 (S h) (S w) c img = true ->
  out_size VALID (S h) ph sh = oh -> out_size VALID (S w) pw sw = ow ->
  has_shape3 oh ow c (max_pooling2d_image ph pw sh sw img) = true.
Proof.
  intros (Eh & Ew & Ec)%has_shape3_dims <- <-. rewrite <- Eh, <- Ew, <- Ec.
  apply max_pooling2d_image_shape.
Qed.

(** The shape of what [conv5] yields for one image of height and width
    224, layer after layer: 56 x 56 x 96, 55 x 55 x 96, 28 x 28 x 256,
    27 x 27 x 256, 13 x 13 x 384 twice, and 13 x 13 x 256. *)
Lemma conv5_image_shape (v : variables) (img : image) :
  height img = 224%nat -> width img = 224%nat ->
  Forall (fun l5 => has_shape3 13 13 256 l5 = true) (conv5 v [img]).
Proof.
  intros Hh Hw. unfold conv5, conv4, conv3, maxpool2, lrn2, conv2, maxpool1, lrn1, conv1.
  unfold conv2d, max_pooling2d, lrn. cbn [map]. constructor; [|constructor].
  set (c1 := conv2d_image 96 11 11 4 4 SAME relu (conv1_kernel v) (conv1_bias v) img).
  assert (S1 : has_shape3 56 56 96 c1 = true).
  { pose proof (conv2d_image_shape 96 11 11 4 4 SAME relu (conv1_kernel v) (conv1_bias v) img) as S.
    rewrite Hh, Hw in S. exact S. }
  apply (lrn_image_shape 5 2 1e-4 0.75) in S1.
  apply (max_pooling2d_image_shape_from 2 2 1 1 _ _ _ _ 55 55) in S1; [|reflexivity..].
  apply (conv2d_image_shape_from 256 5 5 2 2 SAME relu (conv2_kernel v) (conv2_bias v)
           _ _ _ _ 28 28) in S1; [|reflexivity..].
  apply (lrn_image_shape 5 2 1e-4 0.75) in S1.
  apply (max_pooling2d_image_shape_from 2 2 1 1 _ _ _ _ 27 27) in S1; [|reflexivity..].
  apply (conv2d_image_shape_from 384 3 3 2 2 VALID relu (conv3_kernel v) (conv3_bias v)
           _ _ _ _ 13 13) in S1; [|reflexivity..].
  apply (conv2d_image_shape_from 384 3 3 1 1 SAME relu (conv4_kernel v) (conv4_bias v)
           _ _ _ _ 13 13) in S1; [|reflexivity..].
  apply (conv2d_image_shape_from 256 3 3 1 1 SAME relu (conv5_kernel v) (conv5_bias v)
           _ _ _ _ 13 13) in S1; [|reflexivity..].
  exact S1.
Qed.

(** The static shapes the calls infer are those the notebook prints for
    [conv1], [maxpool1], [conv2], [maxpool2], [conv3], [conv4], [conv5],
    [dense1], [dense2] and [softmax], and the shapes of the kernels those it
    lists under [tf.trainable_variables()]. *)
Example static_shapes_are_the_printed_ones :
  AlexNetGraph.conv1 = Some [None; Some 56; Some 56; Some 96]%nat
  /\ AlexNetGraph.maxpool1 = Some [None; Some 55; Some 55; Some 96]%nat
  /\ AlexNetGraph.conv2 = Some [None; Some 28; Some 28; Some 256]%nat
  /\ AlexNetGraph.maxpool2 = Some [None; Some 27; Some 27; Some 256]%nat
  /\ AlexNetGraph.conv3 = Some [None; Some 13; Some 13; Some 384]%nat
  /\ AlexNetGraph.conv4 = Some [None; Some 13; Some 13; Some 384]%nat
  /\ AlexNetGraph.conv5 = Some [None; Some 13; Some 13; Some 256]%nat
  /\ AlexNetGraph.dense1 = Some [None; Some 4096]%nat
  /\ AlexNetGraph.dense2 = Some [None; Some 4096]%nat
  /\ AlexNetGraph.softmax = Some [None; Some 1000]%nat
  /\ AlexNetGraph.kernel_shapes
     = [Some [11; 11; 3; 96]; Some [5; 5; 96; 256]; Some [3; 3; 256; 384];
        Some [3; 3; 384; 384]; Some [3; 3; 384; 256]; Some [13 * 13 * 256; 4096];
        Some [4096; 4096]; Some [4096; 1000]]%nat.
Proof. repeat split. Qed.

End AlexNetShapes.

(* ================================================================== *)
(** * The recurrence of the vanilla RNN (C6) *)
(* ================================================================== *)

Section RNNRecurrence.

Import Tensor RNN.
Local Open Scope R_scope.

(** C6.  For every batch of input sequences and all weights: the recurrence
    of the text starts from [h(0) = 0] and steps by
    [h(t) = sigmoid(W_hx x(t) + W_hh h(t-1) + b_h)], where [x(t)] is the
    [t]-th element of the sequence (element [t-1] counting from zero); the
    Python list [hiddens] holds the nine batches [h(1), ..., h(9)] in time
    order; and the stacked tensor [hiddens] holds, for each sequence of the
    batch in order, exactly these nine hidden states in time order. *)
Theorem rnn_hiddens_are_the_textbook_recurrence (w : weights) (seq_input : tensor3) :
  (forall s, h_textbook w s 0 = [0; 0; 0; 0])
  /\ (forall s t,
        h_textbook w s (S t)
        = map sigmoid
            (vadd (vadd (matvec (transpose (W_hx w)) (nth t s []))
                        (matvec (transpose (W_hh w)) (h_textbook w s t)))
                  (b_h w)))
  /\ hiddens_list w seq_input
     = map (fun t => map (fun s => h_textbook w s t) seq_input) [1; 2; 3; 4; 5; 6; 7; 8; 9]%nat
  /\ hiddens w seq_input
     = map (fun s => map (fun t => h_textbook w s t) [1; 2; 3; 4; 5; 6; 7; 8; 9]%nat)
           seq_input.
Proof.
  split; [reflexivity|]. split; [reflexivity|]. split.
  - apply hiddens_list_textbook.
  - apply hiddens_textbook.
Qed.

End RNNRecurrence.

(* ================================================================== *)
(** * Next-step prediction without target leakage (C10) *)
(* ================================================================== *)

Section NoLeakage.

Import Tensor.
Local Open Scope R_scope.

Lemma rnn_hiddens_list_length w (x : tensor3) : length (RNN.hiddens_list w x) = 9%nat.
Proof. rewrite hiddens_list_textbook. now rewrite length_map, length_seq. Qed.

(** C10.  Both loops run over [j = 0, ..., 8], nine passes, each appending
    one hidden state.  Two batches that agree on the elements
    [x_0, ..., x_8] of every sequence, whatever their elements [x_9], yield
    the same hidden states and the same prediction, in the vanilla RNN and
    in the LSTM.  With weights of the declared shapes the prediction is the
    output layer applied to the hidden state of the ninth pass, and the loss
    is the mean squared error between that prediction and the elements
    [x_9], the slice [[:, -1, :]] of the input. *)
Theorem recurrent_loops_never_read_the_target
    (w : RNN.weights) (lw : LSTM.weights) (seq_input seq_input' : tensor3) :
  RNN.well_shaped w = true -> LSTM.well_shaped lw = true ->
  map (firstn 9) seq_input = map (firstn 9) seq_input' ->
  (seq 0 (RNN.SEQ_LENGTH - 1) = [0; 1; 2; 3; 4; 5; 6; 7; 8]%nat
   /\ seq 0 (LSTM.SEQ_LENGTH - 1) = [0; 1; 2; 3; 4; 5; 6; 7; 8]%nat
   /\ length (RNN.hiddens_list w seq_input) = 9%nat
   /\ length (LSTM.cells lw seq_input) = 9%nat)
  /\ (RNN.hiddens w seq_input = RNN.hiddens w seq_input'
      /\ RNN.predict w seq_input = RNN.predict w seq_input'
      /\ LSTM.cells lw seq_input = LSTM.cells lw seq_input'
      /\ LSTM.predict lw seq_input = LSTM.predict lw seq_input')
  /\ (RNN.predict w seq_input
      = map (fun s => RNN.readout w (RNN.h_textbook w s 9)) seq_input
      /\ LSTM.predict lw seq_input
         = map (LSTM.readout lw)
               (LSTM.hidden (nth 8 (LSTM.cells lw seq_input) (LSTM.Cell [] [] [] [] [] []))))
  /\ (RNN.loss w seq_input
      = RNN.mean_squared_error (map (fun s => nth 9 s []) seq_input) (RNN.predict w seq_input)
      /\ LSTM.loss lw seq_input
         = RNN.mean_squared_error (map (fun s => nth 9 s []) seq_input)
                                  (LSTM.predict lw seq_input)).
Proof.
  intros Hw Hlw E.
  pose proof (rnn_hiddens_agree w seq_input seq_input' E) as EH.
  pose proof (cells_agree lw seq_input seq_input' E) as EC.
  split; [|split; [|split]].
  - repeat split;
      first [apply rnn_hiddens_list_length | apply cells_length | reflexivity].
  - repeat split; trivial.
    + unfold RNN.predict, RNN.outputs. now rewrite EH.
    + unfold LSTM.predict, LSTM.outputs, LSTM.hiddens, LSTM.hiddens_list. now rewrite EC.
  - split; [now apply rnn_predict_readout | now apply lstm_predict_readout].
  - split; reflexivity.
Qed.

Lemma recurrent_loops_never_read_the_target_witness :
  RNN.predict Examples.rnn_zero_weights (Examples.counting_sequence 9)
  = RNN.predict Examples.rnn_zero_weights (Examples.counting_sequence 100)
  /\ LSTM.predict Examples.lstm_zero_weights (Examples.counting_sequence 9)
     = LSTM.predict Examples.lstm_zero_weights (Examples.counting_sequence 100).
Proof.
  pose proof (recurrent_loops_never_read_the_target
                Examples.rnn_zero_weights Examples.lstm_zero_weights
                (Examples.counting_sequence 9) (Examples.counting_sequence 100)
                eq_refl eq_refl eq_refl) as (_ & (_ & H1 & _ & H2) & _).
  exact (conj H1 H2).
Defined.

End NoLeakage.

(* ================================================================== *)
(** * Shapes of the tensors (C5) *)
(* ================================================================== *)

Section DeclaredShapes.

Import Tensor Static.
Local Open Scope R_scope.

Lemma rnn_hiddens_list_shape w (x : tensor3) :
  RNN.well_shaped w = true ->
  Forall (fun H => has_shape2 (length x) 4 H = true) (RNN.hiddens_list w x).
Proof.
  intros Hw. rewrite hiddens_list_textbook. apply Forall_map, Forall_forall.
  intros t _. apply has_shape2_map. intros s _. now apply h_textbook_length.
Qed.

Lemma feedable_image_batch dims :
  feedable [None; Some 224; Some 224; Some 3]%nat dims = true
  <-> exists n, dims = [n; 224; 224; 3]%nat.
Proof.
  split.
  - destruct dims as [|n [|h [|w [|c [|]]]]]; cbn [feedable]; try discriminate;
      rewrite !andb_true_iff, ?Nat.eqb_eq; intros H; decompose [and] H;
      try discriminate.
    subst. now exists n.
  - intros [n ->]. reflexivity.
Qed.

Lemma feedable_label_batch dims :
  feedable [None] dims = true <-> exists n : nat, dims = [n].
Proof.
  split.
  - destruct dims as [|n [|]]; cbn [feedable]; try discriminate. now exists n.
  - intros [n ->]. reflexivity.
Qed.

(** C5.  The image placeholder of AlexNet has dtype float32 and the static
    shape [[None, 224, 224, 3]], so that what may be fed to it is exactly the
    batches of any size of 224 x 224 x 3 images; the label placeholder has
    dtype int32 and shape [[None]], one integer per element of a batch of any
    size.  [HIDDEN_DIM] is 4 in both recurrent graphs, and for weights of the
    declared shapes the initial hidden state and every hidden state the loops
    append are matrices of one 4-dimensional row per sequence of the batch. *)
Theorem tensors_have_the_declared_shapes
    (w : RNN.weights) (lw : LSTM.weights) (seq_input : tensor3) :
  RNN.well_shaped w = true -> LSTM.well_shaped lw = true ->
  (shape_of AlexNetGraph.image_batch = [None; Some 224; Some 224; Some 3]%nat
   /\ dtype_of AlexNetGraph.image_batch = float32
   /\ forall dims, feedable (shape_of AlexNetGraph.image_batch) dims = true
                   <-> exists n, dims = [n; 224; 224; 3]%nat)
  /\ (shape_of AlexNetGraph.label_batch = [None]
      /\ dtype_of AlexNetGraph.label_batch = int32
      /\ forall dims, feedable (shape_of AlexNetGraph.label_batch) dims = true
                      <-> exists n : nat, dims = [n])
  /\ (RNN.HIDDEN_DIM = 4%nat /\ LSTM.HIDDEN_DIM = 4%nat)
  /\ Forall (fun H => has_shape2 (length seq_input) 4 H = true)
            (RNN.hidden_0 seq_input :: RNN.hiddens_list w seq_input)
  /\ Forall (fun H => has_shape2 (length seq_input) 4 H = true)
            (LSTM.hidden_0 seq_input :: LSTM.hiddens_list lw seq_input).
Proof.
  intros Hw Hlw. repeat split; try reflexivity.
  - apply feedable_image_batch.
  - apply feedable_image_batch.
  - apply feedable_label_batch.
  - apply feedable_label_batch.
  - constructor; [apply has_shape2_zeros | now apply rnn_hiddens_list_shape].
  - constructor; [apply has_shape2_zeros | now apply hiddens_list_shape].
Qed.

Lemma tensors_have_the_declared_shapes_witness :
  Forall (fun H => has_shape2 1 4 H = true)
         (RNN.hidden_0 Examples.zero_sequence
          :: RNN.hiddens_list Examples.rnn_zero_weights Examples.zero_sequence)
  /\ Forall (fun H => has_shape2 1 4 H = true)
            (LSTM.hidden_0 Examples.zero_sequence
             :: LSTM.hiddens_list Examples.lstm_zero_weights Examples.zero_sequence).
Proof.
  refine (proj2 (proj2 (proj2
    (tensors_have_the_declared_shapes Examples.rnn_zero_weights Examples.lstm_zero_weights
       Examples.zero_sequence _ _)))); reflexivity.
Defined.

End DeclaredShapes.

(* ================================================================== *)
(** * Shape compatibility at the reshapes (C9) *)
(* ================================================================== *)

Section ReshapeBoundaries.

Import Tensor.
Local Open Scope R_scope.

Lemma conv5_cons v img (imgs : AlexNet.batch) :
  AlexNet.conv5 v (img :: imgs) = AlexNet.conv5 v [img] ++ AlexNet.conv5 v imgs.
Proof. reflexivity. Qed.

Lemma conv5_length v (imgs : AlexNet.batch) : length (AlexNet.conv5 v imgs) = length imgs.
Proof.
  unfold AlexNet.conv5, AlexNet.conv4, AlexNet.conv3, AlexNet.maxpool2, AlexNet.lrn2,
    AlexNet.conv2, AlexNet.maxpool1, AlexNet.lrn1, AlexNet.conv1,
    AlexNet.conv2d, AlexNet.max_pooling2d, AlexNet.lrn.
  now rewrite !length_map.
Qed.

(** On a batch of images of 224 x 224 pixels, [conv5] has the shape
    [[n, 13, 13, 256]]. *)
Lemma conv5_shape v (imgs : AlexNet.batch) n :
  has_shape4 n 224 224 3 imgs = true ->
  has_shape4 n 13 13 256 (AlexNet.conv5 v imgs) = true.
Proof.
  unfold has_shape4. rewrite !andb_true_iff, !Nat.eqb_eq, conv5_length.
  intros [HL HF]. split; [exact HL|]. clear HL.
  apply forallb_forall. rewrite forallb_forall in HF.
  induction imgs as [|img imgs IH]; [intros ? []|].
  rewrite conv5_cons. intros l5 [Hin|Hin]%in_app_or.
  - assert (Himg : has_shape3 224 224 3 img = true) by (apply HF; now left).
    apply has_shape3_dims in Himg as (Hh & Hw & _).
    pose proof (conv5_image_shape v img Hh Hw) as F.
    rewrite Forall_forall in F. now apply F.
  - apply IH; trivial. intros i Hi. apply HF. now right.
Qed.

(** [tf.reshape(conv5, [-1, 13*13*256])] makes one row of every image. *)
Lemma conv5_reshaped_rows v (imgs : AlexNet.batch) n :
  has_shape4 n 224 224 3 imgs = true ->
  AlexNet.conv5_reshaped v imgs = map flatten3 (AlexNet.conv5 v imgs).
Proof.
  intros H. apply (conv5_shape v) in H.
  unfold has_shape4 in H. apply andb_prop in H as [_ H]. rewrite forallb_forall in H.
  unfold AlexNet.conv5_reshaped, AlexNet.flatten4, reshape_to_2.
  apply chunk_concat; [lia|].
  apply Forall_forall. intros row (l5 & <- & Hin)%in_map_iff.
  apply (flatten3_length 13 13 256). now apply H.
Qed.

Lemma flatten3_map_map (F : vec -> vec) (T : tensor3) :
  flatten3 (map (map F) T) = flatten2 (map F (concat T)).
Proof. unfold flatten3, flatten2. now rewrite concat_map_map. Qed.

(** C9.  At the flatten of AlexNet, for a batch of [n] images of
    224 x 224 x 3: [conv5] has the shape [[n, 13, 13, 256]]; the reshape
    makes of each image one row of [13*13*256 = 43264] features, which is the
    input size of the kernel of the first dense layer, and holds the elements
    of [conv5] in the same order.  At the output of either recurrent graph,
    for weights of the declared shapes and a batch of [n] sequences: the
    stacked hidden states have the shape [[n, 9, 4]]; the first reshape lays
    them out as [n * 9] rows of 4 without touching the elements; the output
    weights make one entry of each; and the second reshape gives a tensor
    of shape [[n, 9, 1]] holding the same elements in the same order. *)
Theorem reshapes_are_shape_compatible
    (v : AlexNet.variables) (image_batch : AlexNet.batch)
    (w : RNN.weights) (lw : LSTM.weights) (seq_input : tensor3) :
  has_shape4 (length image_batch) 224 224 3 image_batch = true ->
  RNN.well_shaped w = true -> LSTM.well_shaped lw = true ->
  (has_shape4 (length image_batch) 13 13 256 (AlexNet.conv5 v image_batch) = true
   /\ AlexNet.conv5_reshaped v image_batch = map flatten3 (AlexNet.conv5 v image_batch)
   /\ has_shape2 (length image_batch) (13 * 13 * 256) (AlexNet.conv5_reshaped v image_batch)
      = true
   /\ flatten2 (AlexNet.conv5_reshaped v image_batch)
      = AlexNet.flatten4 (AlexNet.conv5 v image_batch)
   /\ Z.of_nat (13 * 13 * 256) = 43264%Z
   /\ AlexNetGraph.conv5 = Some [None; Some 13; Some 13; Some 256]%nat
   /\ AlexNetGraph.conv5_reshaped = Some [None; Some (13 * 13 * 256)]%nat
   /\ nth 5 AlexNetGraph.kernel_shapes None = Some [13 * 13 * 256; 4096]%nat)
  /\ (has_shape3 (length seq_input) 9 4 (RNN.hiddens w seq_input) = true
      /\ has_shape2 (length seq_input * 9) 4
           (reshape_to_2 4 (flatten3 (RNN.hiddens w seq_input))) = true
      /\ flatten2 (reshape_to_2 4 (flatten3 (RNN.hiddens w seq_input)))
         = flatten3 (RNN.hiddens w seq_input)
      /\ has_shape3 (length seq_input) 9 1 (RNN.outputs w seq_input) = true
      /\ flatten3 (RNN.outputs w seq_input)
         = flatten2 (xw_plus_b (reshape_to_2 4 (flatten3 (RNN.hiddens w seq_input)))
                               (RNN.W_yh w) (RNN.b_y w)))
  /\ (has_shape3 (length seq_input) 9 4 (LSTM.hiddens lw seq_input) = true
      /\ has_shape2 (length seq_input * 9) 4
           (reshape_to_2 4 (flatten3 (LSTM.hiddens lw seq_input))) = true
      /\ flatten2 (reshape_to_2 4 (flatten3 (LSTM.hiddens lw seq_input)))
         = flatten3 (LSTM.hiddens lw seq_input)
      /\ has_shape3 (length seq_input) 9 1 (LSTM.outputs lw seq_input) = true
      /\ flatten3 (LSTM.outputs lw seq_input)
         = flatten2 (xw_plus_b (reshape_to_2 4 (flatten3 (LSTM.hiddens lw seq_input)))
                               (LSTM.W_yh lw) (LSTM.b_y lw))).
Proof.
  intros Himg Hw Hlw. split; [|split].
  - pose proof (conv5_shape v image_batch _ Himg) as H5.
    pose proof (conv5_reshaped_rows v image_batch _ Himg) as ER.
    split; [exact H5|]. split; [exact ER|]. split; [|split; [|split]].
    + rewrite ER. rewrite <- (conv5_length v image_batch) at 1.
      apply has_shape2_map. intros l5 Hin.
      apply (flatten3_length 13 13 256).
      unfold has_shape4 in H5. apply andb_prop in H5 as [_ H5].
      rewrite forallb_forall in H5. now apply H5.
    + now rewrite ER.
    + lia.
    + repeat split.
  - pose proof (rnn_hiddens_shape w seq_input Hw) as HT.
    pose proof (rnn_outputs_readout w seq_input Hw) as EO.
    apply rnn_well_shaped in Hw as (_ & _ & _ & H4 & H5).
    exact (recurrent_output_shapes (RNN.readout w) (RNN.W_yh w) (RNN.b_y w) _ _ _
             (fun h => eq_refl) H4 H5 HT EO).
  - pose proof (lstm_hiddens_shape lw seq_input Hlw) as HT.
    pose proof (lstm_outputs_readout lw seq_input Hlw) as EO.
    apply lstm_well_shaped in Hlw as (_ & _ & _ & H4 & H5).
    exact (recurrent_output_shapes (LSTM.readout lw) (LSTM.W_yh lw) (LSTM.b_y lw) _ _ _
             (fun h => eq_refl) H4 H5 HT EO).
Qed.

Lemma reshapes_are_shape_compatible_witness :
  has_shape2 1 (13 * 13 * 256)
    (AlexNet.conv5_reshaped (AlexNet.variables_of []) Examples.black_image) = true
  /\ has_shape3 1 9 1 (RNN.outputs Examples.rnn_zero_weights Examples.zero_sequence) = true
  /\ has_shape3 1 9 1 (LSTM.outputs Examples.lstm_zero_weights Examples.zero_sequence) = true.
Proof.
  assert (Himg : has_shape4 1 224 224 3 Examples.black_image = true) by (vm_compute; reflexivity).
  pose proof (reshapes_are_shape_compatible
                (AlexNet.variables_of []) Examples.black_image
                Examples.rnn_zero_weights Examples.lstm_zero_weights Examples.zero_sequence
                Himg eq_refl eq_refl)
    as ((_ & _ & H1 & _) & (_ & _ & _ & H2 & _) & (_ & _ & _ & H3 & _)).
  exact (conj H1 (conj H2 H3)).
Defined.

End ReshapeBoundaries.

(* ================================================================== *)
(** * AlexNet: the prediction (C3) *)
(* ================================================================== *)

Section AlexNetPrediction.

Import Tensor AlexNet.
Local Open Scope R_scope.

(** [argmax_from] carries the position and value of the first greatest
    entry of the entries [pre] already seen. *)
Lemma argmax_from_spec (l : vec) : forall (pre : vec) best_at best,
  (best_at < length pre)%nat -> nth best_at pre 0 = best ->
  (forall k, (k < length pre)%nat -> nth k pre 0 <= best) ->
  (forall k, (k < best_at)%nat -> nth k pre 0 < best) ->
  (argmax_from best_at best (length pre) l < length (pre ++ l))%nat
  /\ (forall k, (k < length (pre ++ l))%nat ->
        nth k (pre ++ l) 0 <= nth (argmax_from best_at best (length pre) l) (pre ++ l) 0)
  /\ (forall k, (k < argmax_from best_at best (length pre) l)%nat ->
        nth k (pre ++ l) 0 < nth (argmax_from best_at best (length pre) l) (pre ++ l) 0).
Proof.
  induction l as [|a l IH]; intros pre best_at best Hat Hbest Hmax Hfirst.
  - cbn [argmax_from]. rewrite app_nil_r, Hbest. auto.
  - cbn [argmax_from].
    replace (pre ++ a :: l) with ((pre ++ [a]) ++ l) by now rewrite <- app_assoc.
    replace (S (length pre)) with (length (pre ++ [a]))
      by (rewrite length_app; cbn [length]; lia).
    assert (Hlast : nth (length pre) (pre ++ [a]) 0 = a)
      by now rewrite app_nth2, Nat.sub_diag by lia.
    assert (Hold : forall k, (k < length pre)%nat -> nth k (pre ++ [a]) 0 = nth k pre 0)
      by (intros k Hk; now apply app_nth1).
    destruct (Rlt_dec best a) as [Hlt|Hge].
    + replace (length pre) with (length (pre ++ [a]) - 1)%nat at 1
        by (rewrite length_app; cbn [length]; lia).
      assert (HL : (length (pre ++ [a]) - 1 = length pre)%nat)
        by (rewrite length_app; cbn [length]; lia).
      rewrite HL. apply IH.
      * rewrite length_app. cbn [length]. lia.
      * exact Hlast.
      * intros k Hk. rewrite length_app in Hk. cbn [length] in Hk.
        destruct (Nat.eq_dec k (length pre)) as [->|Hne]; [rewrite Hlast; lra|].
        rewrite Hold by lia. specialize (Hmax k ltac:(lia)). lra.
      * intros k Hk. rewrite Hold by lia. specialize (Hmax k Hk). lra.
    + apply IH.
      * rewrite length_app. cbn [length]. lia.
      * now rewrite Hold.
      * intros k Hk. rewrite length_app in Hk. cbn [length] in Hk.
        destruct (Nat.eq_dec k (length pre)) as [->|Hne]; [rewrite Hlast; lra|].
        rewrite Hold by lia. apply Hmax. lia.
      * intros k Hk. rewrite Hold by lia. now apply Hfirst.
Qed.

(** [argmax] of a vector that is not empty is the position of its first
    greatest entry. *)
Lemma argmax_spec (l : vec) :
  (1 <= length l)%nat ->
  (argmax l < length l)%nat
  /\ (forall k, (k < length l)%nat -> nth k l 0 <= nth (argmax l) l 0)
  /\ (forall k, (k < argmax l)%nat -> nth k l 0 < nth (argmax l) l 0).
Proof.
  destruct l as [|a l]; [cbn; lia|]. intros _. unfold argmax.
  apply (argmax_from_spec l [a] 0 a); cbn [length nth]; try lia; trivial.
  - intros k Hk. replace k with 0%nat by lia. lra.
Qed.

Lemma nth_col c (X : mat) b : nth b (col c X) 0 = nth c (nth b X []) 0.
Proof.
  unfold col. destruct (Nat.lt_ge_cases b (length X)) as [Hb|Hb].
  - now apply (nth_map_lt (fun r : vec => nth c r 0) X b 0 []).
  - rewrite (nth_overflow (map _ X)) by now rewrite length_map.
    rewrite (nth_overflow X) by exact Hb. now destruct c.
Qed.

Lemma col_length c (X : mat) : length (col c X) = length X.
Proof. apply length_map. Qed.

Lemma equal_cases (x y : list Z) :
  (length y = length x -> equal x y = Some (zipWith Z.eqb x y))
  /\ (length y <> length x -> length y = 1%nat ->
        equal x y = Some (map (fun a => Z.eqb a (hd 0%Z y)) x))
  /\ (length y <> length x -> length y <> 1%nat -> length x <> 1%nat -> equal x y = None).
Proof.
  unfold equal. repeat split.
  - intros ->. now rewrite Nat.eqb_refl.
  - intros Hne H1. destruct (Nat.eqb_spec (length x) (length y)); [congruence|].
    now rewrite H1.
  - intros Hne H1 H2.
    destruct (Nat.eqb_spec (length x) (length y)); [congruence|].
    destruct (Nat.eqb_spec (length y) 1); [congruence|].
    destruct (Nat.eqb_spec (length x) 1); [congruence|]. reflexivity.
Qed.

(** C3.  For a score tensor [softmax] of a batch that is not empty,
    [prediction] has one entry per class, 1000 in all, whatever the size of
    the batch; its entry [c] is the index, within the batch, of the first
    element whose score for class [c] is the greatest.  [accuracy] is the
    mean, over these 1000 entries, of their equality with the labels: entry
    by entry when there are 1000 labels, against the one label when there is
    one, and refused by [tf.equal] for any other number of labels. *)
Theorem prediction_is_argmax_over_the_batch (softmax : mat) (label_batch : list Z) :
  (1 <= length softmax)%nat ->
  length (prediction_of softmax) = 1000%nat
  /\ (forall c, (c < 1000)%nat ->
      exists p,
        nth c (prediction_of softmax) 0%Z = Z.of_nat p
        /\ (p < length softmax)%nat
        /\ (forall b, (b < length softmax)%nat ->
              nth c (nth b softmax []) 0 <= nth c (nth p softmax []) 0)
        /\ (forall b, (b < p)%nat ->
              nth c (nth b softmax []) 0 < nth c (nth p softmax []) 0))
  /\ accuracy_of (prediction_of softmax) label_batch
     = option_map (fun e => reduce_mean (to_float e))
                  (equal (prediction_of softmax) label_batch)
  /\ (length label_batch = 1000%nat ->
      accuracy_of (prediction_of softmax) label_batch
      = Some (reduce_mean (to_float (zipWith Z.eqb (prediction_of softmax) label_batch))))
  /\ (length label_batch = 1%nat ->
      accuracy_of (prediction_of softmax) label_batch
      = Some (reduce_mean
                (to_float (map (fun a => Z.eqb a (hd 0%Z label_batch))
                               (prediction_of softmax)))))
  /\ (length label_batch <> 1000%nat -> length label_batch <> 1%nat ->
      accuracy_of (prediction_of softmax) label_batch = None).
Proof.
  intros Hn.
  assert (HL : length (prediction_of softmax) = 1000%nat)
    by (unfold prediction_of, argmax_axis0; now rewrite length_map, length_seq).
  destruct (equal_cases (prediction_of softmax) label_batch) as (E1 & E2 & E3).
  rewrite HL in E1, E2, E3.
  split; [exact HL|]. split; [|split; [reflexivity|split; [|split]]].
  - intros c Hc. exists (argmax (col c softmax)).
    destruct (argmax_spec (col c softmax)) as (A1 & A2 & A3);
      [now rewrite col_length|].
    rewrite col_length in A1, A2. split; [|split; [exact A1|split]].
    + unfold prediction_of, argmax_axis0.
      rewrite (nth_map_lt (fun c => Z.of_nat (argmax (col c softmax))) (seq 0 1000) c 0%Z 0%nat)
        by now rewrite length_seq.
      now rewrite seq_nth.
    + intros b Hb. rewrite <- !nth_col. now apply A2.
    + intros b Hb. rewrite <- !nth_col. now apply A3.
  - intros H. unfold accuracy_of. now rewrite E1.
  - intros H. unfold accuracy_of. rewrite E2; trivial. lia.
  - intros H1 H2. unfold accuracy_of. rewrite E3; trivial. lia.
Qed.

Lemma prediction_is_argmax_over_the_batch_witness :
  length (prediction_of Examples.two_image_scores) = 1000%nat
  /\ accuracy_of (prediction_of Examples.two_image_scores) [3; 7]%Z = None.
Proof.
  assert (Hn : (1 <= length Examples.two_image_scores)%nat) by (cbn; lia).
  destruct (prediction_is_argmax_over_the_batch Examples.two_image_scores [3; 7]%Z Hn)
    as (H1 & _ & _ & _ & _ & H6).
  split; [exact H1|]. apply H6; cbn; lia.
Defined.

End AlexNetPrediction.

(* ================================================================== *)
(** * AlexNet: the layer named 'softmax' (C4) *)
(* ================================================================== *)

Section AlexNetSoftmaxLayer.

Import Tensor AlexNet.
Local Open Scope R_scope.

Lemma softmax_of_entries v (dense2 : mat) :
  softmax_of v dense2
  = map (fun h => map (fun a => Rmax 0 a)
                      (vadd (vecmat h (softmax_kernel v)) (softmax_bias v)))
        dense2.
Proof.
  unfold softmax_of, dense, mmap, xw_plus_b, matmul. rewrite !map_map.
  apply map_ext. intros h. apply map_ext. intros a. apply Rmax_comm.
Qed.

Lemma softmax_of_nonnegative v (dense2 : mat) :
  Forall (Forall (fun e => 0 <= e)) (softmax_of v dense2).
Proof.
  rewrite softmax_of_entries. apply Forall_map, Forall_forall. intros h _.
  apply Forall_map, Forall_forall. intros a _. apply Rmax_l.
Qed.

Lemma vsum_repeat_0 n : vsum (repeat 0 n) = 0.
Proof. induction n as [|n IH]; cbn; [reflexivity|]. unfold vsum in IH. rewrite IH. lra. Qed.

Lemma dot_repeat_0 (x : vec) n : dot x (repeat 0 n) = 0.
Proof.
  unfold dot, vmul, zipWith, vsum. revert n.
  induction x as [|a x IH]; intros [|n]; cbn; try reflexivity.
  rewrite IH. lra.
Qed.

Lemma col_zeros r c j : col j (zeros r c) = repeat 0 r.
Proof.
  unfold col, zeros. induction r as [|r IH]; cbn [repeat map]; [reflexivity|].
  rewrite IH. f_equal. clear IH. revert j.
  induction c as [|c IH]; intros [|j]; cbn; auto.
Qed.

Lemma relu_zeros c :
  map (fun a => Rmax 0 a) (vadd (repeat 0 c) (repeat 0 c)) = repeat 0 c.
Proof.
  unfold vadd, zipWith. induction c as [|c IH]; [reflexivity|].
  cbn [repeat combine map fst snd]. rewrite IH. f_equal.
  rewrite Rplus_0_l. apply Rmax_left. lra.
Qed.

(** A zero kernel and a zero bias yield a row of [c] zeros. *)
Lemma zero_layer_row (h : vec) r c :
  map (fun a => Rmax 0 a) (vadd (vecmat h (zeros (S r) c)) (repeat 0 c)) = repeat 0 c.
Proof.
  assert (E : vecmat h (zeros (S r) c) = repeat 0 c).
  { transitivity (map (fun _ : nat => 0) (seq 0 c)).
    - unfold vecmat, transpose. rewrite map_map.
      replace (ncols (zeros (S r) c)) with c
        by (unfold ncols; cbn [zeros repeat hd]; now rewrite repeat_length).
      apply map_ext. intros j. rewrite col_zeros. apply dot_repeat_0.
    - now rewrite <- repeat_as_map, length_seq. }
  rewrite E. apply relu_zeros.
Qed.

(** The normalization of [tf.losses.sparse_softmax_cross_entropy] makes
    every row that is not empty sum to one. *)
Lemma softmax_normalize_sums_to_one (row : vec) :
  row <> [] -> vsum (softmax_normalize row) = 1.
Proof.
  intros Hrow. unfold softmax_normalize.
  assert (Hpos : 0 < vsum (map exp row)).
  { destruct row as [|a row]; [congruence|]. cbn.
    assert (H : 0 <= vsum (map exp row)).
    { clear. induction row as [|b row IH]; cbn; [lra|].
      pose proof (exp_pos b). unfold vsum in IH. lra. }
    pose proof (exp_pos a). unfold vsum in H. lra. }
  set (Z0 := vsum (map exp row)) in *.
  assert (E : forall l, vsum (map (fun a => exp a / Z0) l) = vsum (map exp l) / Z0).
  { induction l as [|a l IH]; cbn; [lra|]. unfold vsum in IH. rewrite IH. lra. }
  rewrite E. fold Z0. now field_simplify_eq; [|lra].
Qed.

(** C4.  Every entry of the tensor named ['softmax'] is [max(0, a)] for
    [a] the entry of [dense2 K + b], [K] and [b] the kernel and bias of the
    layer; so every entry is non-negative.  The rows need not sum to one:
    with the kernel and bias of the declared shapes all zero, the row of any
    input is 1000 zeros and sums to zero.  The loss is the mean over the
    batch of minus the logarithm of the entry of the normalized row at the
    label, and it is that normalization, the exponential of each entry over
    the sum of the exponentials, which makes a row sum to one. *)
Theorem softmax_layer_applies_relu :
  (forall v dense2,
     softmax_of v dense2
     = map (fun h => map (fun a => Rmax 0 a)
                         (vadd (vecmat h (softmax_kernel v)) (softmax_bias v)))
           dense2)
  /\ (forall v dense2, Forall (Forall (fun e => 0 <= e)) (softmax_of v dense2))
  /\ (forall h,
        softmax_of Examples.zero_softmax_layer [h] = [repeat 0 1000]
        /\ vsum (repeat 0 1000) <> 1)
  /\ (forall label_batch softmax,
        loss_of label_batch softmax
        = reduce_mean
            (zipWith (fun y row => - ln (nth (Z.to_nat y) (softmax_normalize row) 0))
                     label_batch softmax))
  /\ (forall row,
        softmax_normalize row = map (fun a => exp a / vsum (map exp row)) row
        /\ (row <> [] -> vsum (softmax_normalize row) = 1)).
Proof.
  split; [exact softmax_of_entries|]. split; [exact softmax_of_nonnegative|].
  split; [|split].
  - intros h. split.
    + rewrite softmax_of_entries. cbn [map Examples.zero_softmax_layer softmax_kernel softmax_bias].
      f_equal. apply (zero_layer_row h 4095 1000).
    + rewrite vsum_repeat_0. lra.
  - reflexivity.
  - intros row. split; [reflexivity | apply softmax_normalize_sums_to_one].
Qed.

End AlexNetSoftmaxLayer.

(* ================================================================== *)
(** * AlexNet: normalization and pooling after the first two convolutions (C7) *)
(* ================================================================== *)

Section AlexNetNormalization.

Import Tensor Static AlexNet.
Local Open Scope R_scope.

Lemma firstn_as_nth {A : Type} (d : A) (l : list A) : forall k,
  firstn k l = map (fun j => nth j l d) (seq 0 (Nat.min k (length l))).
Proof.
  induction l as [|a l IH]; intros k.
  - rewrite firstn_nil. cbn [length]. now rewrite Nat.min_0_r.
  - destruct k as [|k]; [reflexivity|].
    cbn [firstn length Nat.min seq map nth]. f_equal.
    rewrite IH, <- seq_shift, map_map. reflexivity.
Qed.

Lemma nth_skipn_add {A : Type} (d : A) (l : list A) : forall s j,
  nth j (skipn s l) d = nth (s + j) l d.
Proof.
  induction l as [|a l IH]; intros s j.
  - rewrite skipn_nil. now destruct j, s.
  - destruct s as [|s]; [reflexivity|]. cbn [skipn Nat.add nth]. apply IH.
Qed.

Lemma map_seq_from {B : Type} (f : nat -> B) s m :
  map f (seq s m) = map (fun j => f (s + j)%nat) (seq 0 m).
Proof.
  revert s. induction m as [|m IH]; intros s; [reflexivity|].
  cbn [seq map]. rewrite Nat.add_0_r. f_equal.
  rewrite IH, <- seq_shift, map_map. apply map_ext. intros j. f_equal. lia.
Qed.

(** The slice [input[d - r : d + r + 1]] holds the channels
    [max(0, d-r), ..., min(N-1, d+r)]. *)
Lemma lrn_window_channels r d (v : vec) :
  lrn_window r d v
  = map (fun j => nth j v 0) (seq (d - r) (Nat.min (d + r + 1) (length v) - (d - r))).
Proof.
  unfold lrn_window. rewrite (firstn_as_nth 0), length_skipn.
  rewrite (map_seq_from (fun j => nth j v 0)).
  replace (Nat.min (d + r + 1 - (d - r)) (length v - (d - r)))
    with (Nat.min (d + r + 1) (length v) - (d - r))%nat by lia.
  apply map_ext. intros j. apply nth_skipn_add.
Qed.

Lemma lrn_pixel_written_out (a : vec) : lrn_pixel 5 2 1e-4 0.75 a = lrn_5_2_1e4_075 a.
Proof.
  unfold lrn_pixel, lrn_5_2_1e4_075. apply map_ext. intros d.
  rewrite lrn_window_channels, map_map.
  now replace (d + 5 + 1)%nat with (d + 6)%nat by lia.
Qed.

Lemma max_pooling2d_image_written_out (img : image) :
  max_pooling2d_image 2 2 1 1 img = max_pool_2x2_stride_1 img.
Proof.
  unfold max_pooling2d_image, max_pool_2x2_stride_1.
  apply map_ext. intros y. apply map_ext. intros x. apply map_ext. intros c.
  cbn [seq flat_map map app vmax fold_left].
  now rewrite !Nat.mul_1_r, !Nat.add_0_r.
Qed.

(** A convolution layer with an activation is the activation applied to
    every entry of the layer without one. *)
Lemma conv2d_activation filters kh kw sh sw p act K b (inputs : batch) :
  conv2d filters kh kw sh sw p act K b inputs
  = map (map (map (map act))) (conv2d filters kh kw sh sw p (fun a => a) K b inputs).
Proof.
  unfold conv2d, conv2d_image. rewrite map_map. apply map_ext. intros img.
  rewrite map_map. apply map_ext. intros y.
  rewrite map_map. apply map_ext. intros x.
  rewrite map_map. reflexivity.
Qed.

(** C7.  [conv1] and [conv2] are relu applied to every entry of a
    convolution; [lrn1] and [lrn2] are, pixel by pixel, the Local Response
    Normalization of [conv1] and [conv2] with depth radius 5, bias 2, alpha
    1e-4 and beta 0.75, every channel divided by the power 0.75 of 2 plus
    1e-4 times the sum of the squares of the channels at distance at most 5;
    and [maxpool1] and [maxpool2] are, image by image, the maximum of [lrn1]
    and [lrn2] over windows of 2 x 2 pixels moved by one pixel. *)
Theorem lrn_then_maxpool_after_conv1_and_conv2 (v : variables) (image_batch : batch) :
  (conv1 v image_batch
   = map (map (map (map relu)))
         (conv2d 96 11 11 4 4 SAME (fun a => a) (conv1_kernel v) (conv1_bias v) image_batch)
   /\ lrn1 v image_batch = map (map (map lrn_5_2_1e4_075)) (conv1 v image_batch)
   /\ maxpool1 v image_batch = map max_pool_2x2_stride_1 (lrn1 v image_batch))
  /\ (conv2 v image_batch
      = map (map (map (map relu)))
            (conv2d 256 5 5 2 2 SAME (fun a => a) (conv2_kernel v) (conv2_bias v)
                    (maxpool1 v image_batch))
      /\ lrn2 v image_batch = map (map (map lrn_5_2_1e4_075)) (conv2 v image_batch)
      /\ maxpool2 v image_batch = map max_pool_2x2_stride_1 (lrn2 v image_batch)).
Proof.
  assert (L : forall B : batch, lrn 5 2 1e-4 0.75 B = map (map (map lrn_5_2_1e4_075)) B).
  { intros B. unfold lrn. apply map_ext. intros img. apply map_ext. intros row.
    apply map_ext. exact lrn_pixel_written_out. }
  assert (P : forall B : batch, max_pooling2d 2 2 1 1 B = map max_pool_2x2_stride_1 B).
  { intros B. unfold max_pooling2d. apply map_ext. exact max_pooling2d_image_written_out. }
  unfold maxpool2, lrn2, conv2, maxpool1, lrn1, conv1.
  rewrite !P, !L. repeat split; apply conv2d_activation.
Qed.

End AlexNetNormalization.

(* ================================================================== *)
(** * The pipelines and their parameter updates (C8) *)
(* ================================================================== *)

Section ParameterUpdates.

Import Tensor Framework.
Local Open Scope R_scope.

(** The gradient part of the pairs of the AlexNet comprehension. *)
Lemma grads_vars_decayed fw loss vars :
  map fst (AlexNet.grads_vars fw loss vars)
  = map (fun gv => vadd (fst gv) (map (fun x => 0.0005 * 0.01 * x) (snd gv)))
        (combine (gradients fw loss vars) vars)
  /\ map snd (AlexNet.grads_vars fw loss vars)
     = map snd (combine (gradients fw loss vars) vars).
Proof. unfold AlexNet.grads_vars, compute_gradients. now rewrite !map_map. Qed.

Lemma vadd_decay_fixed (g x : vec) :
  length g = length x ->
  (vadd g (map (fun a => 0.0005 * 0.01 * a) x) = g <-> Forall (fun a => a = 0) x).
Proof.
  unfold vadd, zipWith. revert x.
  induction g as [|b g IH]; intros [|a x] HL; try discriminate.
  - split; [constructor | reflexivity].
  - cbn [map combine fst snd]. injection HL as HL. specialize (IH x HL). split.
    + intros [= E1 E2]. constructor; [lra | now apply IH].
    + intros HF. inversion HF as [|? ? Ha Hx]. subst. f_equal; [lra | now apply IH].
Qed.

(** With gradients of the shapes of their variables, what the comprehension
    hands over is the gradient of the loss exactly when every entry of every
    variable is zero. *)
Lemma decayed_is_gradient_iff (G vars : variables) :
  Forall2 (fun g x => length g = length x) G vars ->
  (map (fun gv => vadd (fst gv) (map (fun x => 0.0005 * 0.01 * x) (snd gv))) (combine G vars)
   = G
   <-> Forall (Forall (fun a => a = 0)) vars).
Proof.
  induction 1 as [|g x G vars HL _ IH]; cbn [combine map fst snd].
  - split; [constructor | reflexivity].
  - split.
    + intros [= E1 E2]. constructor; [now apply (vadd_decay_fixed g x HL) | now apply IH].
    + intros HF. inversion HF as [|? ? Hx Hvars]. subst. f_equal.
      * now apply vadd_decay_fixed.
      * now apply IH.
Qed.

(** For any framework and any loss whose gradients have the shapes of
    the variables, at the freshly initialized biases of AlexNet (those of
    the second, fourth and fifth convolutions are ones) the gradients handed
    to [apply_gradients] are not the gradients of the loss. *)
Lemma decayed_is_not_gradient_at_initial_biases fw loss :
  Forall2 (fun g x => length g = length x)
          (gradients fw loss Examples.alexnet_initial_biases)
          Examples.alexnet_initial_biases ->
  map fst (AlexNet.grads_vars fw loss Examples.alexnet_initial_biases)
  <> gradients fw loss Examples.alexnet_initial_biases.
Proof.
  intros HS E. destruct (grads_vars_decayed fw loss Examples.alexnet_initial_biases) as [E1 _].
  rewrite E1 in E. apply (decayed_is_gradient_iff _ _ HS) in E.
  unfold Examples.alexnet_initial_biases in E.
  do 3 (apply Forall_inv_tail in E). apply Forall_inv in E.
  change (repeat 1 256) with (1 :: repeat 1 255) in E. apply Forall_inv in E. lra.
Qed.

End ParameterUpdates.

Section PipelineClaim.

Import Tensor Framework.
Local Open Scope R_scope.

Lemma same_shape_map_map (f : R -> R) (vars : variables) :
  Forall2 (fun g x => length g = length x) (map (map f) vars) vars.
Proof.
  induction vars as [|x vars IH]; cbn [map]; constructor; trivial.
  apply length_map.
Qed.

Lemma vadd_scaled (c : R) (g x : vec) :
  vadd g (map (fun a => c * a) x) = zipWith (fun gi xi => gi + c * xi) g x.
Proof.
  unfold vadd, zipWith. revert x.
  induction g as [|b g IH]; intros [|a x]; cbn [map combine fst snd]; trivial.
  now rewrite IH.
Qed.

Lemma map_snd_combine_same_shape (G vars : variables) :
  Forall2 (fun g x => length g = length x) G vars -> map snd (combine G vars) = vars.
Proof.
  induction 1 as [|g x G vars _ _ IH]; cbn [combine map snd]; [reflexivity|].
  now rewrite IH.
Qed.

(** The claim as first stated fails for AlexNet: no framework whose
    gradients have the shapes of the variables makes the update of AlexNet,
    at freshly initialized biases, apply the gradients of the loss. *)
Lemma alexnet_update_is_not_the_gradient_of_the_loss :
  ~ (exists (fw : framework) (noise1 noise2 : mat) (image_batch : AlexNet.batch)
            (label_batch : list Z),
       Forall2 (fun g x => length g = length x)
               (gradients fw
                  (fun vars => AlexNet.loss (AlexNet.variables_of vars) noise1 noise2
                                            image_batch label_batch)
                  Examples.alexnet_initial_biases)
               Examples.alexnet_initial_biases
       /\ map fst (AlexNet.grads_vars fw
                     (fun vars => AlexNet.loss (AlexNet.variables_of vars) noise1 noise2
                                               image_batch label_batch)
                     Examples.alexnet_initial_biases)
          = gradients fw
              (fun vars => AlexNet.loss (AlexNet.variables_of vars) noise1 noise2
                                        image_batch label_batch)
              Examples.alexnet_initial_biases).
Proof.
  intros (fw & noise1 & noise2 & image_batch & label_batch & HS & E).
  exact (decayed_is_not_gradient_at_initial_biases fw _ HS E).
Qed.

(** C8, as amended.  In each graph the loss is computed from the output of
    the layer stack and the labels or targets (the mean squared error
    against the last element of the sequences for the RNN and the LSTM, the
    sparse softmax cross-entropy for AlexNet), and the prediction is read
    from the same output.  The update of the RNN and of the LSTM hands to
    Adam the gradients of exactly that loss, paired with the variables.  The
    update of AlexNet hands to the momentum optimizer, for each variable,
    the gradient of the loss plus [0.0005 * 0.01] times the variable, entry
    by entry, so that the values of the variables flow into the update
    besides the loss; it is the gradient of the loss only where every
    variable is zero. *)
Theorem updates_apply_the_loss_gradients_with_weight_decay_in_alexnet
    (fw : framework) (seq_input : tensor3)
    (noise1 noise2 : mat) (image_batch : AlexNet.batch) (label_batch : list Z)
    (s : slots fw) (rnn_vars lstm_vars alexnet_vars : variables) :
  Forall2 (fun g x => length g = length x)
          (gradients fw
             (fun vars => AlexNet.loss (AlexNet.variables_of vars) noise1 noise2
                                       image_batch label_batch)
             alexnet_vars)
          alexnet_vars ->
  (forall w,
     RNN.loss w seq_input
     = RNN.mean_squared_error (slice_axis1 10 (-1) seq_input)
                              (RNN.predict_of (RNN.outputs_of w (RNN.hiddens w seq_input)))
     /\ RNN.predict w seq_input = RNN.predict_of (RNN.outputs_of w (RNN.hiddens w seq_input)))
  /\ (forall w,
        LSTM.loss w seq_input
        = RNN.mean_squared_error (slice_axis1 10 (-1) seq_input)
                                 (LSTM.predict_of (LSTM.outputs_of w (LSTM.hiddens w seq_input)))
        /\ LSTM.predict w seq_input
           = LSTM.predict_of (LSTM.outputs_of w (LSTM.hiddens w seq_input)))
  /\ (forall v,
        AlexNet.loss v noise1 noise2 image_batch label_batch
        = AlexNet.sparse_softmax_cross_entropy
            label_batch (AlexNet.softmax v noise1 noise2 image_batch)
        /\ AlexNet.prediction v noise1 noise2 image_batch
           = AlexNet.argmax_axis0 1000 (AlexNet.softmax v noise1 noise2 image_batch))
  /\ RNN.train_step fw seq_input (s, rnn_vars)
     = adam_apply_gradients fw 0.1 s
         (combine (gradients fw (fun vars => RNN.loss (RNN.weights_of vars) seq_input) rnn_vars)
                  rnn_vars)
  /\ LSTM.train_step fw seq_input (s, lstm_vars)
     = adam_apply_gradients fw 0.1 s
         (combine (gradients fw (fun vars => LSTM.loss (LSTM.weights_of vars) seq_input)
                             lstm_vars)
                  lstm_vars)
  /\ AlexNet.train_op fw noise1 noise2 image_batch label_batch (s, alexnet_vars)
     = momentum_apply_gradients fw 0.01 0.9 s
         (AlexNet.grads_vars fw
            (fun vars => AlexNet.loss (AlexNet.variables_of vars) noise1 noise2
                                      image_batch label_batch)
            alexnet_vars)
  /\ map snd (AlexNet.grads_vars fw
                (fun vars => AlexNet.loss (AlexNet.variables_of vars) noise1 noise2
                                          image_batch label_batch)
                alexnet_vars)
     = alexnet_vars
  /\ map fst (AlexNet.grads_vars fw
                (fun vars => AlexNet.loss (AlexNet.variables_of vars) noise1 noise2
                                          image_batch label_batch)
                alexnet_vars)
     = zipWith (zipWith (fun g x => g + 0.0005 * 0.01 * x))
         (gradients fw
            (fun vars => AlexNet.loss (AlexNet.variables_of vars) noise1 noise2
                                      image_batch label_batch)
            alexnet_vars)
         alexnet_vars
  /\ (map fst (AlexNet.grads_vars fw
                 (fun vars => AlexNet.loss (AlexNet.variables_of vars) noise1 noise2
                                           image_batch label_batch)
                 alexnet_vars)
      = gradients fw
          (fun vars => AlexNet.loss (AlexNet.variables_of vars) noise1 noise2
                                    image_batch label_batch)
          alexnet_vars
      <-> Forall (Forall (fun a => a = 0)) alexnet_vars).
Proof.
  intros HS.
  set (loss := fun vars => AlexNet.loss (AlexNet.variables_of vars) noise1 noise2
                                        image_batch label_batch) in *.
  destruct (grads_vars_decayed fw loss alexnet_vars) as [E1 E2].
  do 6 (split; [try reflexivity; intros; split; reflexivity|]).
  split; [|split].
  - rewrite E2. now apply map_snd_combine_same_shape.
  - rewrite E1. unfold zipWith at 1. apply map_ext. intros gv. apply vadd_scaled.
  - rewrite E1. now apply decayed_is_gradient_iff.
Qed.

Lemma updates_apply_the_loss_gradients_with_weight_decay_in_alexnet_witness :
  map snd (AlexNet.grads_vars Examples.counting_framework
             (fun vars => AlexNet.loss (AlexNet.variables_of vars) [] []
                                       Examples.black_image [0%Z])
             Examples.alexnet_initial_biases)
  = Examples.alexnet_initial_biases.
Proof.
  refine (proj1 (proj2 (proj2 (proj2 (proj2 (proj2 (proj2
    (updates_apply_the_loss_gradients_with_weight_decay_in_alexnet
       Examples.counting_framework Examples.zero_sequence [] [] Examples.black_image [0%Z]
       tt [] [] Examples.alexnet_initial_biases _)))))))).
  apply (same_shape_map_map (fun _ => 0)).
Defined.

End PipelineClaim.

(* ================================================================== *)
(** * The data the RNN notebook prepares *)
(* ================================================================== *)

Section DataGeneration.

Import Tensor Framework Notebook.
Local Open Scope R_scope.

Lemma set_nth_length {A : Type} (a : A) (l : list A) : forall i,
  length (set_nth i a l) = length l.
Proof.
  induction l as [|b l IH]; intros [|i]; cbn [set_nth length]; trivial.
  now rewrite IH.
Qed.

Lemma nth_set_nth_same {A : Type} (a d : A) (l : list A) : forall i,
  (i < length l)%nat -> nth i (set_nth i a l) d = a.
Proof.
  induction l as [|b l IH]; intros [|i] Hi; cbn in Hi; try lia; cbn [set_nth nth];
    trivial.
  apply IH. lia.
Qed.

Lemma nth_set_nth_other {A : Type} (a d : A) (l : list A) : forall i k,
  i <> k -> nth k (set_nth i a l) d = nth k l d.
Proof.
  induction l as [|b l IH]; intros [|i] [|k] H; cbn [set_nth nth]; trivial; try lia.
  apply IH. lia.
Qed.

(** The column loop on one row: after the columns [1 .. k] the row obeys
    [x_i = x_(i-1) * 1.1 + 0.3] up to [k], and is as it was beyond. *)
Lemma row_rule (row : vec) k :
  (k < length row)%nat ->
  let row' := fold_left next_element (seq 1 k) row in
  length row' = length row
  /\ (forall i, (1 <= i <= k)%nat -> nth i row' 0 = nth (i - 1) row' 0 * 1.1 + 0.3)
  /\ (forall i, (k < i)%nat -> nth i row' 0 = nth i row 0).
Proof.
  cbv zeta. induction k as [|k IH]; intros Hk.
  - cbn [seq fold_left]. repeat split; trivial. lia.
  - rewrite seq_S, fold_left_app. cbn [fold_left Nat.add].
    destruct (IH ltac:(lia)) as (HL & Hrule & Hrest).
    set (r := fold_left next_element (seq 1 k) row) in *.
    unfold next_element. replace (S k - 1)%nat with k by lia.
    split; [now rewrite set_nth_length|]. split.
    + intros i Hi. destruct (Nat.eq_dec i (S k)) as [->|Hne].
      * rewrite nth_set_nth_same by lia.
        replace (S k - 1)%nat with k by lia.
        now rewrite nth_set_nth_other by lia.
      * rewrite !nth_set_nth_other by lia. apply Hrule. lia.
    + intros i Hi. rewrite nth_set_nth_other by lia. apply Hrest. lia.
Qed.

(** The loop over the columns of the array is the loop on each row. *)
Lemma columns_row_by_row (M : mat) (cols : list nat) :
  fold_left next_column cols M
  = map (fold_left next_element cols) M.
Proof.
  revert M. induction cols as [|i cols IH]; intros M; cbn [fold_left].
  - now rewrite map_id.
  - rewrite IH. unfold next_column. now rewrite map_map.
Qed.

(** A list of [n * k] elements is [n] rows of [k] elements. *)
Lemma rows_of_length {A : Type} k n : forall l : list A,
  length l = (n * k)%nat ->
  exists ls, l = concat ls /\ length ls = n /\ Forall (fun r => length r = k) ls.
Proof.
  induction n as [|n IH]; intros l HL.
  - exists []. destruct l; [now repeat split | discriminate].
  - destruct (IH (skipn k l)) as (ls & E & Hn & HF).
    { rewrite length_skipn. lia. }
    exists (firstn k l :: ls). cbn [concat length]. rewrite <- E, firstn_skipn, Hn.
    repeat split. constructor; trivial. rewrite length_firstn. nia.
Qed.

Lemma concat_singletons (l : vec) : concat (map (fun a => [a]) l) = l.
Proof. induction l as [|a l IH]; cbn; congruence. Qed.

(** Whatever generator numpy has, as long as [np.random.normal] draws as
    many numbers as it is asked for: the cell makes 800 training and 200
    test sequences of ten elements of one feature, each obeying the rule
    [x_t = x_(t-1) * 1.1 + 0.3] from its first element on. *)
Lemma prepared_sequences_follow_the_rule fw (s : world fw) :
  (forall g k, length (fst (np_normal fw g k)) = k) ->
  length (fst (fst (prepare_data fw s))) = 800%nat
  /\ length (snd (fst (prepare_data fw s))) = 200%nat
  /\ Forall (fun sq =>
               length sq = 10%nat
               /\ forall t, (1 <= t <= 9)%nat ->
                    exists a, nth (t - 1) sq [] = [a] /\ nth t sq [] = [a * 1.1 + 0.3])
            (fst (fst (prepare_data fw s)) ++ snd (fst (prepare_data fw s))).
Proof.
  intros Hdraws. unfold prepare_data, np_random_seed, np_random_normal, bind, ret.
  cbn [np_state graph_seed graph_random_ops entropy_used].
  specialize (Hdraws (np_seed_state fw 1) (1000 * RNN.SEQ_LENGTH)%nat).
  destruct (np_normal fw (np_seed_state fw 1) (1000 * RNN.SEQ_LENGTH)) as [draws g].
  cbn [fst snd] in *.
  destruct (rows_of_length 10 1000 draws Hdraws) as (M & -> & HM & HF).
  change RNN.SEQ_LENGTH with 10%nat.
  unfold reshape_to_2. rewrite (chunk_concat 10 M ltac:(lia) HF).
  rewrite columns_row_by_row.
  set (step := fun row => fold_left next_element (seq 1 (10 - 1)) row).
  assert (Hrow : forall row, In row M ->
            length (step row) = 10%nat
            /\ forall t, (1 <= t <= 9)%nat ->
                 nth t (step row) 0 = nth (t - 1) (step row) 0 * 1.1 + 0.3).
  { intros row Hin. rewrite Forall_forall in HF. specialize (HF row Hin).
    destruct (row_rule row 9 ltac:(lia)) as (HL & Hrule & _).
    split; [unfold step; change (10 - 1)%nat with 9%nat; lia | exact Hrule]. }
  assert (E : reshape_to_3 10 1 (flatten2 (map step M))
              = map (map (fun a => [a])) (map step M)).
  { rewrite <- (concat_singletons (flatten2 (map step M))).
    apply (reshape_to_3_rows (fun a : R => [a]) 10 1 (map step M)); try lia.
    - apply Forall_forall. intros r (row & <- & Hin)%in_map_iff. now apply Hrow.
    - reflexivity. }
  rewrite E. clear E.
  set (T := map (map (fun a => [a])) (map step M)).
  assert (HT : length T = 1000%nat) by (unfold T; now rewrite !length_map).
  split; [rewrite length_firstn; unfold tensor3, mat, vec in *; lia|].
  split; [rewrite length_skipn; unfold tensor3, mat, vec in *; lia|].
  rewrite firstn_skipn. unfold T. rewrite map_map.
  apply Forall_forall. intros sq (row & <- & Hin)%in_map_iff.
  destruct (Hrow row Hin) as [HL Hrule]. rewrite length_map. split; [exact HL|].
  intros t Ht. exists (nth (t - 1) (step row) 0).
  rewrite !(nth_map_lt (fun a : R => [a]) (step row) _ [] 0) by lia.
  rewrite (Hrule t Ht). split; reflexivity.
Qed.

(** The stand-in framework draws as many numbers as it is asked for, so its
    data are as above. *)
Example prepared_sequences_of_the_stand_in :
  length (fst (fst (prepare_data Examples.counting_framework
                      (after_imports Examples.counting_framework (fun _ => 0%Z))))) = 800%nat.
Proof.
  assert (Hdraws : forall g k,
            length (fst (np_normal Examples.counting_framework g k)) = k).
  { intros g k. cbn [Examples.counting_framework np_normal fst].
    now rewrite length_map, length_seq. }
  exact (proj1 (prepared_sequences_follow_the_rule Examples.counting_framework _ Hdraws)).
Defined.

End DataGeneration.

(* ================================================================== *)
(** * What the RNN notebook prints does not depend on the entropy (C2) *)
(* ================================================================== *)

Section Reproducibility.

Import Tensor Framework.
Local Open Scope R_scope.

(** Runs the calls of a cell that change the world, up to the first one
    that is not a constructor of it. *)
Ltac run_cells :=
  lazy beta iota zeta delta
    [bind ret tf_reset_default_graph tf_set_random_seed tf_get_variable get_seed
     graph_seed graph_random_ops np_state entropy_used].

(** An initializer whose random op has seeds runs the same whatever the
    entropy of the environment, and leaves the world as it is. *)
Lemma seeded_initializers fw env inits :
  Forall (fun init => fst init <> None) inits ->
  forall s,
    global_variables_initializer fw env inits s
    = (map (fun init => match fst init with
                        | Some seeds => glorot_uniform fw seeds (snd init)
                        | None => []
                        end) inits, s).
Proof.
  induction 1 as [|init inits Hinit _ IH]; intros s; [reflexivity|].
  cbn [global_variables_initializer map]. unfold bind at 1.
  unfold run_initializer. destruct (fst init) as [seeds|]; [|congruence].
  unfold ret at 1. unfold bind at 1. rewrite IH. reflexivity.
Qed.

(** The data cell seeds numpy's generator before it draws: its result and
    the world it leaves do not depend on the state of the generator it
    finds. *)
Lemma prepare_data_reseeds fw g g' gs ops used :
  Notebook.prepare_data fw (World fw g gs ops used)
  = Notebook.prepare_data fw (World fw g' gs ops used).
Proof. reflexivity. Qed.

(** Each section seeds the graph before it creates its variables: what it
    prints and the world it leaves do not depend on the entropy. *)
Lemma basic_rnn_seeded fw env env' train_seq test_seq s :
  Notebook.basic_rnn fw env train_seq test_seq s
  = Notebook.basic_rnn fw env' train_seq test_seq s.
Proof.
  unfold Notebook.basic_rnn. run_cells.
  rewrite !seeded_initializers by (repeat constructor; discriminate).
  reflexivity.
Qed.

Lemma long_short_term_memory_seeded fw env env' train_seq test_seq s :
  Notebook.long_short_term_memory fw env train_seq test_seq s
  = Notebook.long_short_term_memory fw env' train_seq test_seq s.
Proof.
  unfold Notebook.long_short_term_memory. run_cells.
  rewrite !seeded_initializers by (repeat constructor; discriminate).
  reflexivity.
Qed.

(** Two executions of the notebook in worlds of different entropy print the
    same lines. *)
Lemma run_independent_of_entropy fw env env' : Notebook.run fw env = Notebook.run fw env'.
Proof.
  unfold Notebook.run, Notebook.notebook, after_imports.
  unfold bind at 1. symmetry. unfold bind at 1. symmetry.
  rewrite (prepare_data_reseeds fw (np_seed_state fw (env 0%nat))
                                (np_seed_state fw (env' 0%nat))).
  destruct (Notebook.prepare_data fw (World fw (np_seed_state fw (env' 0%nat)) None 0 1))
    as [data s1].
  unfold bind at 1. symmetry. unfold bind at 1. symmetry.
  rewrite (basic_rnn_seeded fw env env').
  destruct (Notebook.basic_rnn fw env' (fst data) (snd data) s1) as [rnn s2].
  unfold bind at 1. symmetry. unfold bind at 1. symmetry.
  rewrite (long_short_term_memory_seeded fw env env').
  reflexivity.
Qed.

(** Without the seeding call the draws do depend on the entropy: right
    after the imports, one draw of [np.random.normal] in the stand-in
    framework differs between a world whose first entropy value is 0 and one
    where it is 1. *)
Example unseeded_draw_depends_on_entropy :
  fst (np_random_normal Examples.counting_framework 1 1
         (after_imports Examples.counting_framework (fun _ => 0%Z)))
  <> fst (np_random_normal Examples.counting_framework 1 1
            (after_imports Examples.counting_framework (fun _ => 1%Z))).
Proof.
  cbn. intros [= E]. lra.
Qed.

(** The claim as first stated fails: no framework and no two worlds make
    two executions of the notebook print different lines. *)
Lemma no_two_executions_print_different_losses :
  ~ (exists (fw : framework) (env env' : entropy), Notebook.run fw env <> Notebook.run fw env').
Proof.
  intros (fw & env & env' & H). apply H, run_independent_of_entropy.
Qed.

(** C2, as amended.  The loss values depend on the random initialization
    only through the seeds the notebook fixes: it calls [np.random.seed(1)]
    before it draws its data and [tf.set_random_seed(1)] after each
    [tf.reset_default_graph()], before any variable is created.  So the data
    and every initial weight are functions of these seeds, and the lines the
    two training cells and the two test cells print are the same in every
    execution, whatever the entropy of the environment. *)
Theorem printed_losses_are_fixed_by_the_seeds (fw : framework) (env env' : entropy) :
  Notebook.run fw env = Notebook.run fw env'
  /\ Notebook.training_lines (fst (Notebook.run fw env))
     = Notebook.training_lines (fst (Notebook.run fw env'))
  /\ Notebook.test_loss (fst (Notebook.run fw env))
     = Notebook.test_loss (fst (Notebook.run fw env'))
  /\ Notebook.training_lines (snd (Notebook.run fw env))
     = Notebook.training_lines (snd (Notebook.run fw env'))
  /\ Notebook.test_loss (snd (Notebook.run fw env))
     = Notebook.test_loss (snd (Notebook.run fw env')).
Proof.
  pose proof (run_independent_of_entropy fw env env') as E.
  rewrite E. repeat split.
Qed.

End Reproducibility.

(* ================================================================== *)
(** * Ranges of the activations *)
(* ================================================================== *)

Section ActivationRanges.

Import Tensor.
Local Open Scope R_scope.

Lemma sigmoid_range x : 0 < sigmoid x < 1.
Proof.
  unfold sigmoid. pose proof (exp_pos (- x)) as He.
  split.
  - apply Rdiv_lt_0_compat; lra.
  - apply Rmult_lt_reg_r with (1 + exp (- x)); [lra|].
    replace (1 / (1 + exp (- x)) * (1 + exp (- x))) with 1 by (field; lra). lra.
Qed.

Lemma sigmoid_increasing x y : x < y -> sigmoid x < sigmoid y.
Proof.
  intros Hxy. unfold sigmoid.
  pose proof (exp_pos (- x)) as Hx. pose proof (exp_pos (- y)) as Hy.
  assert (H : exp (- y) < exp (- x)) by (apply exp_increasing; lra).
  unfold Rdiv. rewrite !Rmult_1_l. apply Rinv_lt_contravar; [|lra].
  apply Rmult_lt_0_compat; lra.
Qed.

Lemma tanh_range x : -1 < tanh x < 1.
Proof.
  unfold tanh, Rtrigo_def.tanh, sinh, cosh.
  pose proof (exp_pos x) as Hp. pose proof (exp_pos (- x)) as Hm.
  set (p := exp x) in *. set (m := exp (- x)) in *.
  replace ((p - m) / 2 / ((p + m) / 2)) with ((p - m) / (p + m)) by (field; lra).
  split.
  - apply Rmult_lt_reg_r with (p + m); [lra|].
    replace ((p - m) / (p + m) * (p + m)) with (p - m) by (field; lra). lra.
  - apply Rmult_lt_reg_r with (p + m); [lra|].
    replace ((p - m) / (p + m) * (p + m)) with (p - m) by (field; lra). lra.
Qed.

(** [sigmoid(1) <= 3/4] and [sigmoid(-1) >= 1/4], from [e <= 3]. *)
Lemma sigmoid_1_bound : sigmoid 1 <= 3 / 4 /\ 1 / 4 <= sigmoid (Ropp 1).
Proof.
  pose proof exp_le_3 as H3. pose proof (exp_pos 1) as Hp.
  assert (Hinv : exp (Ropp 1) = / exp 1) by apply exp_Ropp.
  assert (Hm : / 3 <= exp (Ropp 1)).
  { rewrite Hinv. apply Rinv_le_contravar; lra. }
  pose proof (exp_pos (Ropp 1)) as Hm0.
  unfold sigmoid. rewrite Ropp_involutive. split.
  - apply Rmult_le_reg_r with (1 + exp (Ropp 1)); [lra|].
    replace (1 / (1 + exp (Ropp 1)) * (1 + exp (Ropp 1))) with 1 by (field; lra). lra.
  - apply Rmult_le_reg_r with (1 + exp 1); [lra|].
    replace (1 / (1 + exp 1) * (1 + exp 1)) with 1 by (field; lra). lra.
Qed.

(** Entry by entry combination of two matrices whose entries lie in given
    ranges. *)
Lemma entries_zipWith (P Q S : R -> Prop) (f : R -> R -> R) (X Y : mat) :
  (forall a b, P a -> Q b -> S (f a b)) ->
  Forall (Forall P) X -> Forall (Forall Q) Y ->
  Forall (Forall S) (zipWith (zipWith f) X Y).
Proof.
  intros Hf HX. revert Y. unfold zipWith at 1.
  induction HX as [|u X Hu _ IH]; intros Y HY; [constructor|].
  destruct HY as [|v Y Hv HY]; [constructor|].
  cbn [combine map fst snd]. constructor; [|now apply IH].
  clear IH HY. revert v Hv. unfold zipWith.
  induction Hu as [|a u Ha _ IHu]; intros v Hv; [constructor|].
  destruct Hv as [|b v Hb Hv]; [constructor|].
  cbn [combine map fst snd]. constructor; auto.
Qed.

Lemma entries_mmap (P : R -> Prop) (f : R -> R) (X : mat) :
  (forall a, P (f a)) -> Forall (Forall P) (mmap f X).
Proof.
  intros Hf. unfold mmap. apply Forall_map, Forall_forall. intros row _.
  apply Forall_map, Forall_forall. intros a _. apply Hf.
Qed.

Lemma entries_mmap_of (P Q : R -> Prop) (f : R -> R) (X : mat) :
  (forall a, P a -> Q (f a)) -> Forall (Forall P) X -> Forall (Forall Q) (mmap f X).
Proof.
  intros Hf HX. unfold mmap. apply Forall_map. eapply Forall_impl; [|exact HX].
  intros row Hrow. apply Forall_map. eapply Forall_impl; [|exact Hrow]. exact Hf.
Qed.

Lemma entries_zeros (P : R -> Prop) n c : P 0 -> Forall (Forall P) (zeros n c).
Proof.
  intros H0. unfold zeros. apply Forall_forall. intros row ->%repeat_spec.
  apply Forall_forall. intros a ->%repeat_spec. exact H0.
Qed.

End ActivationRanges.

(* ================================================================== *)
(** * The training cells *)
(* ================================================================== *)

Section TrainingCells.

Import Tensor Framework.
Local Open Scope R_scope.

Lemma training_from fw (ts : slots fw * variables -> slots fw * variables)
                    (loss : variables -> R) n : forall a st printed,
  training fw ts loss (seq (S a) n) st printed
  = (Nat.iter n ts st,
     printed ++ map (fun step => (step, loss (snd (Nat.iter (step - a) ts st)))) (seq (S a) n)).
Proof.
  induction n as [|n IH]; intros a st printed; cbn [seq training map].
  - now rewrite app_nil_r.
  - rewrite IH, <- app_assoc. cbn [app]. f_equal.
    + symmetry. apply Nat.iter_succ_r.
    + f_equal. f_equal.
      * replace (S a - a)%nat with 1%nat by lia. reflexivity.
      * apply map_ext_in. intros step Hs%in_seq.
        replace (step - a)%nat with (S (step - S a)) by lia.
        now rewrite Nat.iter_succ_r.
Qed.

(** The training cells of the RNN notebook: over the steps [1 .. n], the
    variables end as [n] runs of [train_step] leave them, and the cell
    prints one line per step, in order, whose loss is the loss at the
    variables the first [step] runs have left: the loss is evaluated after
    the update of the step, never before it. *)
Theorem training_prints_the_loss_after_each_update
    fw (train_step : slots fw * variables -> slots fw * variables)
    (loss : variables -> R) (n : nat) (state : slots fw * variables) :
  training fw train_step loss (seq 1 n) state []
  = (Nat.iter n train_step state,
     map (fun step => (step, loss (snd (Nat.iter step train_step state)))) (seq 1 n)).
Proof.
  rewrite training_from. cbn [app]. f_equal.
  apply map_ext. intros step. now rewrite Nat.sub_0_r.
Qed.

End TrainingCells.

(* ================================================================== *)
(** * The vanilla RNN: ranges and batches *)
(* ================================================================== *)

Section RNNRanges.

Import Tensor RNN.
Local Open Scope R_scope.



(** The vanilla RNN treats the sequences of a batch one by one: the hidden
    states and the predictions of a batch put together from two batches are
    those of the two batches, one after the other. *)
Theorem rnn_treats_the_sequences_of_a_batch_separately
    (w : weights) (seq_input seq_input' : tensor3) :
  well_shaped w = true ->
  hiddens w (seq_input ++ seq_input') = hiddens w seq_input ++ hiddens w seq_input'
  /\ predict w (seq_input ++ seq_input') = predict w seq_input ++ predict w seq_input'.
Proof.
  intros Hw. rewrite !hiddens_textbook, !(rnn_predict_readout _ _ Hw).
  now rewrite !map_app.
Qed.

Lemma rnn_treats_the_sequences_of_a_batch_separately_witness :
  predict Examples.rnn_zero_weights
          (Examples.counting_sequence 9 ++ Examples.zero_sequence)
  = predict Examples.rnn_zero_weights (Examples.counting_sequence 9)
    ++ predict Examples.rnn_zero_weights Examples.zero_sequence.
Proof.
  exact (proj2 (rnn_treats_the_sequences_of_a_batch_separately
                  Examples.rnn_zero_weights (Examples.counting_sequence 9)
                  Examples.zero_sequence eq_refl)).
Defined.

End RNNRanges.

(* ================================================================== *)
(** * The LSTM: ranges of what the loop binds *)
(* ================================================================== *)

Section LSTMRanges.

Import Tensor LSTM.
Local Open Scope R_scope.

Lemma sigmoid_of_tanh_range z : 1 / 4 < sigmoid (tanh z) < 3 / 4.
Proof.
  destruct (tanh_range z) as [Hl Hu]. destruct sigmoid_1_bound as [H1 H2].
  pose proof (sigmoid_increasing _ _ Hl). pose proof (sigmoid_increasing _ _ Hu).
  replace (-1) with (Ropp 1) in * by lra. lra.
Qed.

(** The ranges of the entries of what one pass binds, for a state from
    whose entries are between -4 and 4. *)
Local Abbreviation bounded_cell :=
  (fun c : cell =>
     Forall (Forall (fun a => -1 < a < 1)) (g c)
     /\ Forall (Forall (fun a => 0 < a < 1)) (i c)
     /\ Forall (Forall (fun a => 1 / 4 < a < 3 / 4)) (f c)
     /\ Forall (Forall (fun a => 0 < a < 1)) (o c)
     /\ Forall (Forall (fun a => -4 < a < 4)) (state c)
     /\ Forall (Forall (fun a => -1 < a < 1)) (hidden c)).

Lemma lstm_body_bounded w x s h j :
  Forall (Forall (fun a => -4 < a < 4)) s -> bounded_cell (lstm_body w x s h j).
Proof.
  intros Hs. unfold lstm_body. cbv beta zeta. cbn [g i f o state hidden].
  set (G := mmap tanh _). set (I := mmap sigmoid (madd (matmul _ (W_ix w)) _)).
  set (O := mmap sigmoid (madd (matmul _ (W_ox w)) _)).
  assert (HG : Forall (Forall (fun a => -1 < a < 1)) G)
    by (apply entries_mmap; intros; apply tanh_range).
  assert (HI : Forall (Forall (fun a => 0 < a < 1)) I)
    by (apply entries_mmap; intros; apply sigmoid_range).
  assert (HO : Forall (Forall (fun a => 0 < a < 1)) O)
    by (apply entries_mmap; intros; apply sigmoid_range).
  assert (HF : Forall (Forall (fun a => 1 / 4 < a < 3 / 4)) (mmap sigmoid G)).
  { unfold G, mmap. rewrite map_map. apply Forall_map, Forall_forall. intros row _.
    rewrite map_map. apply Forall_map, Forall_forall. intros a _.
    apply sigmoid_of_tanh_range. }
  assert (HS : Forall (Forall (fun a => -4 < a < 4))
                      (madd (mmul G I) (mmul (mmap sigmoid G) s))).
  { apply (entries_zipWith (fun a => -1 < a < 1) (fun a => -3 < a < 3)).
    - intros a b Ha Hb. lra.
    - apply (entries_zipWith (fun a => -1 < a < 1) (fun a => 0 < a < 1)); trivial.
      intros a b Ha Hb. nra.
    - apply (entries_zipWith (fun a => 1 / 4 < a < 3 / 4) (fun a => -4 < a < 4)); trivial.
      intros a b Ha Hb. nra. }
  repeat split; trivial.
  apply (entries_zipWith (fun a => 0 < a < 1) (fun a => -1 < a < 1)); trivial.
  - intros a b Ha Hb. nra.
  - apply entries_mmap. intros. apply tanh_range.
Qed.

Lemma lstm_loop_bounded w x js : forall s h,
  Forall (Forall (fun a => -4 < a < 4)) s ->
  Forall bounded_cell (lstm_loop w x js s h []).
Proof.
  induction js as [|j js IH]; intros s h Hs; [constructor|].
  rewrite lstm_loop_cons. pose proof (lstm_body_bounded w x s h j Hs) as Hc.
  constructor; [exact Hc|]. apply IH. apply Hc.
Qed.

Lemma cells_bounded w x : Forall bounded_cell (cells w x).
Proof.
  apply lstm_loop_bounded. apply entries_zeros. lra.
Qed.


(** The entries of every state of the LSTM stay strictly between -4 and 4,
    and those of every hidden state strictly between -1 and 1, whatever the
    weights and the inputs. *)
Theorem lstm_states_and_hidden_states_are_bounded (w : weights) (seq_input : tensor3) :
  Forall (Forall (Forall (fun a => -4 < a < 4))) (states_list w seq_input)
  /\ Forall (Forall (Forall (fun a => -1 < a < 1))) (hiddens_list w seq_input).
Proof.
  unfold states_list, hiddens_list. split; apply Forall_map.
  - eapply Forall_impl; [|apply cells_bounded]. intros c H. apply H.
  - eapply Forall_impl; [|apply cells_bounded]. intros c H. apply H.
Qed.

(** The weights of the forget gate are dead: replacing [W_fx], [W_fh] and
    [b_f] by anything changes nothing the loop binds, hence neither the
    prediction nor the loss. *)
Theorem lstm_forget_gate_weights_are_dead
    (w : weights) (Wfx Wfh : mat) (bf : vec) (seq_input : tensor3) :
  cells (with_forget_gate w Wfx Wfh bf) seq_input = cells w seq_input
  /\ predict (with_forget_gate w Wfx Wfh bf) seq_input = predict w seq_input
  /\ loss (with_forget_gate w Wfx Wfh bf) seq_input = loss w seq_input.
Proof.
  assert (E : cells (with_forget_gate w Wfx Wfh bf) seq_input = cells w seq_input)
    by apply lstm_loop_forget_gate_unused.
  assert (P : predict (with_forget_gate w Wfx Wfh bf) seq_input = predict w seq_input).
  { unfold predict, outputs, outputs_of, hiddens, hiddens_list. now rewrite E. }
  split; [exact E|]. split; [exact P|].
  unfold loss. now rewrite P.
Qed.

End LSTMRanges.

(* ================================================================== *)
(** * The LSTM treats the sequences of a batch one by one *)
(* ================================================================== *)

Section LSTMBatches.

Import Tensor LSTM.
Local Open Scope R_scope.

Lemma zipWith_app {A B C : Type} (f : A -> B -> C) (u1 u2 : list A) (v1 v2 : list B) :
  length u1 = length v1 ->
  zipWith f (u1 ++ u2) (v1 ++ v2) = zipWith f u1 v1 ++ zipWith f u2 v2.
Proof.
  unfold zipWith. revert v1. induction u1 as [|a u1 IH]; intros [|b v1] HL; try discriminate.
  - reflexivity.
  - cbn [app combine map]. f_equal. apply IH. now injection HL.
Qed.

Lemma matmul_app (X Y W : mat) : matmul (X ++ Y) W = matmul X W ++ matmul Y W.
Proof. apply map_app. Qed.

Lemma xw_plus_b_app (X Y W : mat) b :
  xw_plus_b (X ++ Y) W b = xw_plus_b X W b ++ xw_plus_b Y W b.
Proof. unfold xw_plus_b. now rewrite matmul_app, map_app. Qed.

Lemma slice_axis1_app dim j (x y : tensor3) :
  slice_axis1 dim j (x ++ y) = slice_axis1 dim j x ++ slice_axis1 dim j y.
Proof. apply map_app. Qed.

Lemma matmul_length (X W : mat) : length (matmul X W) = length X.
Proof. apply length_map. Qed.

Lemma xw_plus_b_length (X W : mat) b : length (xw_plus_b X W b) = length X.
Proof. unfold xw_plus_b. now rewrite length_map, matmul_length. Qed.

Lemma mmap_length f (X : mat) : length (mmap f X) = length X.
Proof. apply length_map. Qed.

Lemma madd_length (X Y : mat) : length (madd X Y) = Nat.min (length X) (length Y).
Proof. apply zipWith_length. Qed.

Lemma mmul_length (X Y : mat) : length (mmul X Y) = Nat.min (length X) (length Y).
Proof. apply zipWith_length. Qed.

(** A gate on a batch put together from two batches. *)
Lemma gate_app act (Wx Wh : mat) b (x y h1 h2 : mat) :
  length h1 = length x ->
  gate act Wx Wh b (x ++ y) (h1 ++ h2) = gate act Wx Wh b x h1 ++ gate act Wx Wh b y h2.
Proof.
  intros HL. unfold gate, madd, mmap.
  rewrite matmul_app, xw_plus_b_app, zipWith_app, <- map_app; [reflexivity|].
  now rewrite matmul_length, xw_plus_b_length.
Qed.

Lemma gate_length act (Wx Wh : mat) b (x h : mat) :
  length h = length x -> length (gate act Wx Wh b x h) = length x.
Proof.
  intros HL. unfold gate.
  rewrite mmap_length, madd_length, matmul_length, xw_plus_b_length. lia.
Qed.

(** One pass of the loop on a batch put together from two batches binds,
    row by row, what it binds on the one followed by what it binds on the
    other. *)
Lemma lstm_body_app w (x y : tensor3) (s1 s2 h1 h2 : mat) j :
  length s1 = length x -> length h1 = length x ->
  state (lstm_body w (x ++ y) (s1 ++ s2) (h1 ++ h2) j)
  = state (lstm_body w x s1 h1 j) ++ state (lstm_body w y s2 h2 j)
  /\ hidden (lstm_body w (x ++ y) (s1 ++ s2) (h1 ++ h2) j)
     = hidden (lstm_body w x s1 h1 j) ++ hidden (lstm_body w y s2 h2 j)
  /\ length (state (lstm_body w x s1 h1 j)) = length x
  /\ length (hidden (lstm_body w x s1 h1 j)) = length x.
Proof.
  intros Hs Hh. unfold lstm_body. cbv zeta. cbn [state hidden].
  set (xj := slice_axis1 SEQ_LENGTH (Z.of_nat j) x).
  set (yj := slice_axis1 SEQ_LENGTH (Z.of_nat j) y).
  assert (Hx : length h1 = length xj) by (unfold xj; now rewrite slice_axis1_length).
  rewrite slice_axis1_app. fold xj yj.
  change (mmap tanh (madd (matmul ?a (W_gx w)) (xw_plus_b ?h (W_gh w) (b_g w))))
    with (gate tanh (W_gx w) (W_gh w) (b_g w) a h).
  change (mmap sigmoid (madd (matmul ?a (W_ix w)) (xw_plus_b ?h (W_ih w) (b_i w))))
    with (gate sigmoid (W_ix w) (W_ih w) (b_i w) a h).
  change (mmap sigmoid (madd (matmul ?a (W_ox w)) (xw_plus_b ?h (W_oh w) (b_o w))))
    with (gate sigmoid (W_ox w) (W_oh w) (b_o w) a h).
  rewrite !(gate_app _ _ _ _ xj yj h1 h2 Hx).
  set (G1 := gate tanh _ _ _ xj h1). set (G2 := gate tanh _ _ _ yj h2).
  set (I1 := gate sigmoid (W_ix w) _ _ xj h1). set (I2 := gate sigmoid (W_ix w) _ _ yj h2).
  set (O1 := gate sigmoid (W_ox w) _ _ xj h1). set (O2 := gate sigmoid (W_ox w) _ _ yj h2).
  assert (LG : length G1 = length x)
    by (unfold G1; rewrite (gate_length _ _ _ _ _ _ Hx); apply slice_axis1_length).
  assert (LI : length I1 = length x)
    by (unfold I1; rewrite (gate_length _ _ _ _ _ _ Hx); apply slice_axis1_length).
  assert (LO : length O1 = length x)
    by (unfold O1; rewrite (gate_length _ _ _ _ _ _ Hx); apply slice_axis1_length).
  assert (ES : madd (mmul (G1 ++ G2) (I1 ++ I2)) (mmul (mmap sigmoid (G1 ++ G2)) (s1 ++ s2))
               = madd (mmul G1 I1) (mmul (mmap sigmoid G1) s1)
                 ++ madd (mmul G2 I2) (mmul (mmap sigmoid G2) s2)).
  { unfold madd, mmul, mmap. rewrite map_app.
    rewrite !zipWith_app; trivial.
    - rewrite !zipWith_length, length_map. unfold mat, vec in *. lia.
    - rewrite length_map. unfold mat, vec in *. lia.
    - unfold mat, vec in *. lia. }
  assert (LS : length (madd (mmul G1 I1) (mmul (mmap sigmoid G1) s1)) = length x).
  { rewrite madd_length, !mmul_length, mmap_length. unfold mat, vec in *. lia. }
  rewrite ES. repeat split; trivial.
  - unfold mmul, mmap. rewrite map_app. apply zipWith_app.
    rewrite length_map. unfold mmul, mmap in LS. unfold mat, vec in *. lia.
  - rewrite mmul_length, mmap_length. unfold mat, vec in *. lia.
Qed.

Lemma lstm_loop_batches w (x y : tensor3) js : forall (s1 s2 h1 h2 : mat) t,
  length s1 = length x -> length h1 = length x ->
  nth t (map state (lstm_loop w (x ++ y) js (s1 ++ s2) (h1 ++ h2) [])) []
  = nth t (map state (lstm_loop w x js s1 h1 [])) []
    ++ nth t (map state (lstm_loop w y js s2 h2 [])) []
  /\ nth t (map hidden (lstm_loop w (x ++ y) js (s1 ++ s2) (h1 ++ h2) [])) []
     = nth t (map hidden (lstm_loop w x js s1 h1 [])) []
       ++ nth t (map hidden (lstm_loop w y js s2 h2 [])) [].
Proof.
  induction js as [|j js IH]; intros s1 s2 h1 h2 t Hs Hh.
  - cbn [lstm_loop map]. destruct t; split; reflexivity.
  - rewrite !lstm_loop_cons. cbn [map].
    destruct (lstm_body_app w x y s1 s2 h1 h2 j Hs Hh) as (ES & EH & LS & LH).
    destruct t as [|t]; cbn [nth]; [split; assumption|].
    rewrite ES, EH. now apply IH.
Qed.

Lemma zeros_app n m c : zeros (n + m) c = zeros n c ++ zeros m c.
Proof. unfold zeros. apply repeat_app. Qed.

(** The LSTM treats the sequences of a batch one by one: at every pass the
    rows of the state and of the hidden state of a batch put together from
    two batches are those of the one batch followed by those of the other,
    and so are the predictions. *)
Theorem lstm_treats_the_sequences_of_a_batch_separately
    (w : weights) (seq_input seq_input' : tensor3) :
  well_shaped w = true ->
  (forall t,
     nth t (states_list w (seq_input ++ seq_input')) []
     = nth t (states_list w seq_input) [] ++ nth t (states_list w seq_input') []
     /\ nth t (hiddens_list w (seq_input ++ seq_input')) []
        = nth t (hiddens_list w seq_input) [] ++ nth t (hiddens_list w seq_input') [])
  /\ predict w (seq_input ++ seq_input') = predict w seq_input ++ predict w seq_input'.
Proof.
  intros Hw.
  assert (Hall : forall t,
     nth t (states_list w (seq_input ++ seq_input')) []
     = nth t (states_list w seq_input) [] ++ nth t (states_list w seq_input') []
     /\ nth t (hiddens_list w (seq_input ++ seq_input')) []
        = nth t (hiddens_list w seq_input) [] ++ nth t (hiddens_list w seq_input') []).
  { intros t. unfold states_list, hiddens_list, cells, state_0, hidden_0.
    rewrite length_app, zeros_app.
    apply lstm_loop_batches; unfold zeros; apply repeat_length. }
  split; [exact Hall|].
  rewrite !(lstm_predict_readout _ _ Hw), <- map_app. apply f_equal.
  pose proof (Hall 8%nat) as [_ H8]. unfold hiddens_list in H8.
  rewrite !(map_nth hidden _ (Cell [] [] [] [] [] []) 8) in H8. exact H8.
Qed.

Lemma lstm_treats_the_sequences_of_a_batch_separately_witness :
  predict Examples.lstm_zero_weights
          (Examples.counting_sequence 9 ++ Examples.zero_sequence)
  = predict Examples.lstm_zero_weights (Examples.counting_sequence 9)
    ++ predict Examples.lstm_zero_weights Examples.zero_sequence.
Proof.
  exact (proj2 (lstm_treats_the_sequences_of_a_batch_separately
                  Examples.lstm_zero_weights (Examples.counting_sequence 9)
                  Examples.zero_sequence eq_refl)).
Defined.

End LSTMBatches.

(* ================================================================== *)
(** * The mean squared error of the recurrent graphs *)
(* ================================================================== *)

Section SquaredError.

Import Tensor.
Local Open Scope R_scope.

Lemma vsum_squares_nonneg (v : vec) : 0 <= vsum (map (fun d => d * d) v).
Proof.
  induction v as [|a v IH]; cbn [map vsum fold_right]; [lra|].
  unfold vsum in IH. nra.
Qed.











End SquaredError.

(* ================================================================== *)
(** * AlexNet: dropout and normalization *)
(* ================================================================== *)

Section AlexNetActivations.

Import Tensor Static AlexNet.
Local Open Scope R_scope.

Lemma floor_below_half u : 0 <= u < 0.5 -> floor (1 - 0.5 + u) = 0.
Proof.
  intros Hu. unfold floor.
  assert (E : 0%Z = Int_part (1 - 0.5 + u)) by (apply Int_part_spec; lra).
  now rewrite <- E.
Qed.

Lemma floor_above_half u : 0.5 <= u < 1 -> floor (1 - 0.5 + u) = 1.
Proof.
  intros Hu. unfold floor.
  assert (E : 1%Z = Int_part (1 - 0.5 + u)) by (apply Int_part_spec; lra).
  now rewrite <- E.
Qed.

Lemma zipWith_ext_second {A B C : Type} (P : B -> Prop) (f f' : A -> B -> C) (u : list A) :
  (forall a b, P b -> f a b = f' a b) ->
  forall v, Forall P v -> zipWith f u v = zipWith f' u v.
Proof.
  intros Hf. unfold zipWith. induction u as [|a u IH]; intros v Hv; [reflexivity|].
  destruct Hv as [|b v Hb Hv]; [reflexivity|].
  cbn [combine map fst snd]. f_equal; [now apply Hf | now apply IH].
Qed.

(** [tf.layers.dropout(..., rate=0.5, training=True)] on draws in [[0, 1)]:
    an entry whose draw is below one half is zeroed, and every other entry
    is doubled.  [dense1] and [dense2] are such tensors, whatever is fed:
    the graph has no switch that turns the dropouts off. *)
Theorem dropout_zeroes_an_entry_or_doubles_it (noise inputs : mat) :
  Forall (Forall (fun u => 0 <= u < 1)) noise ->
  dropout 0.5 noise inputs
  = zipWith (zipWith (fun x u => if Rlt_dec u 0.5 then 0 else 2 * x)) inputs noise
  /\ (forall v imgs,
        dense1 v noise imgs
        = zipWith (zipWith (fun x u => if Rlt_dec u 0.5 then 0 else 2 * x))
                  (dense relu (dense1_kernel v) (dense1_bias v) (conv5_reshaped v imgs))
                  noise)
  /\ (forall v noise1 imgs,
        dense2 v noise1 noise imgs
        = zipWith (zipWith (fun x u => if Rlt_dec u 0.5 then 0 else 2 * x))
                  (dense relu (dense2_kernel v) (dense2_bias v) (dense1 v noise1 imgs))
                  noise).
Proof.
  intros Hn.
  assert (E : forall inputs : mat,
            dropout 0.5 noise inputs
            = zipWith (zipWith (fun x u => if Rlt_dec u 0.5 then 0 else 2 * x)) inputs noise).
  { intros X. unfold dropout.
    apply (zipWith_ext_second (Forall (fun u => 0 <= u < 1))); [|exact Hn].
    intros row us Hus.
    apply (zipWith_ext_second (fun u => 0 <= u < 1)); [|exact Hus].
    intros x u Hu. destruct (Rlt_dec u 0.5) as [Hlt|Hge].
    - rewrite floor_below_half by lra. lra.
    - rewrite floor_above_half by lra. lra. }
  split; [apply E|]. split.
  - intros v imgs. unfold dense1. cbv zeta. apply E.
  - intros v noise1 imgs. unfold dense2. cbv zeta. apply E.
Qed.

Lemma dropout_zeroes_an_entry_or_doubles_it_witness :
  dropout 0.5 [[1 / 4; 3 / 4]] [[1; 1]]
  = zipWith (zipWith (fun x u => if Rlt_dec u 0.5 then 0 else 2 * x))
            [[1; 1]] [[1 / 4; 3 / 4]].
Proof.
  apply (dropout_zeroes_an_entry_or_doubles_it [[1 / 4; 3 / 4]] [[1; 1]]).
  repeat constructor; lra.
Defined.

(** The divisor of the normalization is at least one. *)
Lemma lrn_divisor (s : R) : 0 <= s -> 1 <= Rpower (2 + 1e-4 * s) 0.75.
Proof.
  intros Hs. unfold Rpower.
  assert (H1 : 0 < ln (2 + 1e-4 * s)).
  { rewrite <- ln_1. apply ln_increasing; lra. }
  assert (H2 : exp 0 < exp (0.75 * ln (2 + 1e-4 * s))) by (apply exp_increasing; lra).
  rewrite exp_0 in H2. lra.
Qed.

Lemma lrn_entry (a s : R) :
  0 <= a -> 0 <= s -> 0 <= a / Rpower (2 + 1e-4 * s) 0.75 <= a.
Proof.
  intros Ha Hs. pose proof (lrn_divisor s Hs) as HD.
  set (D := Rpower _ _) in *.
  assert (HI : 0 < / D <= 1).
  { split; [apply Rinv_0_lt_compat; lra|].
    rewrite <- Rinv_1. apply Rinv_le_contravar; lra. }
  unfold Rdiv. nra.
Qed.

Lemma Forall2_map_self {A : Type} (Q : A -> A -> Prop) (P : A -> Prop) (F : A -> A) l :
  (forall a, P a -> Q (F a) a) -> Forall P l -> Forall2 Q (map F l) l.
Proof.
  intros HF Hl. induction Hl as [|a l Ha _ IH]; cbn [map]; constructor; auto.
Qed.

Lemma lrn_pixel_shrinks (v : vec) :
  Forall (fun a => 0 <= a) v ->
  Forall2 (fun b a => 0 <= b <= a) (lrn_pixel 5 2 1e-4 0.75 v) v.
Proof.
  intros Hv. unfold lrn_pixel.
  assert (G : forall (D : nat -> R), (forall d, 0 <= D d) -> forall pre,
            Forall2 (fun b a => 0 <= b <= a)
              (map (fun d => nth d (pre ++ v) 0 / Rpower (2 + 1e-4 * D d) 0.75)
                   (seq (length pre) (length v))) v).
  { intros D HD. induction Hv as [|a v Ha _ IH]; intros pre; [constructor|].
    cbn [length seq map]. constructor.
    - rewrite app_nth2, Nat.sub_diag by lia. cbn [nth]. now apply lrn_entry.
    - specialize (IH (pre ++ [a])). rewrite <- app_assoc, length_app in IH.
      cbn [app length] in IH. rewrite Nat.add_1_r in IH. exact IH. }
  apply (G (fun d => vsum (map (fun a => a * a) (lrn_window 5 d v)))
           (fun d => vsum_squares_nonneg _) []).
Qed.

Lemma conv2d_nonnegative filters kh kw sh sw p K b (inputs : batch) :
  Forall (Forall (Forall (Forall (fun a => 0 <= a))))
         (conv2d filters kh kw sh sw p relu K b inputs).
Proof.
  rewrite conv2d_activation.
  repeat (apply Forall_map, Forall_forall; intros ? _).
  unfold relu. apply Rmax_r.
Qed.

Lemma lrn_shrinks (input : batch) :
  Forall (Forall (Forall (Forall (fun a => 0 <= a)))) input ->
  Forall2 (Forall2 (Forall2 (Forall2 (fun b a => 0 <= b <= a))))
          (lrn 5 2 1e-4 0.75 input) input.
Proof.
  unfold lrn.
  apply (Forall2_map_self _ (Forall (Forall (Forall (fun a => 0 <= a))))). intros img.
  apply (Forall2_map_self _ (Forall (Forall (fun a => 0 <= a)))). intros row.
  apply (Forall2_map_self _ (Forall (fun a => 0 <= a))). intros px. apply lrn_pixel_shrinks.
Qed.

(** The normalization after [conv1] and after [conv2] never raises an
    activation and never makes it negative: entry by entry, [lrn1] lies
    between 0 and [conv1], and [lrn2] between 0 and [conv2]. *)
Theorem lrn_never_raises_an_activation (v : variables) (image_batch : batch) :
  Forall2 (Forall2 (Forall2 (Forall2 (fun b a => 0 <= b <= a))))
          (lrn1 v image_batch) (conv1 v image_batch)
  /\ Forall2 (Forall2 (Forall2 (Forall2 (fun b a => 0 <= b <= a))))
             (lrn2 v image_batch) (conv2 v image_batch).
Proof.
  split.
  - unfold lrn1. apply (lrn_shrinks (conv1 v image_batch)).
    unfold conv1. apply conv2d_nonnegative.
  - unfold lrn2. apply (lrn_shrinks (conv2 v image_batch)).
    unfold conv2. apply conv2d_nonnegative.
Qed.

End AlexNetActivations.

(* ================================================================== *)
(** * AlexNet: the values of the layers, the loss and the accuracy *)
(* ================================================================== *)

Section AlexNetValues.

Import Tensor Static AlexNet.
Local Open Scope R_scope.

Lemma has_shape4_map (F : image -> image) n h w c h' w' c' (imgs : batch) :
  (forall img, has_shape3 h w c img = true -> has_shape3 h' w' c' (F img) = true) ->
  has_shape4 n h w c imgs = true -> has_shape4 n h' w' c' (map F imgs) = true.
Proof.
  intros HF. unfold has_shape4. rewrite !andb_true_iff, length_map, !forallb_forall.
  intros [HL Himgs]. split; [exact HL|].
  intros img' (img & <- & Hin)%in_map_iff. apply HF, Himgs, Hin.
Qed.

(** For every batch of images of 224 x 224 pixels of three channels and
    whatever the values of the variables, the tensors of the convolutional
    layers have the shapes the notebook prints: [n, 56, 56, 96] for [conv1]
    and [lrn1], [n, 55, 55, 96] for [maxpool1], [n, 28, 28, 256] for [conv2]
    and [lrn2], [n, 27, 27, 256] for [maxpool2], [n, 13, 13, 384] for
    [conv3] and [conv4], and [n, 13, 13, 256] for [conv5]. *)
Theorem convolutional_layers_have_the_printed_shapes
    (v : variables) (image_batch : batch) (n : nat) :
  has_shape4 n 224 224 3 image_batch = true ->
  has_shape4 n 56 56 96 (conv1 v image_batch) = true
  /\ has_shape4 n 56 56 96 (lrn1 v image_batch) = true
  /\ has_shape4 n 55 55 96 (maxpool1 v image_batch) = true
  /\ has_shape4 n 28 28 256 (conv2 v image_batch) = true
  /\ has_shape4 n 28 28 256 (lrn2 v image_batch) = true
  /\ has_shape4 n 27 27 256 (maxpool2 v image_batch) = true
  /\ has_shape4 n 13 13 384 (conv3 v image_batch) = true
  /\ has_shape4 n 13 13 384 (conv4 v image_batch) = true
  /\ has_shape4 n 13 13 256 (conv5 v image_batch) = true.
Proof.
  intros H0.
  assert (H1 : has_shape4 n 56 56 96 (conv1 v image_batch) = true).
  { unfold conv1, conv2d. apply (has_shape4_map _ n 224 224 3); [|exact H0].
    intros img Himg.
    apply (conv2d_image_shape_from 96 11 11 4 4 SAME relu _ _ 223 223 3); trivial. }
  assert (H2 : has_shape4 n 56 56 96 (lrn1 v image_batch) = true).
  { unfold lrn1, lrn. apply (has_shape4_map _ n 56 56 96); [|exact H1].
    intros img Himg. now apply lrn_image_shape. }
  assert (H3 : has_shape4 n 55 55 96 (maxpool1 v image_batch) = true).
  { unfold maxpool1, max_pooling2d. apply (has_shape4_map _ n 56 56 96); [|exact H2].
    intros img Himg. apply (max_pooling2d_image_shape_from 2 2 1 1 55 55 96); trivial. }
  assert (H4 : has_shape4 n 28 28 256 (conv2 v image_batch) = true).
  { unfold conv2, conv2d. apply (has_shape4_map _ n 55 55 96); [|exact H3].
    intros img Himg.
    apply (conv2d_image_shape_from 256 5 5 2 2 SAME relu _ _ 54 54 96); trivial. }
  assert (H5 : has_shape4 n 28 28 256 (lrn2 v image_batch) = true).
  { unfold lrn2, lrn. apply (has_shape4_map _ n 28 28 256); [|exact H4].
    intros img Himg. now apply lrn_image_shape. }
  assert (H6 : has_shape4 n 27 27 256 (maxpool2 v image_batch) = true).
  { unfold maxpool2, max_pooling2d. apply (has_shape4_map _ n 28 28 256); [|exact H5].
    intros img Himg. apply (max_pooling2d_image_shape_from 2 2 1 1 27 27 256); trivial. }
  assert (H7 : has_shape4 n 13 13 384 (conv3 v image_batch) = true).
  { unfold conv3, conv2d. apply (has_shape4_map _ n 27 27 256); [|exact H6].
    intros img Himg.
    apply (conv2d_image_shape_from 384 3 3 2 2 VALID relu _ _ 26 26 256); trivial. }
  assert (H8 : has_shape4 n 13 13 384 (conv4 v image_batch) = true).
  { unfold conv4, conv2d. apply (has_shape4_map _ n 13 13 384); [|exact H7].
    intros img Himg.
    apply (conv2d_image_shape_from 384 3 3 1 1 SAME relu _ _ 12 12 384); trivial. }
  assert (H9 : has_shape4 n 13 13 256 (conv5 v image_batch) = true).
  { unfold conv5, conv2d. apply (has_shape4_map _ n 13 13 384); [|exact H8].
    intros img Himg.
    apply (conv2d_image_shape_from 256 3 3 1 1 SAME relu _ _ 12 12 384); trivial. }
  repeat split; assumption.
Qed.

Lemma convolutional_layers_have_the_printed_shapes_witness :
  has_shape4 1 55 55 96 (maxpool1 (variables_of []) Examples.black_image) = true
  /\ has_shape4 1 13 13 384 (conv3 (variables_of []) Examples.black_image) = true.
Proof.
  assert (Himg : has_shape4 1 224 224 3 Examples.black_image = true) by (vm_compute; reflexivity).
  pose proof (convolutional_layers_have_the_printed_shapes
                (variables_of []) Examples.black_image 1 Himg)
    as (_ & _ & H3 & _ & _ & _ & H7 & _).
  exact (conj H3 H7).
Defined.

Lemma vsum_nonneg (v : vec) : Forall (fun a => 0 <= a) v -> 0 <= vsum v.
Proof.
  intros Hv. induction Hv as [|a v Ha _ IH]; [cbn; lra|].
  change (vsum (a :: v)) with (a + vsum v). lra.
Qed.

Lemma vsum_bounds_entry (v : vec) :
  Forall (fun a => 0 < a) v ->
  forall k, (k < length v)%nat -> 0 < nth k v 0 <= vsum v.
Proof.
  intros Hv. induction Hv as [|a v Ha Hv IH]; intros k Hk; [cbn in Hk; lia|].
  change (vsum (a :: v)) with (a + vsum v).
  assert (Hs : 0 <= vsum v).
  { apply vsum_nonneg. eapply Forall_impl; [|exact Hv]. intros b Hb. cbv beta in Hb. lra. }
  destruct k as [|k]; cbn [nth]; [lra|].
  cbn [length] in Hk. specialize (IH k ltac:(lia)). lra.
Qed.

(** An entry of a normalized row is a probability. *)
Lemma softmax_normalize_entry (row : vec) k :
  (k < length row)%nat -> 0 < nth k (softmax_normalize row) 0 <= 1.
Proof.
  intros Hk. unfold softmax_normalize.
  rewrite (nth_map_lt (fun a => exp a / vsum (map exp row)) row k 0 0 Hk).
  assert (Hpos : Forall (fun a => 0 < a) (map exp row)).
  { apply Forall_map, Forall_forall. intros a _. apply exp_pos. }
  destruct (vsum_bounds_entry (map exp row) Hpos k ltac:(now rewrite length_map)) as [H1 H2].
  rewrite (nth_map_lt exp row k 0 0 Hk) in H1, H2.
  set (e := exp (nth k row 0)) in *. set (S := vsum (map exp row)) in *.
  split.
  - apply Rdiv_lt_0_compat; lra.
  - apply Rmult_le_reg_r with S; [lra|].
    replace (e / S * S) with e by (field; lra). lra.
Qed.

Lemma reduce_mean_nonneg (v : vec) : Forall (fun a => 0 <= a) v -> 0 <= reduce_mean v.
Proof.
  intros Hv. unfold reduce_mean. pose proof (vsum_nonneg v Hv) as Hs.
  destruct v as [|a v].
  - cbn [vsum fold_right length INR]. unfold Rdiv. rewrite Rmult_0_l. lra.
  - assert (Hn : 0 < INR (length (a :: v))) by (apply lt_0_INR; cbn; lia).
    unfold Rdiv. apply Rmult_le_pos; [exact Hs|]. left. now apply Rinv_0_lt_compat.
Qed.

(** The loss of AlexNet is never negative when every label names a class of
    its row of scores. *)
Theorem cross_entropy_loss_is_never_negative (label_batch : list Z) (softmax : mat) :
  Forall2 (fun y row => (0 <= y < Z.of_nat (length row))%Z) label_batch softmax ->
  0 <= loss_of label_batch softmax.
Proof.
  intros H. unfold loss_of, sparse_softmax_cross_entropy. apply reduce_mean_nonneg.
  unfold zipWith. induction H as [|y row ys rows Hy _ IH]; [constructor|].
  cbn [combine map fst snd]. constructor; [|exact IH].
  destruct (softmax_normalize_entry row (Z.to_nat y) ltac:(lia)) as [H1 H2].
  set (p := nth _ _ _) in *.
  assert (ln p <= ln 1) by (destruct H2 as [H2| ->]; [left; now apply ln_increasing | lra]).
  rewrite ln_1 in *. lra.
Qed.

Lemma cross_entropy_loss_is_never_negative_witness :
  0 <= loss_of [3; 7]%Z Examples.two_image_scores.
Proof.
  apply cross_entropy_loss_is_never_negative.
  unfold Examples.two_image_scores.
  constructor; [rewrite repeat_length; lia|].
  constructor; [rewrite repeat_length; lia|]. constructor.
Defined.

Lemma vsum_to_float (bs : list bool) : 0 <= vsum (to_float bs) <= INR (length bs).
Proof.
  induction bs as [|b bs IH]; [cbn; lra|].
  change (vsum (to_float (b :: bs))) with ((if b then 1 else 0) + vsum (to_float bs)).
  change (length (b :: bs)) with (S (length bs)). rewrite S_INR.
  destruct b; lra.
Qed.

Lemma reduce_mean_to_float (bs : list bool) : 0 <= reduce_mean (to_float bs) <= 1.
Proof.
  unfold reduce_mean. pose proof (vsum_to_float bs) as H.
  replace (length (to_float bs)) with (length bs) by (unfold to_float; now rewrite length_map).
  destruct bs as [|b bs].
  - change (vsum (to_float [])) with 0. unfold Rdiv. rewrite Rmult_0_l. lra.
  - assert (Hn : 0 < INR (length (b :: bs))) by (apply lt_0_INR; cbn; lia).
    set (n := INR _) in *. set (s := vsum _) in *. split.
    + apply Rmult_le_pos; [lra|]. left. now apply Rinv_0_lt_compat.
    + apply Rmult_le_reg_r with n; [lra|].
      replace (s / n * n) with s by (field; lra). lra.
Qed.

Lemma map_constant {A B : Type} (c : B) (l : list A) :
  map (fun _ => c) l = repeat c (length l).
Proof. induction l as [|a l IH]; cbn; congruence. Qed.

Lemma argmax_axis0_of_one_row units (row : vec) :
  argmax_axis0 units [row] = repeat 0%Z units.
Proof.
  unfold argmax_axis0. rewrite <- (length_seq units 0) at 2.
  rewrite <- map_constant. reflexivity.
Qed.

Lemma vsum_repeat (c : R) n : vsum (repeat c n) = INR n * c.
Proof.
  induction n as [|n IH]; [cbn; lra|].
  change (vsum (repeat c (S n))) with (c + vsum (repeat c n)). rewrite IH, S_INR. lra.
Qed.

Lemma accuracy_of_constant_prediction n (p y : Z) :
  (2 <= n)%nat ->
  accuracy_of (repeat p n) [y] = Some (if (p =? y)%Z then 1 else 0).
Proof.
  intros Hn. unfold accuracy_of, equal. rewrite repeat_length. cbn [length hd].
  destruct (Nat.eqb_spec n 1) as [->|_]; [lia|]. cbn [Nat.eqb option_map].
  f_equal. rewrite map_repeat. unfold to_float. rewrite map_repeat.
  unfold reduce_mean. rewrite vsum_repeat, repeat_length.
  field. apply not_0_INR. lia.
Qed.

(** Whenever the accuracy of a batch of at least one image can be
    evaluated, it is a number between 0 and 1. *)
Theorem accuracy_is_between_0_and_1 (softmax : mat) (label_batch : list Z) (a : R) :
  (1 <= length softmax)%nat ->
  accuracy_of (prediction_of softmax) label_batch = Some a -> 0 <= a <= 1.
Proof.
  intros _. unfold accuracy_of.
  destruct (equal (prediction_of softmax) label_batch) as [e|]; [|discriminate].
  cbn [option_map]. intros E. injection E as <-. apply reduce_mean_to_float.
Qed.

Lemma accuracy_is_between_0_and_1_witness :
  accuracy_of (prediction_of [repeat 0 1000]) [0%Z] = Some 1 /\ 0 <= 1 <= 1.
Proof.
  assert (E : accuracy_of (prediction_of [repeat 0 1000]) [0%Z] = Some 1).
  { unfold prediction_of. rewrite argmax_axis0_of_one_row.
    now rewrite accuracy_of_constant_prediction by lia. }
  split; [exact E|].
  apply (accuracy_is_between_0_and_1 [repeat 0 1000] [0%Z] 1); [cbn; lia | exact E].
Defined.

(** On a batch of one image the tensor [prediction] is a thousand zeros
    whatever the scores are, and the accuracy against the label of the image
    is 1 when that label is class 0 and 0 when it is any other class. *)
Theorem a_batch_of_one_image_is_predicted_as_zeros (row : vec) (y : Z) :
  prediction_of [row] = repeat 0%Z 1000
  /\ accuracy_of (prediction_of [row]) [y] = Some (if (0 =? y)%Z then 1 else 0).
Proof.
  unfold prediction_of. rewrite argmax_axis0_of_one_row. split; [reflexivity|].
  apply accuracy_of_constant_prediction. lia.
Qed.

End AlexNetValues.

(* ================================================================== *)
(** * The prepared sequences in closed form *)
(* ================================================================== *)

Section DataClosedForm.

Import Tensor Framework Notebook.
Local Open Scope R_scope.






End DataClosedForm.

(* ================================================================== *)
(** * The predictions of the recurrent graphs are bounded *)
(* ================================================================== *)

Section PredictionBounds.

Import Tensor.
Local Open Scope R_scope.






End PredictionBounds.

(* ================================================================== *)
(** * What the two sections of the RNN notebook print *)
(* ================================================================== *)

Section PrintedLines.

Import Tensor Framework.
Local Open Scope R_scope.

Ltac run_section :=
  lazy beta iota zeta delta
    [bind ret tf_reset_default_graph tf_set_random_seed tf_get_variable get_seed
     graph_seed graph_random_ops np_state entropy_used].

(** Each of the two sections starts from initial values of its variables
    that depend neither on the data, nor on the world it is run in, nor on
    the entropy.  It prints one line for each of the steps 1 to 100, in
    order, with the loss on the training sequences at the variables the
    updates up to that step have left; and the test loss is the loss on the
    test sequences at the variables the hundredth update has left: the test
    sequences reach no update. *)
Theorem sections_print_the_losses_along_the_updates (fw : framework) :
  (exists vars0 : variables,
     length vars0 = 5%nat
     /\ forall env train_seq test_seq s,
          let after k :=
            snd (Nat.iter k (RNN.train_step fw train_seq) (slots_init fw vars0, vars0)) in
          fst (Notebook.basic_rnn fw env train_seq test_seq s)
          = Notebook.Printed
              (map (fun step => (step, RNN.loss (RNN.weights_of (after step)) train_seq))
                   (seq 1 100))
              (RNN.loss (RNN.weights_of (after 100%nat)) test_seq))
  /\ (exists vars0 : variables,
        length vars0 = 14%nat
        /\ forall env train_seq test_seq s,
             let after k :=
               snd (Nat.iter k (LSTM.train_step fw train_seq) (slots_init fw vars0, vars0)) in
             fst (Notebook.long_short_term_memory fw env train_seq test_seq s)
             = Notebook.Printed
                 (map (fun step => (step, LSTM.loss (LSTM.weights_of (after step)) train_seq))
                      (seq 1 100))
                 (LSTM.loss (LSTM.weights_of (after 100%nat)) test_seq)).
Proof.
  split.
  - eexists. split; [|intros env train_seq test_seq s; cbv zeta].
    2:{ unfold Notebook.basic_rnn. run_section.
        rewrite !seeded_initializers by (repeat constructor; discriminate).
        cbn [fst snd map].
        rewrite (training_from fw (RNN.train_step fw train_seq)
                   (fun vars => RNN.loss (RNN.weights_of vars) train_seq) 100 0).
        cbn [fst snd app].
        apply (f_equal2 Notebook.Printed); [|reflexivity].
        apply map_ext. intros step. now rewrite Nat.sub_0_r. }
    reflexivity.
  - eexists. split; [|intros env train_seq test_seq s; cbv zeta].
    2:{ unfold Notebook.long_short_term_memory. run_section.
        rewrite !seeded_initializers by (repeat constructor; discriminate).
        cbn [fst snd map].
        rewrite (training_from fw (LSTM.train_step fw train_seq)
                   (fun vars => LSTM.loss (LSTM.weights_of vars) train_seq) 100 0).
        cbn [fst snd app].
        apply (f_equal2 Notebook.Printed); [|reflexivity].
        apply map_ext. intros step. now rewrite Nat.sub_0_r. }
    reflexivity.
Qed.

End PrintedLines.

(* ================================================================== *)
(** * The output layers of the recurrent graphs *)
(* ================================================================== *)

Section OutputLayers.

Import Tensor.
Local Open Scope R_scope.

(** In either recurrent graph with weights of the declared shapes, the two
    reshapes around [tf.nn.xw_plus_b] undo each other: the tensor [outputs]
    holds, for every sequence and every time step, the output layer
    [h W_yh + b_y] applied to the hidden state [h] of that sequence at that
    step, and [predict] is its last time step. *)
Theorem outputs_are_the_readouts_of_the_hidden_states
    (w : RNN.weights) (lw : LSTM.weights) (seq_input : tensor3) :
  RNN.well_shaped w = true -> LSTM.well_shaped lw = true ->
  (RNN.outputs w seq_input = map (map (RNN.readout w)) (RNN.hiddens w seq_input)
   /\ RNN.predict w seq_input = map (fun s => nth 8 s []) (RNN.outputs w seq_input))
  /\ (LSTM.outputs lw seq_input = map (map (LSTM.readout lw)) (LSTM.hiddens lw seq_input)
      /\ LSTM.predict lw seq_input = map (fun s => nth 8 s []) (LSTM.outputs lw seq_input)).
Proof.
  intros Hw Hlw. split; split.
  - now apply rnn_outputs_readout.
  - reflexivity.
  - now apply lstm_outputs_readout.
  - reflexivity.
Qed.

Lemma outputs_are_the_readouts_of_the_hidden_states_witness :
  RNN.outputs Examples.rnn_zero_weights (Examples.counting_sequence 9)
  = map (map (RNN.readout Examples.rnn_zero_weights))
        (RNN.hiddens Examples.rnn_zero_weights (Examples.counting_sequence 9))
  /\ LSTM.outputs Examples.lstm_zero_weights (Examples.counting_sequence 9)
     = map (map (LSTM.readout Examples.lstm_zero_weights))
           (LSTM.hiddens Examples.lstm_zero_weights (Examples.counting_sequence 9)).
Proof.
  pose proof (outputs_are_the_readouts_of_the_hidden_states
                Examples.rnn_zero_weights Examples.lstm_zero_weights
                (Examples.counting_sequence 9) eq_refl eq_refl) as [[H1 _] [H2 _]].
  exact (conj H1 H2).
Defined.

End OutputLayers.
